(** * NFC connection handover (apps/system/js/nfc_handover.js)

    A shallow embedding of the handover engine of the system app: the
    [Buffer] reader, [NdefCodec], [NdefHandoverCodec] and the
    [HandoverManager] state, followed by the properties proved about them.

    Conventions of the embedding.
    - A [Uint8Array] is a [list byte]; a write into one wraps modulo 256
      ([ToUint8]).
    - A JavaScript number that the code computes with is an integer, a [Z];
      [NaN] is [None] of [num].  [undefined] read out of an array is [None]
      of [jsoctet].
    - A JavaScript string is a [string]: code units below 256.
    - A function that can throw returns a [res]; [OutOfFuel] is not a
      JavaScript outcome, it says that a loop did not finish within the
      fuel it was given. *)

From Stdlib Require Import ZArith List String Ascii Bool Lia.
From Stdlib Require Import Strings.Byte.
Import ListNotations.
Open Scope string_scope.
Open Scope list_scope.
Open Scope Z_scope.

(** ** JavaScript values *)

Definition num := option Z.
Definition jsoctet := option byte.

Definition b2z (b : byte) : Z := Z.of_N (Byte.to_N b).

(** The conversion applied when a number is stored in a [Uint8Array]. *)
Definition ToUint8 (n : num) : byte :=
  match n with
  | None => x00
  | Some z =>
      match Byte.of_N (Z.to_N (z mod 256)) with
      | Some b => b
      | None => x00
      end
  end.

Definition num_of_Z (z : Z) : num := Some z.
Coercion num_of_Z : Z >-> num.
(* An array literal takes its element type from where it stands, so that
   [[8; 0; m]] with [m : num] is a list of [num]. *)
Arguments cons {A}%_type_scope & a l%_list_scope.

(** [new Uint8Array([...])] *)
Definition Uint8Array (l : list num) : list byte := map ToUint8 l.

Definition ToInt32 (z : Z) : Z := (z + 2 ^ 31) mod 2 ^ 32 - 2 ^ 31.
Definition ToUint32 (z : Z) : Z := z mod 2 ^ 32.

(** [ToInt32] of an array element, as the bit operators apply it. *)
Definition octet_int (o : jsoctet) : Z :=
  match o with Some b => b2z b | None => 0 end.

Definition octet_num (o : jsoctet) : num := option_map b2z o.

Definition num_add (a b : num) : num :=
  match a, b with Some x, Some y => Some (x + y) | _, _ => None end.
Definition num_gt (a b : num) : bool :=
  match a, b with Some x, Some y => x >? y | _, _ => false end.
Definition num_eq (a b : num) : bool :=
  match a, b with Some x, Some y => x =? y | _, _ => false end.

Definition len {A} (l : list A) : Z := Z.of_nat (List.length l).

(** [a[i]] on a typed array. *)
Definition index (a : list byte) (i : num) : jsoctet :=
  match i with
  | Some z => if z <? 0 then None else nth_error a (Z.to_nat z)
  | None => None
  end.

(** [a.subarray(b, e)]: [NaN] counts as 0, a negative index counts from the
    end, both are clamped to the array. *)
Definition rel_index (n : Z) (i : num) : Z :=
  match i with
  | None => 0
  | Some z => if z <? 0 then Z.max (n + z) 0 else Z.min z n
  end.

Definition subarray (a : list byte) (b e : num) : list byte :=
  let bi := rel_index (len a) b in
  let ei := rel_index (len a) e in
  firstn (Z.to_nat (ei - bi)) (skipn (Z.to_nat bi) a).

(** ** Exceptions and results *)

Inductive exn :=
| Str (msg : string)   (* throw 'msg' *)
| TypeError.           (* a property read off undefined or null *)

Inductive res (A : Type) :=
| Ok (a : A)
| Throw (e : exn)
| OutOfFuel.
Arguments Ok {A} a.
Arguments Throw {A} e.
Arguments OutOfFuel {A}.

(** ** NdefUtils *)

Module NdefUtils.

Definition fromUTF8 (str : string) : list byte := list_byte_of_string str.

Fixpoint equalElements (a1 a2 : list byte) : bool :=
  match a1, a2 with
  | x :: r1, y :: r2 => if Byte.eqb x y then equalElements r1 r2 else false
  | _, _ => true
  end.

Definition equalArrays (a1 a2 : list byte) : bool :=
  if negb (len a1 =? len a2) then false else equalElements a1 a2.

Definition toUTF8 (a : list byte) : string := string_of_list_byte a.

End NdefUtils.

(** ** NdefConsts *)

Module NdefConsts.
Definition MB : Z := Z.shiftl 1 7.
Definition ME : Z := Z.shiftl 1 6.
Definition CF : Z := Z.shiftl 1 5.
Definition SR : Z := Z.shiftl 1 4.
Definition IL : Z := Z.shiftl 1 3.
Definition TNF : Z := 0x07.

Definition tnf_well_known : Z := 0x01.
Definition tnf_mime_media : Z := 0x02.

Definition rtd_alternative_carrier := NdefUtils.fromUTF8 "ac".
Definition rtd_collision_resolution := NdefUtils.fromUTF8 "cr".
Definition rtd_handover_carrier := NdefUtils.fromUTF8 "Hc".
Definition rtd_handover_request := NdefUtils.fromUTF8 "Hr".
Definition rtd_handover_select := NdefUtils.fromUTF8 "Hs".
End NdefConsts.

(** ** Buffer: a cursor over a Uint8Array

    The reader is a state monad over the buffer; a throw leaves no buffer
    behind (every buffer is local to the parse that made it). *)

Record Buffer := mkBuffer { uint8array : list byte; offset : num }.

Definition newBuffer (a : list byte) : Buffer := mkBuffer a (Some 0).

Definition M (A : Type) : Type := Buffer -> res (A * Buffer).

Definition ret {A} (a : A) : M A := fun b => Ok (a, b).
Definition throw {A} (e : exn) : M A := fun _ => Throw e.
Definition bind {A B} (m : M A) (k : A -> M B) : M B :=
  fun b =>
    match m b with
    | Ok (a, b') => k a b'
    | Throw e => Throw e
    | OutOfFuel => OutOfFuel
    end.

Declare Scope reader_scope.
Notation "x <- m ;; k" := (bind m (fun x => k))
  (at level 61, m at next level, right associativity) : reader_scope.
Notation "m ;;; k" := (bind m (fun _ => k))
  (at level 61, right associativity) : reader_scope.
Open Scope reader_scope.

Definition BufferTooSmall : exn := Str "Buffer too small".

Definition getOctet : M jsoctet :=
  fun b =>
    if num_eq (offset b) (Some (len (uint8array b))) then Throw BufferTooSmall
    else Ok (index (uint8array b) (offset b),
             mkBuffer (uint8array b) (num_add (offset b) (Some 1))).

Definition getOctetArray (n : num) : M (list byte) :=
  fun b =>
    if num_gt (num_add (offset b) n) (Some (len (uint8array b)))
    then Throw BufferTooSmall
    else Ok (subarray (uint8array b) (offset b) (num_add (offset b) n),
             mkBuffer (uint8array b) (num_add (offset b) n)).

Definition skip (n : num) : M unit :=
  fun b =>
    if num_gt (num_add (offset b) n) (Some (len (uint8array b)))
    then Throw BufferTooSmall
    else Ok (tt, mkBuffer (uint8array b) (num_add (offset b) n)).

(** ** MozNdefRecord *)

Record MozNdefRecord := mkRecord {
  tnf : Z;
  type : list byte;
  id : list byte;
  payload : list byte
}.

(** ** NdefCodec *)

Module NdefCodec.
Import NdefConsts.

Definition MBNotSet : exn := Str "MB bit not set in first NDEF record".
Definition MBNotFirst : exn := Str "MB can only be set for the first record".
Definition Chunked : exn := Str "Cannot deal with chunked records".

(** [o & flag] as a condition. *)
Definition flag (o : jsoctet) (f : Z) : bool :=
  negb (Z.land (octet_int o) f =? 0).

(** One turn of [payloadLen <<= 8; payloadLen |= getOctet()]. *)
Definition shiftOctet (payloadLen : Z) : M Z :=
  o <- getOctet ;;
  ret (Z.lor (ToInt32 (Z.shiftl (ToInt32 payloadLen) 8)) (octet_int o)).

Definition parseNdefRecord (firstOctet : jsoctet) : M MozNdefRecord :=
  let tnf := Z.land (octet_int firstOctet) TNF in
  typeLen <- getOctet ;;
  payloadLen <- getOctet ;;
  payloadLen <-
    (if negb (flag firstOctet SR) then
       p <- shiftOctet (octet_int payloadLen) ;;
       p <- shiftOctet p ;;
       p <- shiftOctet p ;;
       ret (Some p)
     else ret (octet_num payloadLen)) ;;
  idLen <-
    (if flag firstOctet IL then o <- getOctet ;; ret (octet_num o)
     else ret (Some 0)) ;;
  type <- getOctetArray (octet_num typeLen) ;;
  id <- getOctetArray idLen ;;
  payload <- getOctetArray payloadLen ;;
  ret (mkRecord tnf type id payload).

(** The body of the do-while loop of [doParse]: the record read, and
    whether the loop goes on ([!(firstOctet & ME)]). *)
Definition doParseRecord (isFirstRecord : bool) : M (MozNdefRecord * bool) :=
  firstOctet <- getOctet ;;
  if isFirstRecord && negb (flag firstOctet MB) then throw MBNotSet
  else if negb isFirstRecord && flag firstOctet MB then throw MBNotFirst
  else if flag firstOctet CF then throw Chunked
  else
    r <- parseNdefRecord firstOctet ;;
    ret (r, negb (flag firstOctet ME)).

Fixpoint doParseLoop (fuel : nat) (isFirstRecord : bool)
    (records : list MozNdefRecord) : M (list MozNdefRecord) :=
  match fuel with
  | O => fun _ => OutOfFuel
  | S fuel' =>
      rc <- doParseRecord isFirstRecord ;;
      let records := records ++ [fst rc] in
      if snd rc then doParseLoop fuel' false records else ret records
  end.

Definition doParse (fuel : nat) : M (list MozNdefRecord) :=
  doParseLoop fuel true [].

(** [parse]: [null] is [None]. *)
Definition parse (fuel : nat) (buffer : Buffer)
  : res (option (list MozNdefRecord)) :=
  match doParse fuel buffer with
  | Ok (records, _) => Ok (Some records)
  | Throw _ => Ok None
  | OutOfFuel => OutOfFuel
  end.

End NdefCodec.

(** ** Strings: the methods the codec calls *)

Module JSString.

(** [s.split(':')] *)
Fixpoint split (s : string) : list string :=
  match s with
  | EmptyString => [EmptyString]
  | String c r =>
      if Ascii.eqb c ":" then EmptyString :: split r
      else match split r with
           | g :: gs => String c g :: gs
           | [] => [String c EmptyString]
           end
  end.

(** White space that [parseInt] skips, among the code units below 256. *)
Definition isWhiteSpace (c : ascii) : bool :=
  let n := Z.of_nat (nat_of_ascii c) in
  ((9 <=? n) && (n <=? 13)) || (n =? 32) || (n =? 160).

Fixpoint trimStart (s : string) : string :=
  match s with
  | String c r => if isWhiteSpace c then trimStart r else s
  | EmptyString => s
  end.

Definition between (lo c hi : ascii) : bool :=
  (nat_of_ascii lo <=? nat_of_ascii c)%nat
  && (nat_of_ascii c <=? nat_of_ascii hi)%nat.

(** The value of a digit in radix 16. *)
Definition hexValue (c : ascii) : option Z :=
  let n := Z.of_nat (nat_of_ascii c) in
  if between "0" c "9" then Some (n - 48)
  else if between "a" c "f" then Some (n - 97 + 10)
  else if between "A" c "F" then Some (n - 65 + 10)
  else None.

(** The longest prefix of hex digits: its value and how many there are. *)
Fixpoint hexPrefix (s : string) (acc : Z) (count : nat) : Z * nat :=
  match s with
  | String c r =>
      match hexValue c with
      | Some d => hexPrefix r (16 * acc + d) (S count)
      | None => (acc, count)
      end
  | EmptyString => (acc, count)
  end.

Definition stripHexPrefix (s : string) : string :=
  match s with
  | String "0" (String "x" r) => r
  | String "0" (String "X" r) => r
  | _ => s
  end.

(** A mathematical integer as the Number nearest to it (round to 53
    significant bits, ties to even; infinite from 2^1024 on, which a
    typed array stores as 0 like [NaN]). *)
Definition toNumber (n : Z) : num :=
  let a := Z.abs n in
  if a <? 2 ^ 53 then Some n
  else
    let k := Z.log2 a - 52 in
    let q := Z.shiftr a k in
    let r := a - Z.shiftl q k in
    let half := Z.shiftl 1 (k - 1) in
    let q := if (half <? r) || ((half =? r) && Z.odd q) then q + 1 else q in
    let v := Z.shiftl q k in
    if 2 ^ 1024 <=? v then None else Some (Z.sgn n * v).

(** [parseInt(s, 16)]; [NaN] is [None]. *)
Definition parseInt16 (s : string) : num :=
  let s := trimStart s in
  let (sign, s) :=
    match s with
    | String "-" r => (-1, r)
    | String "+" r => (1, r)
    | _ => (1, s)
    end in
  let s := stripHexPrefix s in
  let (v, count) := hexPrefix s 0 0 in
  match count with
  | O => None
  | S _ => toNumber (sign * v)
  end.

Definition hexDigit (d : Z) : ascii :=
  match String.get (Z.to_nat d) "0123456789abcdef" with
  | Some c => c
  | None => "0"%char
  end.

Fixpoint digits16 (fuel : nat) (n : Z) (acc : string) : string :=
  match fuel with
  | O => acc
  | S fuel' =>
      let acc := String (hexDigit (n mod 16)) acc in
      if n / 16 =? 0 then acc else digits16 fuel' (n / 16) acc
  end.

(** [n.toString(16)] for an integer [n]. *)
Definition toString16 (n : Z) : string :=
  if n <? 0 then String "-" (digits16 (S (Z.to_nat (Z.log2 (- n)))) (- n) "")
  else digits16 (S (Z.to_nat (Z.log2 n))) n "".

(** [s.toUpperCase()], on the letters a to z (all that a hex numeral has). *)
Definition upper (c : ascii) : ascii :=
  if between "a" c "z" then ascii_of_nat (nat_of_ascii c - 32) else c.

Fixpoint toUpperCase (s : string) : string :=
  match s with
  | String c r => String (upper c) (toUpperCase r)
  | EmptyString => EmptyString
  end.

End JSString.

(** ** NdefHandoverCodec *)

(** An alternative carrier, [{cps, cdr}], and the result [h] of a parse,
    [{type, majorVersion, minorVersion, cr, ac}]; [cr] is set for 'Hr'. *)
Record AlternativeCarrier := mkAC { cps : Z; cdr : MozNdefRecord }.

Record Handover := mkHandover {
  h_type : string;
  majorVersion : Z;
  minorVersion : Z;
  cr : option Z;
  ac : list AlternativeCarrier
}.

(** The result of [parseBluetoothSSP], [{mac, localName}]. *)
Record BluetoothSSP := mkSSP { mac : string; localName : option string }.

(** Sequencing of results outside a buffer. *)
Definition rbind {A B} (m : res A) (k : A -> res B) : res B :=
  match m with
  | Ok a => k a
  | Throw e => Throw e
  | OutOfFuel => OutOfFuel
  end.

Notation "'do' x <- m ; k" := (rbind m (fun x => k))
  (at level 10, x name, m at level 100, k at level 200).

(** Run a reader on a fresh [new Buffer(a)] and keep its value. *)
Definition onBuffer {A} (a : list byte) (m : M A) : res A :=
  match m (newBuffer a) with
  | Ok (v, _) => Ok v
  | Throw e => Throw e
  | OutOfFuel => OutOfFuel
  end.

Module NdefHandoverCodec.
Import NdefConsts NdefUtils.

Definition BluetoothMime : string := "application/vnd.bluetooth.ep.oob".

Fixpoint findNdefRecordWithId (id0 : list byte) (ndef : list MozNdefRecord)
  : res MozNdefRecord :=
  match ndef with
  | record :: rest =>
      if equalArrays id0 (id record) then Ok record
      else findNdefRecordWithId id0 rest
  | [] => Throw (Str "Could not find record with id")
  end.

Definition parseAC (ac : list byte) (ndef : list MozNdefRecord)
  : res AlternativeCarrier :=
  do r <- onBuffer ac
       (o <- getOctet ;;
        cdrLen <- getOctet ;;
        cdr <- getOctetArray (octet_num cdrLen) ;;
        ret (Z.land (octet_int o) 0x03, cdr)) ;
  do record <- findNdefRecordWithId (snd r) ndef ;
  Ok (mkAC (fst r) record).

(** The loop of [parseAcRecords] over the records [acNdef[i]] that are
    left, pushing onto [h.ac]. *)
Fixpoint parseAcRecordsLoop (h_ac : list AlternativeCarrier)
    (ndef : list MozNdefRecord) (rest : list MozNdefRecord)
  : res (list AlternativeCarrier) :=
  match rest with
  | [] => Ok h_ac
  | record :: rest' =>
      if equalArrays (type record) rtd_alternative_carrier then
        do a <- parseAC (payload record) ndef ;
        parseAcRecordsLoop (h_ac ++ [a]) ndef rest'
      else Throw (Str "Can only parse AC record within Hs")
  end.

Definition parseAcRecords (h_ac : list AlternativeCarrier)
    (ndef acNdef : list MozNdefRecord) (offset : nat)
  : res (list AlternativeCarrier) :=
  parseAcRecordsLoop h_ac ndef (skipn offset acNdef).

Definition doParse (fuel : nat) (ndefMsg : list MozNdefRecord)
  : res Handover :=
  match nth_error ndefMsg 0 with
  | None => Throw TypeError               (* record.payload of undefined *)
  | Some record =>
      match getOctet (newBuffer (payload record)) with
      | OutOfFuel => OutOfFuel
      | Throw e => Throw e
      | Ok (version, buffer) =>
          let major := Z.shiftr (ToUint32 (octet_int version)) 4 in
          let minor := Z.land (octet_int version) 0x0f in
          do embedded <- NdefCodec.parse fuel buffer ;
          match embedded with
          | None =>
              Throw (Str "Could not parse embedded NDEF in Hr/Hs record")
          | Some embeddedNdef =>
              if negb (tnf record =? tnf_well_known) then
                Throw (Str "Expected Well Known TNF in Hr/Hs record")
              else if equalArrays (type record) rtd_handover_select then
                do acs <- parseAcRecords [] ndefMsg embeddedNdef 0 ;
                Ok (mkHandover "Hs" major minor None acs)
              else if equalArrays (type record) rtd_handover_request then
                match nth_error embeddedNdef 0 with
                | None => Throw TypeError
                | Some crr =>
                    if negb (equalArrays (type crr)
                               rtd_collision_resolution) then
                      Throw (Str "Expected Collision Resolution Record")
                    else if negb (len (payload crr) =? 2) then
                      Throw (Str
                        "Expected random number in Collision Resolution Record")
                    else
                      let cr :=
                        Z.lor
                          (ToInt32 (Z.shiftl
                             (octet_int (index (payload crr) 0)) 8))
                          (octet_int (index (payload crr) 1)) in
                      do acs <- parseAcRecords [] ndefMsg embeddedNdef 1 ;
                      Ok (mkHandover "Hr" major minor (Some cr) acs)
                end
              else Throw (Str "Can only handle Hr and Hs records for now")
          end
      end
  end.

(** [parse]: [null] is [None]. *)
Definition parse (fuel : nat) (ndefMsg : list MozNdefRecord)
  : res (option Handover) :=
  match doParse fuel ndefMsg with
  | Ok h => Ok (Some h)
  | Throw _ => Ok None
  | OutOfFuel => OutOfFuel
  end.

Fixpoint searchAC (acs : list AlternativeCarrier) : option MozNdefRecord :=
  match acs with
  | [] => None
  | a :: rest =>
      if (tnf (cdr a) =? tnf_mime_media)
         && String.eqb (toUTF8 (type (cdr a))) BluetoothMime
      then Some (cdr a)
      else searchAC rest
  end.

Definition searchForBluetoothAC (h : Handover) : option MozNdefRecord :=
  searchAC (ac h).

(** One turn of the loop that builds [mac], most significant octet last
    read. *)
Definition macOctet (mac : string) : M string :=
  let mac := if (0 <? String.length mac)%nat then String ":" mac else mac in
  o <- getOctet ;;
  match o with
  | None => throw TypeError                (* o.toString of undefined *)
  | Some b =>
      let mac :=
        (JSString.toUpperCase (JSString.toString16 (b2z b)) ++ mac)%string in
      ret (if b2z b <? 16 then String "0" mac else mac)
  end.

(** [case v:] of [switch (type)]. *)
Definition isCase (type : jsoctet) (v : Z) : bool :=
  match type with
  | Some b => b2z b =? v
  | None => false
  end.

(** One OOB value: [len], [type], then the name (cases 0x08 and 0x09) or
    the bytes skipped (default). *)
Definition oobValue (localName : option string) : M (option string) :=
  l <- getOctet ;;
  let len := num_add (octet_num l) (Some (-1)) in
  type <- getOctet ;;
  if isCase type 0x08 || isCase type 0x09 then
    n <- getOctetArray len ;;
    ret (Some (toUTF8 n))
  else
    skip len ;;;
    ret localName.

(** [while (buf.offset != cdr.payload.length)] *)
Fixpoint oobLoop (fuel : nat) (payloadLength : Z)
    (localName : option string) : M (option string) :=
  fun buf =>
    if negb (num_eq (offset buf) (Some payloadLength)) then
      match fuel with
      | O => OutOfFuel
      | S fuel' =>
          (n <- oobValue localName ;; oobLoop fuel' payloadLength n) buf
      end
    else Ok (localName, buf).

(** The loop ends within as many turns as the payload has bytes
    ([parseBluetoothSSP_returns] below). *)
Definition parseBluetoothSSP (cdr : MozNdefRecord) : res BluetoothSSP :=
  onBuffer (payload cdr)
    (lo <- getOctet ;;
     hi <- getOctet ;;
     let btsspLen :=
       Z.lor (octet_int lo) (ToInt32 (Z.shiftl (octet_int hi) 8)) in
     mac <- macOctet "" ;;
     mac <- macOctet mac ;;
     mac <- macOctet mac ;;
     mac <- macOctet mac ;;
     mac <- macOctet mac ;;
     mac <- macOctet mac ;;
     name <- oobLoop (List.length (payload cdr)) (len (payload cdr)) None ;;
     ret (mkSSP mac name)).

(** The six octets [m] pushed from [macVals[5]] down to [macVals[0]]. *)
Definition macOctets (macVals : list string) : list num :=
  map (fun i => JSString.parseInt16 (nth i macVals ""))
      [5; 4; 3; 2; 1; 0]%nat.

Definition m_ (m : list num) (i : nat) : num := nth i m None.

Definition encodeHandoverRequest (mac : string) (cps : Z) (rnd : Z)
  : option (list MozNdefRecord) :=
  let macVals := JSString.split mac in
  if negb (len macVals =? 6) then None
  else
    let m := macOctets macVals in
    let rndLSB := Z.land (ToInt32 rnd) 0xff in
    let rndMSB := Z.shiftr (ToUint32 rnd) 8 in
    Some
      [mkRecord 1
         (Uint8Array [72; 114])
         (Uint8Array [])
         (Uint8Array [18; 145; 2; 2; 99; 114;
                      rndMSB; rndLSB; 81; 2; 4; 97;
                      99; cps; 1; 98; 0]);
       mkRecord 2
         (Uint8Array [97; 112; 112; 108; 105; 99;
                      97; 116; 105; 111; 110; 47;
                      118; 110; 100; 46; 98; 108;
                      117; 101; 116; 111; 111; 116;
                      104; 46; 101; 112; 46; 111;
                      111; 98])
         (Uint8Array [98])
         (Uint8Array [8; 0; m_ m 0; m_ m 1; m_ m 2; m_ m 3;
                      m_ m 4; m_ m 5])].

Definition encodeHandoverSelect (mac : string) (cps : Z)
  : option (list MozNdefRecord) :=
  let macVals := JSString.split mac in
  if negb (len macVals =? 6) then None
  else
    let m := macOctets macVals in
    Some
      [mkRecord tnf_well_known
         rtd_handover_select
         (Uint8Array [])
         (Uint8Array [0x12; 0xD1; 0x02; 0x04; 0x61;
                      0x63; cps; 0x01; 0x30; 0x00]);
       mkRecord tnf_mime_media
         (Uint8Array [97; 112; 112; 108; 105; 99;
                      97; 116; 105; 111; 110; 47;
                      118; 110; 100; 46; 98; 108;
                      117; 101; 116; 111; 111; 116;
                      104; 46; 101; 112; 46; 111;
                      111; 98])
         (Uint8Array [0x30])
         (Uint8Array [8; 0; m_ m 0; m_ m 1; m_ m 2; m_ m 3;
                      m_ m 4; m_ m 5])].

End NdefHandoverCodec.

(** ** HandoverManager

    The manager is one mutable object; its methods are state transformers
    that also list, in order, the calls they make on the collaborators
    (settings, Bluetooth adapter, NFC peer, file transfer, window events).
    An exception that leaves a method keeps the state and the calls made
    up to the throw. *)

Definition Session := Z.
Definition Blob := Z.
Definition RequestId := Z.

(** The closures the manager hands to a collaborator, by where the source
    creates them. *)
Inductive Callback :=
| PairingSucceeded               (* handleHandoverSelect: debug only *)
| PairingFailed
| SendBlob                       (* doFileTransfer: onsuccess *)
| FailTransfer                   (* doFileTransfer: onerror *)
| HsSent (mac : string)          (* doHandoverRequest: req.onsuccess *)
| HsFailed                       (* doHandoverRequest: req.onerror *)
| HrSent                         (* initiateFileTransfer: req.onsuccess *)
| HrFailed.                      (* initiateFileTransfer: req.onerror *)

(** The closures kept in [sendFileRequest]: [dispatchSendFileStatus(s)]. *)
Inductive RequestCallback :=
| DispatchSendFileStatus (status : Z).

Record SendFileRequest := mkSendFileRequest {
  session : Session;
  blob : Blob;
  requestId : RequestId;
  onsuccess : RequestCallback;
  onerror : RequestCallback
}.

(** [{callback: f, args: [...]}] *)
Inductive Action :=
| call_doFileTransfer (mac : string)
| call_doPairing (mac : string) (onsuccess onerror : Callback)
| call_doHandoverRequest (ndef : list MozNdefRecord) (session : Session)
| call_initiateFileTransfer (session : Session) (blob : Blob)
    (requestId : RequestId).

Inductive Event :=
| SettingsSetBluetoothEnabled
| Pair (mac : string) (onsuccess onerror : option Callback)
| Unpair (mac : string)
| SendFile (mac : option string) (blob : Blob)
| GetNFCPeer (session : Session)
| SendNDEF (session : Session) (msg : option (list MozNdefRecord))
    (onsuccess onerror : Callback)
| DispatchEvent (status : Z) (requestId : RequestId) (sessionToken : Session).

Record Adapter := mkAdapter { address : string }.

(** [randomCalls] counts the calls of [Math.random] so far. *)
Record State := mkState {
  defaultAdapter : option Adapter;
  actionQueue : list Action;
  sendFileRequest : option SendFileRequest;
  remoteMAC : option string;
  settingsNotified : bool;
  randomCalls : nat
}.

(** What the manager reads from outside: [bluetooth.enabled], and the value
    of [Math.floor(Math.random() * 0xffff)] at each call. *)
Record Env := mkEnv { enabled : bool; random : nat -> Z }.

Inductive hres (A : Type) :=
| Done (a : A) (st : State) (evs : list Event)
| Raised (e : exn) (st : State) (evs : list Event)
| Unfinished.
Arguments Done {A} a st evs.
Arguments Raised {A} e st evs.
Arguments Unfinished {A}.

Definition H (A : Type) : Type := State -> hres A.

Definition hret {A} (a : A) : H A := fun st => Done a st [].
Definition hthrow {A} (e : exn) : H A := fun st => Raised e st [].
Definition hbind {A B} (m : H A) (k : A -> H B) : H B :=
  fun st =>
    match m st with
    | Done a st' evs =>
        match k a st' with
        | Done b st'' evs' => Done b st'' (evs ++ evs')
        | Raised e st'' evs' => Raised e st'' (evs ++ evs')
        | Unfinished => Unfinished
        end
    | Raised e st' evs => Raised e st' evs
    | Unfinished => Unfinished
    end.

Definition get : H State := fun st => Done st st [].
Definition modify (f : State -> State) : H unit := fun st => Done tt (f st) [].
Definition emit (ev : Event) : H unit := fun st => Done tt st [ev].
Definition lift {A} (r : res A) : H A :=
  fun st =>
    match r with
    | Ok a => Done a st []
    | Throw e => Raised e st []
    | OutOfFuel => Unfinished
    end.

Declare Scope manager_scope.
Notation "x <- m ;; k" := (hbind m (fun x => k))
  (at level 61, m at next level, right associativity) : manager_scope.
Notation "m ;;; k" := (hbind m (fun _ => k))
  (at level 61, right associativity) : manager_scope.

Definition set_actionQueue (q : list Action) (st : State) : State :=
  mkState (defaultAdapter st) q (sendFileRequest st) (remoteMAC st)
    (settingsNotified st) (randomCalls st).
Definition set_sendFileRequest (r : option SendFileRequest) (st : State)
  : State :=
  mkState (defaultAdapter st) (actionQueue st) r (remoteMAC st)
    (settingsNotified st) (randomCalls st).
Definition set_remoteMAC (m : option string) (st : State) : State :=
  mkState (defaultAdapter st) (actionQueue st) (sendFileRequest st) m
    (settingsNotified st) (randomCalls st).
Definition set_settingsNotified (b : bool) (st : State) : State :=
  mkState (defaultAdapter st) (actionQueue st) (sendFileRequest st)
    (remoteMAC st) b (randomCalls st).
Definition set_defaultAdapter (a : option Adapter) (st : State) : State :=
  mkState a (actionQueue st) (sendFileRequest st) (remoteMAC st)
    (settingsNotified st) (randomCalls st).
Definition set_randomCalls (n : nat) (st : State) : State :=
  mkState (defaultAdapter st) (actionQueue st) (sendFileRequest st)
    (remoteMAC st) (settingsNotified st) n.

(** [new HandoverManager()] *)
Definition initialState : State := mkState None [] None None false 0.

Module HandoverManager.
Local Open Scope manager_scope.

Definition getBluetoothMAC (fuel : nat) (ndef : list MozNdefRecord)
  : res (option string) :=
  do handover <- NdefHandoverCodec.parse fuel ndef ;
  match handover with
  | None => Ok None
  | Some handover =>
      match NdefHandoverCodec.searchForBluetoothAC handover with
      | None => Ok None
      | Some btsspRecord =>
          do btssp <- NdefHandoverCodec.parseBluetoothSSP btsspRecord ;
          Ok (Some (mac btssp))
      end
  end.

Definition doPairing (mac : string) (onsuccess onerror : option Callback)
  : H unit :=
  st <- get ;;
  match defaultAdapter st with
  | None => hret tt
  | Some _ => emit (Pair mac onsuccess onerror)
  end.

Definition doFileTransfer (mac : string) : H unit :=
  st <- get ;;
  match sendFileRequest st with
  | None => hret tt
  | Some _ =>
      modify (set_remoteMAC (Some mac)) ;;;
      doPairing mac (Some SendBlob) (Some FailTransfer)
  end.

Definition doHandoverRequest (env : Env) (fuel : nat)
    (ndef : list MozNdefRecord) (session : Session) : H unit :=
  mac <- lift (getBluetoothMAC fuel ndef) ;;
  match mac with
  | None => hret tt
  | Some mac =>
      modify (set_remoteMAC (Some mac)) ;;;
      emit (GetNFCPeer session) ;;;
      let carrierPowerState := if enabled env then 1 else 2 in
      st <- get ;;
      match defaultAdapter st with
      | None => hthrow TypeError     (* self.defaultAdapter.address *)
      | Some adapter =>
          let mymac := address adapter in
          let hs := NdefHandoverCodec.encodeHandoverSelect mymac
                      carrierPowerState in
          emit (SendNDEF session hs (HsSent mac) HsFailed)
      end
  end.

Definition initiateFileTransfer (env : Env) (session : Session)
    (blob : Blob) (requestId : RequestId) : H unit :=
  let onsuccess := DispatchSendFileStatus 0 in
  let onerror := DispatchSendFileStatus 1 in
  modify (set_sendFileRequest
            (Some (mkSendFileRequest session blob requestId
                     onsuccess onerror))) ;;;
  emit (GetNFCPeer session) ;;;
  let carrierPowerState := if enabled env then 1 else 2 in
  st <- get ;;
  let rnd := random env (randomCalls st) in
  modify (set_randomCalls (S (randomCalls st))) ;;;
  match defaultAdapter st with
  | None => hthrow TypeError         (* self.defaultAdapter.address *)
  | Some adapter =>
      let mac := address adapter in
      let hr := NdefHandoverCodec.encodeHandoverRequest mac
                  carrierPowerState rnd in
      emit (SendNDEF session hr HrSent HrFailed)
  end.

Definition dispatchSendFileStatus (status : Z) : H unit :=
  st <- get ;;
  match sendFileRequest st with
  | None => hthrow TypeError         (* self.sendFileRequest.requestId *)
  | Some r => emit (DispatchEvent status (requestId r) (session r))
  end.

Definition callRequestCallback (c : RequestCallback) : H unit :=
  match c with
  | DispatchSendFileStatus status => dispatchSendFileStatus status
  end.

(** A collaborator calls back one of the closures it was handed. *)
Definition callCallback (c : Callback) : H unit :=
  match c with
  | PairingSucceeded | PairingFailed | HrSent => hret tt
  | SendBlob =>
      st <- get ;;
      match sendFileRequest st with
      | None => hthrow TypeError     (* self.sendFileRequest.blob *)
      | Some r => emit (SendFile (remoteMAC st) (blob r))
      end
  | FailTransfer =>
      st <- get ;;
      match sendFileRequest st with
      | None => hthrow TypeError     (* self.sendFileRequest.onerror *)
      | Some r =>
          callRequestCallback (onerror r) ;;;
          modify (set_sendFileRequest None) ;;;
          modify (set_remoteMAC None)
      end
  | HsSent mac => doPairing mac None None
  | HsFailed => modify (set_remoteMAC None)
  | HrFailed =>
      dispatchSendFileStatus 1 ;;;
      modify (set_sendFileRequest None)
  end.

(** [action.callback.apply(null, action.args)] *)
Definition apply (env : Env) (fuel : nat) (action : Action) : H unit :=
  match action with
  | call_doFileTransfer mac => doFileTransfer mac
  | call_doPairing mac onsuccess onerror =>
      doPairing mac (Some onsuccess) (Some onerror)
  | call_doHandoverRequest ndef session =>
      doHandoverRequest env fuel ndef session
  | call_initiateFileTransfer session blob requestId =>
      initiateFileTransfer env session blob requestId
  end.

Definition doAction (env : Env) (fuel : nat) (action : Action) : H unit :=
  if negb (enabled env) then
    st <- get ;;
    modify (set_actionQueue (actionQueue st ++ [action])) ;;;
    if negb (settingsNotified st) then
      emit SettingsSetBluetoothEnabled ;;;
      modify (set_settingsNotified true)
    else hret tt
  else apply env fuel action.

(** [for (var i = 0; i < self.actionQueue.length; i++)]: the queue is
    read again at every turn; [turns] bounds the turns taken. *)
Fixpoint callQueued (env : Env) (fuel : nat) (turns : nat) (i : nat)
  : H unit :=
  fun st =>
    match nth_error (actionQueue st) i with
    | None => Done tt st []
    | Some action =>
        match turns with
        | O => Unfinished
        | S turns' =>
            (apply env fuel action ;;;
             callQueued env fuel turns' (S i)) st
        end
    end.

(** The 'adapteradded' listener, when [getDefaultAdapter()] succeeds with
    [result].  No action adds to the queue, so it is emptied within as
    many turns as it has entries ([callQueued_in_order] below). *)
Definition adapterAdded (env : Env) (fuel : nat) (result : Adapter)
  : H unit :=
  modify (set_settingsNotified false) ;;;
  modify (set_defaultAdapter (Some result)) ;;;
  st <- get ;;
  callQueued env fuel (List.length (actionQueue st)) 0 ;;;
  modify (set_actionQueue []).

Definition handleHandoverSelect (env : Env) (fuel : nat)
    (ndef : list MozNdefRecord) : H unit :=
  mac <- lift (getBluetoothMAC fuel ndef) ;;
  match mac with
  | None => hret tt
  | Some mac =>
      st <- get ;;
      match sendFileRequest st with
      | Some _ => doAction env fuel (call_doFileTransfer mac)
      | None =>
          doAction env fuel
            (call_doPairing mac PairingSucceeded PairingFailed)
      end
  end.

Definition handleHandoverRequest (env : Env) (fuel : nat)
    (ndef : list MozNdefRecord) (session : Session) : H unit :=
  doAction env fuel (call_doHandoverRequest ndef session).

Definition handleFileTransfer (env : Env) (fuel : nat)
    (session : Session) (blob : Blob) (requestId : RequestId) : H unit :=
  doAction env fuel (call_initiateFileTransfer session blob requestId).

Definition isHandoverInProgress (st : State) : bool :=
  match remoteMAC st with Some _ => true | None => false end.

Definition transferComplete (succeeded : bool) : H unit :=
  st <- get ;;
  (match defaultAdapter st, remoteMAC st with
   | Some _, Some remote =>
       emit (Unpair remote) ;;;
       modify (set_remoteMAC None)
   | _, _ => hret tt
   end) ;;;
  match sendFileRequest st with
  | None => hret tt
  | Some request =>
      (if succeeded then callRequestCallback (onsuccess request)
       else
         (* this.sendFIleRequest: a property the manager never has *)
         let sendFIleRequest : option SendFileRequest := None in
         match sendFIleRequest with
         | None => hthrow TypeError
         | Some r => callRequestCallback (onerror r)
         end) ;;;
      modify (set_sendFileRequest None)
  end.

End HandoverManager.

(** ** Vocabulary of the statements *)

(** A digit 0-9 or A-F. *)
Definition isUpperHex (c : ascii) : bool :=
  JSString.between "0" c "9" || JSString.between "A" c "F".

(** An address written as colon-separated groups of two characters. *)
Definition address_of (groups : list (ascii * ascii)) : string :=
  String.concat ":"
    (map (fun g => String (fst g) (String (snd g) EmptyString)) groups).

(** An octet as two uppercase hex digits, the high one first. *)
Definition upperHexDigit (d : Z) : ascii :=
  match String.get (Z.to_nat d) "0123456789ABCDEF" with
  | Some c => c
  | None => "0"%char
  end.

Definition hex2 (b : byte) : string :=
  String (upperHexDigit (b2z b / 16))
    (String (upperHexDigit (b2z b mod 16)) EmptyString).

(** Six octets, in the order they are transmitted, as an address: the
    last one transmitted is written first. *)
Definition address_of_octets (b0 b1 b2 b3 b4 b5 : byte) : string :=
  String.concat ":" [hex2 b5; hex2 b4; hex2 b3; hex2 b2; hex2 b1; hex2 b0].

Definition BluetoothMimeType : list byte :=
  NdefUtils.fromUTF8 "application/vnd.bluetooth.ep.oob".

(** A Handover Select whose Bluetooth carrier data record has the payload
    [oob]. *)
Definition selectWithOob (oob : list byte) : list MozNdefRecord :=
  [mkRecord 1 (NdefUtils.fromUTF8 "Hs") []
     (Uint8Array [0x12; 0xD1; 0x02; 0x04; 0x61; 0x63; 1; 0x01; 0x30; 0x00]);
   mkRecord 2 BluetoothMimeType (Uint8Array [0x30]) oob].

(** Its OOB data stops in the middle of the address. *)
Definition truncatedSelect : list MozNdefRecord :=
  selectWithOob (Uint8Array [8; 0; 1; 2; 3]).

Definition goodSelect : list MozNdefRecord :=
  selectWithOob (Uint8Array [8; 0; 0xFF; 0xEE; 0xDD; 0xCC; 0xBB; 0xAA]).

(** A Handover Select whose only carrier is not Bluetooth. *)
Definition wifiSelect : list MozNdefRecord :=
  [mkRecord 1 (NdefUtils.fromUTF8 "Hs") []
     (Uint8Array [0x12; 0xD1; 0x02; 0x04; 0x61; 0x63; 1; 0x01; 0x30; 0x00]);
   mkRecord 2 (NdefUtils.fromUTF8 "application/vnd.wfa.wsc")
     (Uint8Array [0x30]) (Uint8Array [0x10; 0x0E])].


(** A group of hex digits: not empty, every character a hex digit. *)
Definition isHexGroup (g : string) : bool :=
  negb (String.eqb g EmptyString)
  && forallb (fun c => match JSString.hexValue c with
                       | Some _ => true
                       | None => false
                       end)
       (list_ascii_of_string g).

(** The address parses into exactly 6 hex octet groups. *)
Definition sixHexGroups (mac : string) : bool :=
  (List.length (JSString.split mac) =? 6)%nat
  && forallb isHexGroup (JSString.split mac).

(** A reader that throws nothing but [e0]. *)
Definition throwsOnly {A} (e0 : exn) (m : M A) : Prop :=
  forall buf e, m buf = Throw e -> e = e0.

(** A reader that ends (with a value or a throw) whatever the buffer. *)
Definition returns {A} (m : M A) : Prop :=
  forall buf, m buf <> OutOfFuel.

(** The header-flag violations of a record, in the order they are checked:
    the first record lacks MB; a later record has MB; the record has CF. *)
Definition headerViolation (isFirstRecord : bool) (firstOctet : jsoctet)
  : option exn :=
  let has f := negb (Z.land (octet_int firstOctet) f =? 0) in
  if isFirstRecord && negb (has 128) then Some NdefCodec.MBNotSet
  else if negb isFirstRecord && has 128 then Some NdefCodec.MBNotFirst
  else if has 32 then Some NdefCodec.Chunked
  else None.

(** [headerRead buf first first' o]: the loop of [NdefCodec.doParse], at a
    record boundary in state [buf] with [isFirstRecord = first], goes on to
    read [o] as the header of a record, with [isFirstRecord = first'] then:
    of the record at hand, or of a later one once the records before it
    were read and none had ME. *)
Inductive headerRead : Buffer -> bool -> bool -> jsoctet -> Prop :=
| read_here buf first o buf' :
    getOctet buf = Ok (o, buf') ->
    headerRead buf first first o
| read_later buf first r buf' first' o :
    NdefCodec.doParseRecord first buf = Ok ((r, true), buf') ->
    headerRead buf' false first' o ->
    headerRead buf first first' o.

(** The actions called one after the other, each once, in list order; a
    throw ends the sequence. *)
Fixpoint applyAll (env : Env) (fuel : nat) (actions : list Action) : H unit :=
  match actions with
  | [] => hret tt
  | action :: rest =>
      hbind (HandoverManager.apply env fuel action)
        (fun _ => applyAll env fuel rest)
  end.

(** [doAction] on each action in turn. *)
Fixpoint doActions (env : Env) (fuel : nat) (actions : list Action) : H unit :=
  match actions with
  | [] => hret tt
  | action :: rest =>
      hbind (HandoverManager.doAction env fuel action)
        (fun _ => doActions env fuel rest)
  end.

(** A method that, when it returns, leaves [actionQueue] as it was. *)
Definition keepsQueue {A} (m : H A) : Prop :=
  forall st a st' evs, m st = Done a st' evs -> actionQueue st' = actionQueue st.

Definition adapter0 : Adapter := mkAdapter "11:22:33:44:55:66".

(** An NDEF message of two records, the second without SR and with the
    payload length 0xFFFFFFFA: as an Int32 that is -6, the size of the
    record's header, so reading its payload moves the cursor back to the
    record's first octet. *)
Definition loopingNdef : list byte :=
  Uint8Array [0x90; 0; 0; 0x00; 0; 0xFF; 0xFF; 0xFF; 0xFA].

(** The buffer holds [s] from its cursor on. *)
Definition at_suffix (buf : Buffer) (s : list byte) : Prop :=
  exists pre, uint8array buf = pre ++ s /\ offset buf = Some (len pre).

(** The layout of an NDEF record as [parseNdefRecord] reads it: the header
    octet (MB, ME, SR when the payload is shorter than 256 bytes, IL when
    the id is not empty, the TNF), the type length, the payload length (one
    octet, or four, most significant first), the id length when IL is set,
    then type, id and payload. *)
Definition be32 (n : Z) : list byte :=
  Uint8Array [n / 2 ^ 24; n / 2 ^ 16; n / 2 ^ 8; n].

Definition headerOctet (mb me sr il : bool) (t : Z) : byte :=
  ToUint8 (Some ((if mb then 128 else 0) + (if me then 64 else 0)
                 + (if sr then 16 else 0) + (if il then 8 else 0) + t)).

Definition isShort (r : MozNdefRecord) : bool := len (payload r) <? 256.
Definition hasId (r : MozNdefRecord) : bool := 0 <? len (id r).

Definition recordBytes (mb me : bool) (r : MozNdefRecord) : list byte :=
  [headerOctet mb me (isShort r) (hasId r) (tnf r);
   ToUint8 (Some (len (type r)))]
  ++ (if isShort r then [ToUint8 (Some (len (payload r)))]
      else be32 (len (payload r)))
  ++ (if hasId r then [ToUint8 (Some (len (id r)))] else [])
  ++ type r ++ id r ++ payload r.

(** The records of a message one after the other: MB on the first, ME on
    the last. *)
Fixpoint messageBytes (first : bool) (rs : list MozNdefRecord) : list byte :=
  match rs with
  | [] => []
  | [r] => recordBytes first true r
  | r :: rest => recordBytes first false r ++ messageBytes false rest
  end.

(** A record that the layout can hold. *)
Definition fitsLayout (r : MozNdefRecord) : Prop :=
  0 <= tnf r <= 7 /\ len (type r) < 256 /\ len (id r) < 256
  /\ len (payload r) < 2 ^ 31.

(** An OOB value as [parseBluetoothSSP] reads it: its length counting the
    type octet, the type, the value. *)
Definition oobBytes (e : byte * list byte) : list byte :=
  ToUint8 (Some (1 + len (snd e))) :: fst e :: snd e.

(** The local name that a sequence of OOB values leaves: the value of
    the last one of type 0x08 or 0x09. *)
Fixpoint lastLocalName (name : option string) (els : list (byte * list byte))
  : option string :=
  match els with
  | [] => name
  | e :: rest =>
      lastLocalName
        (if (b2z (fst e) =? 8) || (b2z (fst e) =? 9)
         then Some (NdefUtils.toUTF8 (snd e)) else name)
        rest
  end.

(** The address as both encoders write it and [parseBluetoothSSP] reads
    it back: each group through [parseInt(.., 16)] and a [Uint8Array],
    then as two uppercase hex digits. *)
Definition canonicalAddress (mac : string) : string :=
  String.concat ":"
    (map (fun g => hex2 (ToUint8 (JSString.parseInt16 g)))
       (JSString.split mac)).

(** The carrier is the Bluetooth one. *)
Definition isBluetooth (a : AlternativeCarrier) : Prop :=
  tnf (cdr a) = NdefConsts.tnf_mime_media /\ type (cdr a) = BluetoothMimeType.

(** A reader that, from a cursor within the buffer, throws or returns a
    value that satisfies [P] with the cursor [k] bytes or more further, and
    still within the buffer. *)
Definition advances {A} (m : M A) (k : Z) (P : A -> Prop) : Prop :=
  forall a i, 0 <= i <= len a ->
    match m (mkBuffer a (Some i)) with
    | Ok (v, buf') =>
        exists i', buf' = mkBuffer a (Some i') /\ i + k <= i' <= len a /\ P v
    | Throw _ => True
    | OutOfFuel => False
    end.

Definition bluetoothOff : Env := mkEnv false (fun _ => 0).
Definition bluetoothOn : Env := mkEnv true (fun _ => 0).

Example split_mac :
  JSString.split "AA:BB:CC:DD:EE:FF" = ["AA"; "BB"; "CC"; "DD"; "EE"; "FF"]%string.
Proof. reflexivity. Qed.

Example split_edges :
  JSString.split "" = [""]%string /\ JSString.split "a::" = ["a"; ""; ""]%string.
Proof. split; reflexivity. Qed.

Example parseInt16_values :
  JSString.parseInt16 "FF" = Some 255 /\ JSString.parseInt16 "0x1g" = Some 1 /\
  JSString.parseInt16 " -a" = Some (-10) /\ JSString.parseInt16 "ZZ" = None /\
  JSString.parseInt16 "" = None /\
  JSString.parseInt16 "20000000000001" = Some (2 ^ 53) /\
  JSString.parseInt16 "20000000000003" = Some (2 ^ 53 + 4).
Proof. repeat split; reflexivity. Qed.

Example toString16_values :
  JSString.toString16 0 = "0" /\ JSString.toString16 10 = "a" /\
  JSString.toString16 255 = "ff" /\ JSString.toString16 4096 = "1000".
Proof. repeat split; reflexivity. Qed.

Example ndef_parse_two_records :
  NdefCodec.parse 2 (newBuffer (Uint8Array [145; 2; 2; 99; 114; 1; 2;
                                             81; 2; 4; 97; 99; 1; 1; 48; 0]))
  = Ok (Some [mkRecord 1 (Uint8Array [99; 114]) [] (Uint8Array [1; 2]);
              mkRecord 1 (Uint8Array [97; 99]) [] (Uint8Array [1; 1; 48; 0])]).
Proof. reflexivity. Qed.

Example encode_then_parse_request :
  match NdefHandoverCodec.encodeHandoverRequest "AA:BB:CC:DD:EE:FF" 1 0x1234 with
  | Some msg =>
      match NdefHandoverCodec.parse 2 msg with
      | Ok (Some h) =>
          h_type h = "Hr" /\ cr h = Some 0x1234 /\
          option_map NdefHandoverCodec.parseBluetoothSSP
            (NdefHandoverCodec.searchForBluetoothAC h)
          = Some (Ok (mkSSP "AA:BB:CC:DD:EE:FF" None))
      | _ => False
      end
  | None => False
  end.
Proof. vm_compute. repeat split; reflexivity. Qed.

(** * Properties *)

(** ** Bytes and numbers *)

Lemma b2z_range (b : byte) : 0 <= b2z b < 256.
Proof.
  unfold b2z. pose proof (Byte.to_N_bounded b) as Hb. lia.
Qed.

Lemma b2z_ToUint8 (z : Z) : b2z (ToUint8 (Some z)) = z mod 256.
Proof.
  unfold ToUint8, b2z.
  pose proof (Z.mod_pos_bound z 256 ltac:(lia)) as Hr.
  destruct (Byte.of_N (Z.to_N (z mod 256))) as [b|] eqn:E.
  - apply Byte.to_of_N in E. rewrite E. lia.
  - apply Byte.of_N_None_iff in E. lia.
Qed.


Lemma equalElements_eq (a1 a2 : list byte) :
  List.length a1 = List.length a2 ->
  NdefUtils.equalElements a1 a2 = true <-> a1 = a2.
Proof.
  revert a2. induction a1 as [|x r1 IH]; intros [|y r2] Hl;
    simpl in *; try discriminate.
  - split; reflexivity.
  - destruct (Byte.eqb x y) eqn:E.
    + apply Byte.byte_dec_bl in E. subst y.
      rewrite IH by lia. split; congruence.
    + split; [discriminate|]. intros H. inversion H. subst y.
      rewrite (Byte.byte_dec_lb eq_refl) in E. discriminate.
Qed.

Lemma equalArrays_eq (a1 a2 : list byte) :
  NdefUtils.equalArrays a1 a2 = true <-> a1 = a2.
Proof.
  unfold NdefUtils.equalArrays, len.
  destruct (Z.of_nat (List.length a1) =? Z.of_nat (List.length a2)) eqn:E; simpl.
  - apply Z.eqb_eq in E. apply equalElements_eq. lia.
  - apply Z.eqb_neq in E. split; [discriminate|].
    intros ->. lia.
Qed.

Lemma toUTF8_eqb (a : list byte) (s : string) :
  String.eqb (NdefUtils.toUTF8 a) s = true <-> a = NdefUtils.fromUTF8 s.
Proof.
  unfold NdefUtils.toUTF8, NdefUtils.fromUTF8. rewrite String.eqb_eq. split.
  - intros <-. symmetry. apply list_byte_of_string_of_list_byte.
  - intros ->. apply string_of_list_byte_of_string.
Qed.

(** ** C1: a parse failure that is not caught *)

Lemma NdefCodec_parse_never_throws fuel buffer e :
  NdefCodec.parse fuel buffer <> Throw e.
Proof.
  unfold NdefCodec.parse.
  destruct (NdefCodec.doParse fuel buffer) as [[? ?]| |]; discriminate.
Qed.

Lemma NdefHandoverCodec_parse_never_throws fuel ndefMsg e :
  NdefHandoverCodec.parse fuel ndefMsg <> Throw e.
Proof.
  unfold NdefHandoverCodec.parse.
  destruct (NdefHandoverCodec.doParse fuel ndefMsg); discriminate.
Qed.

Lemma getBluetoothMAC_truncated fuel :
  HandoverManager.getBluetoothMAC (S fuel) truncatedSelect
  = Throw BufferTooSmall.
Proof. reflexivity. Qed.

(** C1 (the code does not do what the claim says).  The Handover Select
    [truncatedSelect] parses as a handover message and names a Bluetooth
    carrier, but its carrier data stops after three address octets.
    [getBluetoothMAC] calls [parseBluetoothSSP] outside any try/catch, so
    'Buffer too small' leaves [handleHandoverSelect]; and when Bluetooth is
    enabled it leaves [handleHandoverRequest] likewise.  Nothing is caught
    and turned into an absent result: the manager's method ends by the
    exception, in whatever state it was called. *)
Theorem C1_truncated_oob_escapes :
  forall (env : Env) (fuel : nat) (st : State),
    HandoverManager.handleHandoverSelect env (S fuel) truncatedSelect st
    = Raised BufferTooSmall st []
    /\ forall session,
        HandoverManager.handleHandoverRequest bluetoothOn (S fuel)
          truncatedSelect session st
        = Raised BufferTooSmall st [].
Proof.
  intros env fuel st. split.
  - unfold HandoverManager.handleHandoverSelect, hbind, lift.
    rewrite getBluetoothMAC_truncated. reflexivity.
  - intros session.
    unfold HandoverManager.handleHandoverRequest, HandoverManager.doAction.
    simpl. unfold HandoverManager.doHandoverRequest, hbind, lift.
    rewrite getBluetoothMAC_truncated. reflexivity.
Qed.

(** ** C2: transferComplete *)

(** C2 (the code does not do what the claim says).  With a send-file
    request pending, [transferComplete(false)] reads [onerror] off
    [this.sendFIleRequest], a property the manager never has: a TypeError
    leaves the method after the unpairing, the failure callback is not
    called (no event is dispatched) and the request stays pending. *)
Theorem C2_transferComplete_false_raises :
  forall adapter queue (request : SendFileRequest) remote notified calls,
    HandoverManager.transferComplete false
      (mkState adapter queue (Some request) remote notified calls)
    = Raised TypeError
        (mkState adapter queue (Some request)
           (match adapter with Some _ => None | None => remote end)
           notified calls)
        (match adapter, remote with
         | Some _, Some m => [Unpair m]
         | _, _ => []
         end).
Proof.
  intros [a|] queue request [m|] notified calls; reflexivity.
Qed.

(** With [true], a pending request and a remote address, the remote is
    unpaired, the success callback runs once (one event, of its status) and
    both fields are cleared; a call after that does nothing. *)
Theorem transferComplete_true_once :
  forall adapter queue remote notified calls session blob requestId status
         onerror,
    let request :=
      mkSendFileRequest session blob requestId
        (DispatchSendFileStatus status) onerror in
    let st' := mkState (Some adapter) queue None None notified calls in
    HandoverManager.transferComplete true
      (mkState (Some adapter) queue (Some request) (Some remote)
         notified calls)
    = Done tt st' [Unpair remote; DispatchEvent status requestId session]
    /\ forall succeeded,
        HandoverManager.transferComplete succeeded st' = Done tt st' [].
Proof.
  intros. split; [reflexivity|]. intros succeeded. reflexivity.
Qed.

(** ** C6: what the encoders reject *)

(** C6, counterexample.  "ZZ:ZZ:ZZ:ZZ:ZZ:ZZ" has six groups, none of them
    hex, and both encoders return a message for it: each group is
    [parseInt]ed to NaN and stored as the octet 0. *)
Lemma C6_non_hex_groups_are_encoded :
  sixHexGroups "ZZ:ZZ:ZZ:ZZ:ZZ:ZZ" = false
  /\ option_map (map payload)
       (NdefHandoverCodec.encodeHandoverRequest "ZZ:ZZ:ZZ:ZZ:ZZ:ZZ" 1 0)
     = Some [Uint8Array [18; 145; 2; 2; 99; 114; 0; 0; 81; 2; 4; 97; 99; 1;
                         1; 98; 0];
             Uint8Array [8; 0; 0; 0; 0; 0; 0; 0]]
  /\ option_map (map payload)
       (NdefHandoverCodec.encodeHandoverSelect "ZZ:ZZ:ZZ:ZZ:ZZ:ZZ" 1)
     = Some [Uint8Array [0x12; 0xD1; 0x02; 0x04; 0x61; 0x63; 1; 0x01; 0x30;
                         0x00];
             Uint8Array [8; 0; 0; 0; 0; 0; 0; 0]].
Proof. repeat split; reflexivity. Qed.

(** C6, as amended.  Each encoder returns no output exactly when splitting
    the address at the colons does not give 6 groups; what the groups
    hold is not checked. *)
Theorem C6_encoders_reject_by_group_count :
  forall (mac : string) (cps rnd : Z),
    (NdefHandoverCodec.encodeHandoverRequest mac cps rnd = None
     <-> List.length (JSString.split mac) <> 6%nat)
    /\ (NdefHandoverCodec.encodeHandoverSelect mac cps = None
        <-> List.length (JSString.split mac) <> 6%nat).
Proof.
  intros mac cps rnd.
  unfold NdefHandoverCodec.encodeHandoverRequest,
    NdefHandoverCodec.encodeHandoverSelect, len.
  destruct (Z.of_nat (List.length (JSString.split mac)) =? 6) eqn:E; simpl.
  - apply Z.eqb_eq in E. split; (split; [discriminate | lia]).
  - apply Z.eqb_neq in E. split; (split; [lia | reflexivity]).
Qed.

(** ** The address in the OOB data *)

Lemma render_octet (b : byte) (mac : string) :
  (if b2z b <? 16
   then String "0"
          (JSString.toUpperCase (JSString.toString16 (b2z b)) ++ mac)%string
   else (JSString.toUpperCase (JSString.toString16 (b2z b)) ++ mac)%string)
  = (hex2 b ++ mac)%string.
Proof. destruct b; reflexivity. Qed.

Lemma getOctet_at (a : list byte) (i : Z) (b : byte) :
  0 <= i -> nth_error a (Z.to_nat i) = Some b ->
  getOctet (mkBuffer a (Some i)) = Ok (Some b, mkBuffer a (Some (i + 1))).
Proof.
  intros Hi Hn. unfold getOctet, len. simpl.
  assert (Hlt : (Z.to_nat i < List.length a)%nat)
    by (apply nth_error_Some; congruence).
  destruct (i =? Z.of_nat (List.length a)) eqn:E;
    [apply Z.eqb_eq in E; lia|].
  destruct (i <? 0) eqn:E2; [apply Z.ltb_lt in E2; lia|].
  rewrite Hn. reflexivity.
Qed.

Lemma macOctet_at (a : list byte) (i : Z) (b : byte) (mac : string) :
  0 <= i -> nth_error a (Z.to_nat i) = Some b ->
  NdefHandoverCodec.macOctet mac (mkBuffer a (Some i))
  = Ok ((hex2 b ++ (if (0 <? String.length mac)%nat
                    then String ":" mac else mac))%string,
        mkBuffer a (Some (i + 1))).
Proof.
  intros Hi Hn. unfold NdefHandoverCodec.macOctet, bind.
  rewrite (getOctet_at a i b Hi Hn). unfold ret.
  rewrite render_octet. reflexivity.
Qed.

Lemma parseBluetoothSSP_address :
  forall t ty i (l0 l1 b0 b1 b2 b3 b4 b5 : byte),
    NdefHandoverCodec.parseBluetoothSSP
      (mkRecord t ty i [l0; l1; b0; b1; b2; b3; b4; b5])
    = Ok (mkSSP (address_of_octets b0 b1 b2 b3 b4 b5) None).
Proof.
  intros. unfold NdefHandoverCodec.parseBluetoothSSP, onBuffer, newBuffer.
  cbn [payload]. unfold bind at 1.
  rewrite (getOctet_at _ 0 l0) by (reflexivity || lia).
  unfold bind at 1.
  rewrite (getOctet_at _ (0 + 1) l1) by (reflexivity || lia).
  unfold bind at 1.
  rewrite (macOctet_at _ (0 + 1 + 1) b0) by (reflexivity || lia).
  unfold bind at 1.
  rewrite (macOctet_at _ (0 + 1 + 1 + 1) b1) by (reflexivity || lia).
  unfold bind at 1.
  rewrite (macOctet_at _ (0 + 1 + 1 + 1 + 1) b2) by (reflexivity || lia).
  unfold bind at 1.
  rewrite (macOctet_at _ (0 + 1 + 1 + 1 + 1 + 1) b3) by (reflexivity || lia).
  unfold bind at 1.
  rewrite (macOctet_at _ (0 + 1 + 1 + 1 + 1 + 1 + 1) b4)
    by (reflexivity || lia).
  unfold bind at 1.
  rewrite (macOctet_at _ (0 + 1 + 1 + 1 + 1 + 1 + 1 + 1) b5)
    by (reflexivity || lia).
  reflexivity.
Qed.

(** ** C4: the order of the address octets *)

(** C4.  Encoding "AA:BB:CC:DD:EE:FF", as a request or as a select, puts
    the octets FF, EE, DD, CC, BB, AA into the payload of the Bluetooth
    carrier record after the two length bytes 8, 0; and a carrier record
    with that payload is read back as "AA:BB:CC:DD:EE:FF".  In general the
    six octets after the length are rendered as two uppercase hex digits
    each, joined by colons, the last octet first. *)
Theorem C4_address_byte_order :
  (forall cps rnd, exists hr,
      NdefHandoverCodec.encodeHandoverRequest "AA:BB:CC:DD:EE:FF" cps rnd
      = Some [hr;
              mkRecord 2 BluetoothMimeType (Uint8Array [98])
                (Uint8Array [8; 0; 0xFF; 0xEE; 0xDD; 0xCC; 0xBB; 0xAA])])
  /\ (forall cps, exists hs,
      NdefHandoverCodec.encodeHandoverSelect "AA:BB:CC:DD:EE:FF" cps
      = Some [hs;
              mkRecord 2 BluetoothMimeType (Uint8Array [0x30])
                (Uint8Array [8; 0; 0xFF; 0xEE; 0xDD; 0xCC; 0xBB; 0xAA])])
  /\ (forall t ty i,
      NdefHandoverCodec.parseBluetoothSSP
        (mkRecord t ty i
           (Uint8Array [8; 0; 0xFF; 0xEE; 0xDD; 0xCC; 0xBB; 0xAA]))
      = Ok (mkSSP "AA:BB:CC:DD:EE:FF" None))
  /\ (forall t ty i (l0 l1 b0 b1 b2 b3 b4 b5 : byte),
      NdefHandoverCodec.parseBluetoothSSP
        (mkRecord t ty i [l0; l1; b0; b1; b2; b3; b4; b5])
      = Ok (mkSSP (String.concat ":"
                     [hex2 b5; hex2 b4; hex2 b3; hex2 b2; hex2 b1; hex2 b0])
                  None)).
Proof.
  split; [|split; [|split]].
  - intros cps rnd. eexists. reflexivity.
  - intros cps. eexists. reflexivity.
  - intros t ty i. reflexivity.
  - intros. apply parseBluetoothSSP_address.
Qed.

(** ** C9: a Select without a Bluetooth carrier *)

Lemma searchAC_none (acs : list AlternativeCarrier) :
  Forall (fun a => ~ (tnf (cdr a) = NdefConsts.tnf_mime_media
                      /\ type (cdr a) = BluetoothMimeType)) acs ->
  NdefHandoverCodec.searchAC acs = None.
Proof.
  induction 1 as [|a acs Ha _ IH]; simpl; [reflexivity|].
  destruct (tnf (cdr a) =? NdefConsts.tnf_mime_media) eqn:E1; simpl; [|exact IH].
  destruct (String.eqb (NdefUtils.toUTF8 (type (cdr a)))
              NdefHandoverCodec.BluetoothMime) eqn:E2; [|exact IH].
  exfalso. apply Ha. split.
  - apply Z.eqb_eq. exact E1.
  - apply toUTF8_eqb. exact E2.
Qed.

(** C9.  When the message parses and none of its alternative carriers has
    a carrier data record of mime-media type
    "application/vnd.bluetooth.ep.oob", [handleHandoverSelect] returns with
    the manager's state as it was (queue, pending request, remote address,
    settings flag) and without calling any collaborator. *)
Theorem C9_select_without_bluetooth_is_ignored :
  forall (env : Env) (fuel : nat) (ndef : list MozNdefRecord)
         (h : Handover) (st : State),
    NdefHandoverCodec.parse fuel ndef = Ok (Some h) ->
    Forall (fun a => ~ (tnf (cdr a) = NdefConsts.tnf_mime_media
                        /\ type (cdr a) = BluetoothMimeType)) (ac h) ->
    HandoverManager.handleHandoverSelect env fuel ndef st = Done tt st [].
Proof.
  intros env fuel ndef h st Hparse Hnone.
  unfold HandoverManager.handleHandoverSelect,
    HandoverManager.getBluetoothMAC, hbind, lift.
  rewrite Hparse. simpl.
  unfold NdefHandoverCodec.searchForBluetoothAC.
  rewrite (searchAC_none _ Hnone). reflexivity.
Qed.

Lemma C9_witness :
  HandoverManager.handleHandoverSelect bluetoothOff 1 wifiSelect initialState
  = Done tt initialState [].
Proof.
  apply (C9_select_without_bluetooth_is_ignored bluetoothOff 1 wifiSelect
           (mkHandover "Hs" 1 2 None
              [mkAC 1 (mkRecord 2
                         (NdefUtils.fromUTF8 "application/vnd.wfa.wsc")
                         (Uint8Array [0x30]) (Uint8Array [0x10; 0x0E]))])).
  - reflexivity.
  - constructor; [|constructor].
    intros [_ H]. discriminate H.
Defined.

(** ** An OOB value of length 0 *)



(** The whole carrier record is accepted: after the zero-length value the
    byte that was read as its type is read again, as the next length. *)
Example zero_length_oob_value_is_accepted :
  NdefHandoverCodec.parseBluetoothSSP
    (mkRecord 2 BluetoothMimeType []
       (Uint8Array [10; 0; 1; 2; 3; 4; 5; 6; 0; 1; 7]))
  = Ok (mkSSP "06:05:04:03:02:01" None).
Proof. reflexivity. Qed.

(** ** What the reader can throw *)

Lemma throwsOnly_ret {A} e0 (a : A) : throwsOnly e0 (ret a).
Proof. intros buf e H. discriminate H. Qed.

Lemma throwsOnly_bind {A B} e0 (m : M A) (k : A -> M B) :
  throwsOnly e0 m -> (forall a, throwsOnly e0 (k a)) ->
  throwsOnly e0 (bind m k).
Proof.
  intros Hm Hk buf e. unfold bind.
  destruct (m buf) as [[a buf']|e'|] eqn:E; intros H.
  - exact (Hk a buf' e H).
  - inversion H; subst. exact (Hm buf e E).
  - discriminate H.
Qed.

Lemma throwsOnly_getOctet : throwsOnly BufferTooSmall getOctet.
Proof.
  intros buf e. unfold getOctet.
  destruct (num_eq _ _); intros H; inversion H; reflexivity.
Qed.

Lemma throwsOnly_getOctetArray n :
  throwsOnly BufferTooSmall (getOctetArray n).
Proof.
  intros buf e. unfold getOctetArray.
  destruct (num_gt _ _); intros H; inversion H; reflexivity.
Qed.

Lemma throwsOnly_skip n : throwsOnly BufferTooSmall (skip n).
Proof.
  intros buf e. unfold skip.
  destruct (num_gt _ _); intros H; inversion H; reflexivity.
Qed.

Create HintDb throws.
#[local] Hint Resolve throwsOnly_ret throwsOnly_getOctet
  throwsOnly_getOctetArray throwsOnly_skip : throws.

Ltac throws_only :=
  repeat first
    [ apply throwsOnly_bind; [|intros ?]
    | match goal with
      | |- throwsOnly _ (if ?c then _ else _) => destruct c
      end
    | solve [auto with throws] ].

Lemma throwsOnly_parseNdefRecord firstOctet :
  throwsOnly BufferTooSmall (NdefCodec.parseNdefRecord firstOctet).
Proof.
  unfold NdefCodec.parseNdefRecord, NdefCodec.shiftOctet. throws_only.
Qed.

(** ** C8: the header flags of a record *)

Lemma doParseRecord_header first buf o buf' :
  getOctet buf = Ok (o, buf') ->
  NdefCodec.doParseRecord first buf
  = match headerViolation first o with
    | Some e => Throw e
    | None =>
        (r <- NdefCodec.parseNdefRecord o ;;
         ret (r, negb (NdefCodec.flag o NdefConsts.ME))) buf'
    end.
Proof.
  intros Hg. unfold NdefCodec.doParseRecord, bind at 1. rewrite Hg.
  unfold headerViolation, NdefCodec.flag.
  change NdefConsts.MB with 128. change NdefConsts.CF with 32.
  destruct (first && _); [reflexivity|].
  destruct (negb first && _); [reflexivity|].
  destruct (negb (_ =? 0)); reflexivity.
Qed.

Lemma doParseRecord_throws first buf e :
  NdefCodec.doParseRecord first buf = Throw e ->
  e = BufferTooSmall
  \/ exists o buf', getOctet buf = Ok (o, buf')
                    /\ headerViolation first o = Some e.
Proof.
  intros H. destruct (getOctet buf) as [[o buf']|e'|] eqn:Hg.
  - rewrite (doParseRecord_header first buf o buf' Hg) in H.
    destruct (headerViolation first o) as [e'|] eqn:Hv.
    + inversion H; subst. right. exists o, buf'. split; [reflexivity|exact Hv].
    + left. revert H. apply throwsOnly_bind.
      * apply throwsOnly_parseNdefRecord.
      * intros a. apply throwsOnly_ret.
  - left. unfold NdefCodec.doParseRecord, bind in H. rewrite Hg in H.
    inversion H; subst. exact (throwsOnly_getOctet buf e Hg).
  - unfold NdefCodec.doParseRecord, bind in H. rewrite Hg in H. discriminate.
Qed.

Lemma doParseLoop_violation buf first first' o e :
  headerRead buf first first' o ->
  headerViolation first' o = Some e ->
  exists n, forall fuel records, (n <= fuel)%nat ->
    NdefCodec.doParseLoop fuel first records buf = Throw e.
Proof.
  intros Hr Hv. induction Hr as [buf first o buf' Hg|buf first r buf' first' o Hrec _ IH].
  - exists 1%nat. intros [|fuel] records Hf; [lia|].
    cbn [NdefCodec.doParseLoop]. unfold bind at 1.
    rewrite (doParseRecord_header first buf o buf' Hg), Hv. reflexivity.
  - destruct (IH Hv) as [n Hn]. exists (S n).
    intros [|fuel] records Hf; [lia|].
    cbn [NdefCodec.doParseLoop]. unfold bind at 1. rewrite Hrec.
    cbn [fst snd]. apply Hn. lia.
Qed.

Lemma doParseLoop_throws fuel : forall first records buf e,
  NdefCodec.doParseLoop fuel first records buf = Throw e ->
  e = BufferTooSmall
  \/ exists first' o, headerRead buf first first' o
                      /\ headerViolation first' o = Some e.
Proof.
  induction fuel as [|fuel IH]; intros first records buf e H;
    [discriminate H|].
  cbn [NdefCodec.doParseLoop] in H. unfold bind at 1 in H.
  destruct (NdefCodec.doParseRecord first buf) as [[[r more] buf']|e'|] eqn:Hrec.
  - cbn [fst snd] in H. destruct more; [|discriminate H].
    destruct (IH _ _ _ _ H) as [->|(first' & o & Hr & Hv)]; [left; reflexivity|].
    right. exists first', o. split; [|exact Hv].
    eapply read_later; eassumption.
  - inversion H; subst.
    destruct (doParseRecord_throws _ _ _ Hrec) as [->|(o & buf' & Hg & Hv)];
      [left; reflexivity|].
    right. exists first, o. split; [|exact Hv].
    eapply read_here; eassumption.
  - discriminate H.
Qed.

(** C8.  [NdefCodec.parse] checks the header of each record it comes to,
    in this order: the first record must have MB, a later record must not,
    and no record may have CF ([headerViolation]).  A header that the loop
    reads and that breaks one of these makes [doParse] throw the error of
    the first check broken, and [parse] return null, as soon as the fuel
    covers the records before it.  Conversely [doParse] throws nothing
    else but 'Buffer too small': when it throws one of the three header
    errors, a header it read broke that check, so a buffer whose headers
    break none is not rejected for its header flags. *)
Theorem C8_header_flag_violations :
  forall (buffer : Buffer),
    (forall first o e,
        headerRead buffer true first o ->
        headerViolation first o = Some e ->
        exists n, forall fuel, (n <= fuel)%nat ->
          NdefCodec.doParse fuel buffer = Throw e
          /\ NdefCodec.parse fuel buffer = Ok None)
    /\ (forall fuel e,
        NdefCodec.doParse fuel buffer = Throw e ->
        e = BufferTooSmall
        \/ exists first o, headerRead buffer true first o
                           /\ headerViolation first o = Some e)
    /\ (forall first o,
        headerViolation first o
        = if first then
            if negb (NdefCodec.flag o NdefConsts.MB)
            then Some (Str "MB bit not set in first NDEF record")
            else if NdefCodec.flag o NdefConsts.CF
                 then Some (Str "Cannot deal with chunked records")
                 else None
          else
            if NdefCodec.flag o NdefConsts.MB
            then Some (Str "MB can only be set for the first record")
            else if NdefCodec.flag o NdefConsts.CF
                 then Some (Str "Cannot deal with chunked records")
                 else None).
Proof.
  intros buffer. split; [|split].
  - intros first o e Hr Hv.
    destruct (doParseLoop_violation _ _ _ _ _ Hr Hv) as [n Hn].
    exists n. intros fuel Hf.
    assert (H : NdefCodec.doParse fuel buffer = Throw e)
      by (apply Hn; exact Hf).
    split; [exact H|]. unfold NdefCodec.parse. rewrite H. reflexivity.
  - intros fuel e H. exact (doParseLoop_throws _ _ _ _ _ H).
  - intros first o. unfold headerViolation, NdefCodec.flag.
    change NdefConsts.MB with 128. change NdefConsts.CF with 32.
    destruct first; cbn [andb negb];
      destruct (negb (Z.land (octet_int o) 128 =? 0)); reflexivity.
Qed.

Lemma C8_witness :
  exists n, forall fuel, (n <= fuel)%nat ->
    NdefCodec.doParse fuel
      (newBuffer (Uint8Array [0x90; 0; 0; 0xD0; 0; 0]))
    = Throw NdefCodec.MBNotFirst
    /\ NdefCodec.parse fuel
         (newBuffer (Uint8Array [0x90; 0; 0; 0xD0; 0; 0]))
       = Ok None.
Proof.
  apply (proj1 (C8_header_flag_violations
                  (newBuffer (Uint8Array [0x90; 0; 0; 0xD0; 0; 0])))
           false (Some xd0) NdefCodec.MBNotFirst).
  - eapply read_later; [reflexivity|].
    eapply read_here. reflexivity.
  - reflexivity.
Defined.

(** ** C5: the records of the alternative-carrier region *)


Lemma returns_bind {A B} (m : M A) (k : A -> M B) :
  returns m -> (forall a, returns (k a)) -> returns (bind m k).
Proof.
  intros Hm Hk buf. unfold bind.
  destruct (m buf) as [[a buf']|e|] eqn:E.
  - apply Hk.
  - discriminate.
  - exfalso. exact (Hm buf E).
Qed.

Lemma returns_ret {A} (a : A) : returns (ret a).
Proof. intros buf. discriminate. Qed.

Lemma returns_getOctet : returns getOctet.
Proof. intros buf. unfold getOctet. destruct (num_eq _ _); discriminate. Qed.

Lemma returns_getOctetArray n : returns (getOctetArray n).
Proof.
  intros buf. unfold getOctetArray. destruct (num_gt _ _); discriminate.
Qed.

Lemma returns_skip n : returns (skip n).
Proof. intros buf. unfold skip. destruct (num_gt _ _); discriminate. Qed.

Lemma findNdefRecordWithId_returns id0 ndef :
  NdefHandoverCodec.findNdefRecordWithId id0 ndef <> OutOfFuel.
Proof.
  induction ndef as [|r ndef IH]; simpl; [discriminate|].
  destruct (NdefUtils.equalArrays id0 (id r)); [discriminate|exact IH].
Qed.

Lemma parseAC_returns ac ndef :
  NdefHandoverCodec.parseAC ac ndef <> OutOfFuel.
Proof.
  unfold NdefHandoverCodec.parseAC, rbind, onBuffer.
  match goal with
  | |- context [bind ?m ?k (newBuffer ac)] =>
      assert (Hr : returns (bind m k))
        by (repeat (apply returns_bind; [|intros ?]);
            auto using returns_getOctet, returns_getOctetArray, returns_ret);
      specialize (Hr (newBuffer ac));
      destruct (bind m k (newBuffer ac)) as [[[c cdr] buf']|e|]
  end.
  - cbn [fst snd].
    pose proof (findNdefRecordWithId_returns cdr ndef) as Hf.
    destruct (NdefHandoverCodec.findNdefRecordWithId cdr ndef);
      [discriminate|discriminate|contradiction].
  - discriminate.
  - contradiction.
Qed.





(** ** C3: a request read back *)

Lemma isUpperHex_cases (c : ascii) :
  isUpperHex c = true ->
  In c ["0"; "1"; "2"; "3"; "4"; "5"; "6"; "7"; "8"; "9";
        "A"; "B"; "C"; "D"; "E"; "F"]%char.
Proof.
  destruct c as [[] [] [] [] [] [] [] []]; intros H;
    try discriminate H; simpl; tauto.
Qed.

Lemma upperHex_not_colon (c : ascii) :
  isUpperHex c = true -> Ascii.eqb c ":" = false.
Proof.
  intros H. apply isUpperHex_cases in H. simpl in H.
  repeat (destruct H as [<-|H]; [reflexivity|]). contradiction.
Qed.

Lemma group_round_trip (c1 c2 : ascii) :
  isUpperHex c1 = true -> isUpperHex c2 = true ->
  hex2 (ToUint8 (JSString.parseInt16 (String c1 (String c2 EmptyString))))
  = String c1 (String c2 EmptyString).
Proof.
  intros H1 H2.
  apply isUpperHex_cases in H1. apply isUpperHex_cases in H2.
  simpl in H1, H2.
  repeat (destruct H1 as [<-|H1];
          [repeat (destruct H2 as [<-|H2]; [reflexivity|]); contradiction|]).
  contradiction.
Qed.

Lemma split_group (c1 c2 : ascii) (rest : string) :
  isUpperHex c1 = true -> isUpperHex c2 = true ->
  JSString.split (String c1 (String c2 (String ":" rest)))
  = String c1 (String c2 EmptyString) :: JSString.split rest.
Proof.
  intros H1 H2. cbn [JSString.split].
  rewrite (upperHex_not_colon c1 H1), (upperHex_not_colon c2 H2).
  reflexivity.
Qed.

Lemma split_last_group (c1 c2 : ascii) :
  isUpperHex c1 = true -> isUpperHex c2 = true ->
  JSString.split (String c1 (String c2 EmptyString))
  = [String c1 (String c2 EmptyString)].
Proof.
  intros H1 H2. cbn [JSString.split].
  rewrite (upperHex_not_colon c1 H1), (upperHex_not_colon c2 H2).
  reflexivity.
Qed.

Lemma land_shiftl8 (hi lo : Z) :
  0 <= lo < 256 -> Z.land (Z.shiftl hi 8) lo = 0.
Proof.
  intros Hlo. apply Z.bits_inj'. intros n Hn.
  rewrite Z.land_spec, Z.bits_0.
  destruct (Z.ltb_spec n 8).
  - rewrite Z.shiftl_spec_low by lia. reflexivity.
  - replace lo with (lo mod 2 ^ 8) by (apply Z.mod_small; lia).
    rewrite Z.mod_pow2_bits_high by lia. apply Bool.andb_false_r.
Qed.

(** The two bytes of the collision record give the number back. *)
Lemma collision_value (rnd : Z) :
  0 <= rnd < 65536 ->
  Z.lor
    (ToInt32 (Z.shiftl (b2z (ToUint8 (Some (Z.shiftr (ToUint32 rnd) 8)))) 8))
    (b2z (ToUint8 (Some (Z.land (ToInt32 rnd) 0xff))))
  = rnd.
Proof.
  intros Hr. rewrite !b2z_ToUint8.
  unfold ToUint32. rewrite (Z.mod_small rnd (2 ^ 32)) by lia.
  assert (H32 : ToInt32 rnd = rnd).
  { unfold ToInt32. rewrite Z.mod_small by lia. lia. }
  rewrite H32.
  change 0xff with (Z.ones 8). rewrite Z.land_ones by lia.
  rewrite Z.shiftr_div_pow2 by lia.
  rewrite Z.mod_mod by lia.
  change (2 ^ 8) with 256.
  assert (Hhi : 0 <= rnd / 256 < 256)
    by (split; [apply Z.div_pos; lia|apply Z.div_lt_upper_bound; lia]).
  assert (Hlo : 0 <= rnd mod 256 < 256) by (apply Z.mod_pos_bound; lia).
  rewrite (Z.mod_small (rnd / 256)) by lia.
  assert (Hs : Z.shiftl (rnd / 256) 8 = rnd / 256 * 256)
    by (rewrite Z.shiftl_mul_pow2 by lia; reflexivity).
  assert (H32' : ToInt32 (Z.shiftl (rnd / 256) 8) = Z.shiftl (rnd / 256) 8).
  { rewrite Hs. unfold ToInt32. rewrite Z.mod_small by lia. lia. }
  rewrite H32'.
  rewrite <- Z.lxor_lor by (apply land_shiftl8; exact Hlo).
  rewrite <- Z.add_nocarry_lxor by (apply land_shiftl8; exact Hlo).
  rewrite Hs. pose proof (Z.div_mod rnd 256 ltac:(lia)). lia.
Qed.

Lemma parse_request_template (fuel : nat)
    (msb lsb c m0 m1 m2 m3 m4 m5 : byte) :
  NdefHandoverCodec.doParse (S (S fuel))
    [mkRecord 1 (Uint8Array [72; 114]) (Uint8Array [])
       [x12; x91; x02; x02; x63; x72; msb; lsb; x51; x02; x04; x61; x63; c;
        x01; x62; x00];
     mkRecord 2 BluetoothMimeType (Uint8Array [98])
       [x08; x00; m0; m1; m2; m3; m4; m5]]
  = Ok (mkHandover "Hr" 1 2
          (Some (Z.lor (ToInt32 (Z.shiftl (b2z msb) 8)) (b2z lsb)))
          [mkAC (Z.land (b2z c) 3)
             (mkRecord 2 BluetoothMimeType (Uint8Array [98])
                [x08; x00; m0; m1; m2; m3; m4; m5])]).
Proof. reflexivity. Qed.

(** C3.  For an address of six colon-separated groups of two uppercase hex
    digits, any carrier power state and any collision value below 2^16,
    [encodeHandoverRequest] returns a message that [parse] reads as an 'Hr'
    with that collision value, in which [searchForBluetoothAC] finds a
    carrier whose OOB data [parseBluetoothSSP] reads as the same address. *)
Theorem C3_request_round_trip :
  forall (groups : list (ascii * ascii)) (cps rnd : Z) (fuel : nat),
    List.length groups = 6%nat ->
    Forall (fun g => isUpperHex (fst g) = true /\ isUpperHex (snd g) = true)
      groups ->
    0 <= rnd < 65536 ->
    exists msg h cdr,
      NdefHandoverCodec.encodeHandoverRequest (address_of groups) cps rnd
      = Some msg
      /\ NdefHandoverCodec.parse (2 + fuel) msg = Ok (Some h)
      /\ h_type h = "Hr"
      /\ cr h = Some rnd
      /\ NdefHandoverCodec.searchForBluetoothAC h = Some cdr
      /\ NdefHandoverCodec.parseBluetoothSSP cdr
         = Ok (mkSSP (address_of groups) None)
      /\ HandoverManager.getBluetoothMAC (2 + fuel) msg
         = Ok (Some (address_of groups)).
Proof.
  intros groups cps rnd fuel Hlen Hall Hrnd.
  destruct groups as [|[a1 a2] [|[b1 b2] [|[c1 c2] [|[d1 d2] [|[e1 e2]
    [|[f1 f2] [|]]]]]]]; try discriminate Hlen. clear Hlen.
  repeat match goal with
         | H : Forall _ (_ :: _) |- _ => inversion H; subst; clear H
         | H : Forall _ [] |- _ => clear H
         | H : _ /\ _ |- _ => destruct H
         end.
  cbn [fst snd] in *.
  set (ga := String a1 (String a2 EmptyString)).
  set (gb := String b1 (String b2 EmptyString)).
  set (gc := String c1 (String c2 EmptyString)).
  set (gd := String d1 (String d2 EmptyString)).
  set (ge := String e1 (String e2 EmptyString)).
  set (gf := String f1 (String f2 EmptyString)).
  assert (Haddr : address_of [(a1, a2); (b1, b2); (c1, c2); (d1, d2);
                              (e1, e2); (f1, f2)]
                  = String.concat ":" [ga; gb; gc; gd; ge; gf])
    by reflexivity.
  assert (Hsplit : JSString.split
                     (address_of [(a1, a2); (b1, b2); (c1, c2); (d1, d2);
                                  (e1, e2); (f1, f2)])
                   = [ga; gb; gc; gd; ge; gf]).
  { subst ga gb gc gd ge gf.
    cbn [address_of map fst snd String.concat String.append].
    rewrite !split_group by assumption.
    rewrite split_last_group by assumption. reflexivity. }
  set (addr := address_of _) in *.
  set (msb := ToUint8 (Some (Z.shiftr (ToUint32 rnd) 8))).
  set (lsb := ToUint8 (Some (Z.land (ToInt32 rnd) 0xff))).
  set (ma := ToUint8 (JSString.parseInt16 ga)).
  set (mb := ToUint8 (JSString.parseInt16 gb)).
  set (mc := ToUint8 (JSString.parseInt16 gc)).
  set (md := ToUint8 (JSString.parseInt16 gd)).
  set (me := ToUint8 (JSString.parseInt16 ge)).
  set (mf := ToUint8 (JSString.parseInt16 gf)).
  set (cdr := mkRecord 2 BluetoothMimeType (Uint8Array [98])
                [x08; x00; mf; me; md; mc; mb; ma]).
  assert (Hssp : NdefHandoverCodec.parseBluetoothSSP cdr
                 = Ok (mkSSP addr None)).
  { subst cdr. rewrite parseBluetoothSSP_address.
    unfold address_of_octets. subst ma mb mc md me mf ga gb gc gd ge gf.
    rewrite !group_round_trip by assumption. reflexivity. }
  assert (Hparse :
            NdefHandoverCodec.doParse (2 + fuel)
              [mkRecord 1 (Uint8Array [72; 114]) (Uint8Array [])
                 [x12; x91; x02; x02; x63; x72; msb; lsb; x51; x02; x04;
                  x61; x63; ToUint8 (Some cps); x01; x62; x00];
               cdr]
            = Ok (mkHandover "Hr" 1 2
                    (Some (Z.lor (ToInt32 (Z.shiftl (b2z msb) 8)) (b2z lsb)))
                    [mkAC (Z.land (b2z (ToUint8 (Some cps))) 3) cdr]))
    by apply parse_request_template.
  exists [mkRecord 1 (Uint8Array [72; 114]) (Uint8Array [])
            [x12; x91; x02; x02; x63; x72; msb; lsb; x51; x02; x04;
             x61; x63; ToUint8 (Some cps); x01; x62; x00];
          cdr].
  eexists. exists cdr.
  split.
  { unfold NdefHandoverCodec.encodeHandoverRequest. rewrite Hsplit.
    reflexivity. }
  split.
  { unfold NdefHandoverCodec.parse. rewrite Hparse. reflexivity. }
  split; [reflexivity|].
  split.
  { cbn [cr]. f_equal. subst msb lsb. apply collision_value. lia. }
  split; [reflexivity|].
  split; [exact Hssp|].
  unfold HandoverManager.getBluetoothMAC, NdefHandoverCodec.parse.
  rewrite Hparse. unfold rbind at 1.
  change (NdefHandoverCodec.searchForBluetoothAC _) with (Some cdr).
  cbv iota. rewrite Hssp. reflexivity.
Qed.

Lemma C3_witness :
  exists msg h cdr,
    NdefHandoverCodec.encodeHandoverRequest "01:23:45:AB:CD:EF" 2 0xBEEF
    = Some msg
    /\ NdefHandoverCodec.parse 2 msg = Ok (Some h)
    /\ h_type h = "Hr"
    /\ cr h = Some 0xBEEF
    /\ NdefHandoverCodec.searchForBluetoothAC h = Some cdr
    /\ NdefHandoverCodec.parseBluetoothSSP cdr
       = Ok (mkSSP "01:23:45:AB:CD:EF" None)
    /\ HandoverManager.getBluetoothMAC 2 msg = Ok (Some "01:23:45:AB:CD:EF").
Proof.
  apply (C3_request_round_trip
           [("0", "1"); ("2", "3"); ("4", "5"); ("A", "B"); ("C", "D");
            ("E", "F")]%char 2 0xBEEF 0).
  - reflexivity.
  - repeat constructor.
  - lia.
Defined.

(** ** parseBluetoothSSP ends *)

Lemma getOctet_steps (a : list byte) (i : Z) (o : jsoctet) (buf' : Buffer) :
  0 <= i <= len a ->
  getOctet (mkBuffer a (Some i)) = Ok (o, buf') ->
  buf' = mkBuffer a (Some (i + 1)) /\ i + 1 <= len a.
Proof.
  intros Hi. unfold getOctet. simpl.
  destruct (i =? len a) eqn:E; intros H; inversion H.
  apply Z.eqb_neq in E. split; [reflexivity|lia].
Qed.

Lemma macOctet_steps (a : list byte) (i : Z) (mac mac' : string)
    (buf' : Buffer) :
  0 <= i <= len a ->
  NdefHandoverCodec.macOctet mac (mkBuffer a (Some i)) = Ok (mac', buf') ->
  buf' = mkBuffer a (Some (i + 1)) /\ i + 1 <= len a.
Proof.
  intros Hi. unfold NdefHandoverCodec.macOctet, bind.
  destruct (getOctet (mkBuffer a (Some i))) as [[o b1]| |] eqn:Hg;
    try discriminate.
  destruct (getOctet_steps a i o b1 Hi Hg) as [-> Hle].
  destruct o; intros H; inversion H. split; [reflexivity|exact Hle].
Qed.

Lemma bind_returns_at {A B} (m : M A) (k : A -> M B) (a : list byte) (i : Z) :
  0 <= i <= len a ->
  returns m ->
  (forall v buf', m (mkBuffer a (Some i)) = Ok (v, buf') ->
                  buf' = mkBuffer a (Some (i + 1)) /\ i + 1 <= len a) ->
  (forall v, 0 <= i + 1 <= len a ->
             k v (mkBuffer a (Some (i + 1))) <> OutOfFuel) ->
  bind m k (mkBuffer a (Some i)) <> OutOfFuel.
Proof.
  intros Hi Hm Hok Hk. unfold bind.
  destruct (m (mkBuffer a (Some i))) as [[v b']| |] eqn:E.
  - destruct (Hok v b' eq_refl) as [-> Hle]. apply Hk. lia.
  - discriminate.
  - exfalso. exact (Hm _ E).
Qed.

Lemma returns_macOctet mac : returns (NdefHandoverCodec.macOctet mac).
Proof.
  unfold NdefHandoverCodec.macOctet. apply returns_bind.
  - apply returns_getOctet.
  - intros [b|]; [apply returns_ret|]. intros buf. discriminate.
Qed.

Lemma oobValue_advances (a : list byte) (i : Z) (name : option string) :
  0 <= i < len a ->
  (exists e, NdefHandoverCodec.oobValue name (mkBuffer a (Some i)) = Throw e)
  \/ exists name' i',
      NdefHandoverCodec.oobValue name (mkBuffer a (Some i))
      = Ok (name', mkBuffer a (Some i'))
      /\ i < i' <= len a.
Proof.
  intros Hi.
  destruct (nth_error a (Z.to_nat i)) as [l|] eqn:Hl.
  2:{ apply nth_error_None in Hl. unfold len in Hi. lia. }
  remember (NdefHandoverCodec.oobValue name (mkBuffer a (Some i))) as r eqn:Hr.
  unfold NdefHandoverCodec.oobValue, bind at 1 in Hr.
  rewrite (getOctet_at a i l ltac:(lia) Hl) in Hr. unfold bind at 1 in Hr.
  destruct (nth_error a (Z.to_nat (i + 1))) as [t|] eqn:Ht.
  2:{ left. exists BufferTooSmall. subst r. unfold getOctet. simpl.
      apply nth_error_None in Ht. unfold len in *.
      replace (i + 1 =? Z.of_nat (List.length a)) with true
        by (symmetry; apply Z.eqb_eq; lia).
      reflexivity. }
  rewrite (getOctet_at a (i + 1) t ltac:(lia) Ht) in Hr.
  assert (Hlen : i + 2 <= len a).
  { assert (Z.to_nat (i + 1) < List.length a)%nat
      by (apply nth_error_Some; congruence).
    unfold len. lia. }
  pose proof (b2z_range l) as Hb.
  cbn [octet_num option_map num_add] in Hr.
  destruct (NdefHandoverCodec.isCase (Some t) 8
            || NdefHandoverCodec.isCase (Some t) 9).
  - unfold bind, getOctetArray, ret in Hr. simpl in Hr.
    destruct (i + 1 + 1 + (b2z l + -1) >? len a) eqn:E.
    + left. eauto.
    + right. rewrite Z.gtb_ltb in E. apply Z.ltb_ge in E.
      eexists. exists (i + 1 + 1 + (b2z l + -1)). split; [exact Hr|].
      lia.
  - unfold bind, skip, ret in Hr. simpl in Hr.
    destruct (i + 1 + 1 + (b2z l + -1) >? len a) eqn:E.
    + left. eauto.
    + right. rewrite Z.gtb_ltb in E. apply Z.ltb_ge in E.
      eexists. exists (i + 1 + 1 + (b2z l + -1)). split; [exact Hr|].
      lia.
Qed.

Lemma oobLoop_returns (a : list byte) : forall fuel i name,
  0 <= i <= len a -> (Z.to_nat (len a - i) <= fuel)%nat ->
  NdefHandoverCodec.oobLoop fuel (len a) name (mkBuffer a (Some i))
  <> OutOfFuel.
Proof.
  induction fuel as [|fuel IH]; intros i name Hi Hf.
  - assert (i = len a) by lia. subst i.
    cbn. rewrite Z.eqb_refl. discriminate.
  - cbn [NdefHandoverCodec.oobLoop]. simpl offset. unfold num_eq.
    destruct (i =? len a) eqn:E; [discriminate|]. apply Z.eqb_neq in E.
    cbn [negb]. unfold bind at 1.
    destruct (oobValue_advances a i name ltac:(lia))
      as [[e He]|(name' & i' & Hv & Hi')].
    + rewrite He. discriminate.
    + rewrite Hv. apply IH; lia.
Qed.

(** [parseBluetoothSSP] returns or throws: the fuel it gives its loop is
    never used up. *)
Theorem parseBluetoothSSP_returns (cdr : MozNdefRecord) :
  NdefHandoverCodec.parseBluetoothSSP cdr <> OutOfFuel.
Proof.
  unfold NdefHandoverCodec.parseBluetoothSSP, onBuffer, newBuffer.
  set (a := payload cdr).
  match goal with
  | |- match ?m ?b with _ => _ end <> _ =>
      assert (Hm : m b <> OutOfFuel);
      [|destruct (m b) as [[v b']| |];
        [discriminate|discriminate|contradiction]]
  end.
  assert (H0 : 0 <= 0 <= len a) by (unfold len; lia).
  apply bind_returns_at;
    [exact H0|apply returns_getOctet
    |intros v b'; apply getOctet_steps; exact H0|intros lo H1].
  apply bind_returns_at;
    [exact H1|apply returns_getOctet
    |intros v b'; apply getOctet_steps; exact H1|intros hi H2].
  cbv zeta.
  apply bind_returns_at;
    [exact H2|apply returns_macOctet
    |intros v b'; apply macOctet_steps; exact H2|intros m1 H3].
  apply bind_returns_at;
    [exact H3|apply returns_macOctet
    |intros v b'; apply macOctet_steps; exact H3|intros m2 H4].
  apply bind_returns_at;
    [exact H4|apply returns_macOctet
    |intros v b'; apply macOctet_steps; exact H4|intros m3 H5].
  apply bind_returns_at;
    [exact H5|apply returns_macOctet
    |intros v b'; apply macOctet_steps; exact H5|intros m4 H6].
  apply bind_returns_at;
    [exact H6|apply returns_macOctet
    |intros v b'; apply macOctet_steps; exact H6|intros m5 H7].
  apply bind_returns_at;
    [exact H7|apply returns_macOctet
    |intros v b'; apply macOctet_steps; exact H7|intros m6 H8].
  unfold bind.
  match goal with
  | |- context [NdefHandoverCodec.oobLoop ?f ?n ?x ?b] =>
      pose proof (oobLoop_returns a f (0 + 1 + 1 + 1 + 1 + 1 + 1 + 1 + 1) x
                    H8 ltac:(unfold len in *; lia)) as Hloop;
      destruct (NdefHandoverCodec.oobLoop f n x b) as [[v b']| |];
        [discriminate|discriminate|contradiction]
  end.
Qed.

(** ** The action queue *)

Lemma keepsQueue_hret {A} (a : A) : keepsQueue (hret a).
Proof. intros st a' st' evs H. inversion H. reflexivity. Qed.

Lemma keepsQueue_hthrow {A} e : keepsQueue (@hthrow A e).
Proof. intros st a' st' evs H. discriminate H. Qed.

Lemma keepsQueue_get : keepsQueue get.
Proof. intros st a' st' evs H. inversion H. reflexivity. Qed.

Lemma keepsQueue_emit ev : keepsQueue (emit ev).
Proof. intros st a' st' evs H. inversion H. reflexivity. Qed.

Lemma keepsQueue_lift {A} (r : res A) : keepsQueue (lift r).
Proof.
  intros st a' st' evs H. unfold lift in H.
  destruct r; inversion H. reflexivity.
Qed.

Lemma keepsQueue_modify (f : State -> State) :
  (forall st, actionQueue (f st) = actionQueue st) -> keepsQueue (modify f).
Proof. intros Hf st a' st' evs H. inversion H. apply Hf. Qed.

Lemma keepsQueue_hbind {A B} (m : H A) (k : A -> H B) :
  keepsQueue m -> (forall a, keepsQueue (k a)) -> keepsQueue (hbind m k).
Proof.
  intros Hm Hk st b st' evs H. unfold hbind in H.
  destruct (m st) as [a st1 evs1| |] eqn:E1; try discriminate H.
  destruct (k a st1) as [b' st2 evs2| |] eqn:E2; try discriminate H.
  inversion H; subst.
  rewrite (Hk a st1 b st' evs2 E2). exact (Hm st a st1 evs1 E1).
Qed.

Ltac keeps_queue :=
  repeat first
    [ apply keepsQueue_hbind; [|intros ?]
    | apply keepsQueue_hret
    | apply keepsQueue_hthrow
    | apply keepsQueue_get
    | apply keepsQueue_emit
    | apply keepsQueue_lift
    | apply keepsQueue_modify; intros ?; reflexivity
    | match goal with
      | |- keepsQueue (match ?x with _ => _ end) => destruct x
      end ].

Lemma keepsQueue_apply env fuel action :
  keepsQueue (HandoverManager.apply env fuel action).
Proof.
  destruct action; cbn [HandoverManager.apply];
    unfold HandoverManager.doFileTransfer, HandoverManager.doPairing,
      HandoverManager.doHandoverRequest,
      HandoverManager.initiateFileTransfer;
    keeps_queue.
Qed.

Lemma skipn_nth_error {A} (l : list A) (i : nat) (a : A) :
  nth_error l i = Some a -> skipn i l = a :: skipn (S i) l.
Proof.
  revert i. induction l as [|x l IH]; intros [|i] H; simpl in *;
    try discriminate.
  - inversion H. reflexivity.
  - apply IH. exact H.
Qed.

(** The loop of the listener calls the actions from index [i] on in queue
    order, each once; the turns it is given are never used up. *)
Lemma callQueued_in_order env fuel : forall turns i st,
  (List.length (actionQueue st) <= turns + i)%nat ->
  HandoverManager.callQueued env fuel turns i st
  = applyAll env fuel (skipn i (actionQueue st)) st.
Proof.
  induction turns as [|turns IH]; intros i st Hle;
    cbn [HandoverManager.callQueued].
  - assert (Hn : nth_error (actionQueue st) i = None)
      by (apply nth_error_None; lia).
    rewrite Hn, skipn_all2 by lia. reflexivity.
  - destruct (nth_error (actionQueue st) i) as [action|] eqn:Hn.
    + rewrite (skipn_nth_error _ _ _ Hn). cbn [applyAll]. unfold hbind.
      destruct (HandoverManager.apply env fuel action st)
        as [u st' evs| |] eqn:E; try reflexivity.
      pose proof (keepsQueue_apply env fuel action st u st' evs E) as Hq.
      rewrite IH by (rewrite Hq; lia). rewrite Hq. reflexivity.
    + apply nth_error_None in Hn. rewrite skipn_all2 by lia. reflexivity.
Qed.

(** The listener: the flag is reset, the adapter kept, the queued actions
    are called in queue order, each once, and the queue is emptied; a
    throw of an action ends it there. *)
Theorem adapterAdded_in_order env fuel result st :
  HandoverManager.adapterAdded env fuel result st
  = hbind (modify (set_settingsNotified false)) (fun _ =>
    hbind (modify (set_defaultAdapter (Some result))) (fun _ =>
    hbind (applyAll env fuel (actionQueue st)) (fun _ =>
    modify (set_actionQueue [])))) st.
Proof.
  unfold HandoverManager.adapterAdded, hbind, modify, get.
  cbn [set_settingsNotified set_defaultAdapter actionQueue].
  rewrite callQueued_in_order by (simpl; lia).
  cbn [skipn set_settingsNotified set_defaultAdapter actionQueue].
  destruct (applyAll env fuel (actionQueue st) _); reflexivity.
Qed.

(** With Bluetooth disabled [doAction] only appends to the queue, and sets
    'bluetooth.enabled' through the settings unless the flag says it has. *)
Lemma doAction_disabled env fuel action st :
  enabled env = false ->
  HandoverManager.doAction env fuel action st
  = Done tt
      (mkState (defaultAdapter st) (actionQueue st ++ [action])
         (sendFileRequest st) (remoteMAC st) true (randomCalls st))
      (if settingsNotified st then [] else [SettingsSetBluetoothEnabled]).
Proof.
  intros He. unfold HandoverManager.doAction. rewrite He.
  destruct st as [a q r m n c]. destruct n; reflexivity.
Qed.

(** With Bluetooth enabled [doAction] calls the action and that is all. *)
Lemma doAction_enabled env fuel action st :
  enabled env = true ->
  HandoverManager.doAction env fuel action st
  = HandoverManager.apply env fuel action st.
Proof.
  intros He. unfold HandoverManager.doAction. rewrite He. reflexivity.
Qed.

(** Any number of actions submitted while Bluetooth is disabled end up in
    the queue in the order submitted, and the settings are set at most
    once. *)
Theorem doActions_disabled env fuel actions : forall st,
  enabled env = false ->
  actions <> [] ->
  doActions env fuel actions st
  = Done tt
      (mkState (defaultAdapter st) (actionQueue st ++ actions)
         (sendFileRequest st) (remoteMAC st) true (randomCalls st))
      (if settingsNotified st then [] else [SettingsSetBluetoothEnabled]).
Proof.
  induction actions as [|action rest IH]; intros st He Hne;
    [contradiction|].
  cbn [doActions]. unfold hbind.
  rewrite (doAction_disabled env fuel action st He).
  destruct rest as [|action' rest'].
  - cbn [doActions hret]. rewrite app_nil_r. reflexivity.
  - rewrite IH by (assumption || discriminate).
    cbn [defaultAdapter actionQueue sendFileRequest remoteMAC
           settingsNotified randomCalls].
    rewrite <- app_assoc, app_nil_r. reflexivity.
Qed.

Lemma doActions_disabled_witness :
  doActions bluetoothOff 1
    [call_doFileTransfer "AA:BB:CC:DD:EE:FF";
     call_initiateFileTransfer 1 2 3] initialState
  = Done tt
      (mkState None
         [call_doFileTransfer "AA:BB:CC:DD:EE:FF";
          call_initiateFileTransfer 1 2 3] None None true 0)
      [SettingsSetBluetoothEnabled].
Proof.
  apply (doActions_disabled bluetoothOff 1
           [call_doFileTransfer "AA:BB:CC:DD:EE:FF";
            call_initiateFileTransfer 1 2 3] initialState);
    [reflexivity|discriminate].
Defined.

(** ** C7: the queue and an action that throws *)

(** C7 (the code does not do what the claim says).  With Bluetooth
    disabled a Handover Request carrying [truncatedSelect] and then the
    Handover Select [goodSelect] are queued.  At 'adapteradded' the first
    action throws 'Buffer too small' (the throw of C1); the exception
    leaves the loop of the listener: the second action is not called (no
    pairing is asked for) and the queue is not emptied, so that a second
    'adapteradded' calls the first action again.  With [goodSelect] in
    both, the two actions are called in order and the queue is emptied. *)
Theorem C7_throwing_action_stops_the_queue :
  let queued :=
    [call_doHandoverRequest truncatedSelect 7;
     call_doPairing "AA:BB:CC:DD:EE:FF" PairingSucceeded PairingFailed] in
  let stuck := mkState (Some adapter0) queued None None false 0 in
  hbind (HandoverManager.handleHandoverRequest bluetoothOff 1
           truncatedSelect 7) (fun _ =>
  hbind (HandoverManager.handleHandoverSelect bluetoothOff 1 goodSelect)
    (fun _ =>
  HandoverManager.adapterAdded bluetoothOn 1 adapter0)) initialState
  = Raised BufferTooSmall stuck [SettingsSetBluetoothEnabled]
  /\ HandoverManager.adapterAdded bluetoothOn 1 adapter0 stuck
     = Raised BufferTooSmall stuck []
  /\ hbind (HandoverManager.handleHandoverRequest bluetoothOff 1
              goodSelect 7) (fun _ =>
     hbind (HandoverManager.handleHandoverSelect bluetoothOff 1 goodSelect)
       (fun _ =>
     HandoverManager.adapterAdded bluetoothOn 1 adapter0)) initialState
     = Done tt
         (mkState (Some adapter0) [] None (Some "AA:BB:CC:DD:EE:FF") false 0)
         [SettingsSetBluetoothEnabled;
          GetNFCPeer 7;
          SendNDEF 7
            (NdefHandoverCodec.encodeHandoverSelect "11:22:33:44:55:66" 1)
            (HsSent "AA:BB:CC:DD:EE:FF") HsFailed;
          Pair "AA:BB:CC:DD:EE:FF" (Some PairingSucceeded)
            (Some PairingFailed)].
Proof. cbv zeta. split; [|split]; vm_compute; reflexivity. Qed.

(** ** Fuel *)

(** More fuel does not change what [doParse] returns or throws. *)
Lemma doParseLoop_fuel_mono (extra : nat) :
  forall fuel first records buf,
    NdefCodec.doParseLoop fuel first records buf <> OutOfFuel ->
    NdefCodec.doParseLoop (fuel + extra) first records buf
    = NdefCodec.doParseLoop fuel first records buf.
Proof.
  induction fuel as [|fuel IH]; intros first records buf H;
    [exfalso; apply H; reflexivity|].
  cbn [Nat.add NdefCodec.doParseLoop] in *. unfold bind in *.
  destruct (NdefCodec.doParseRecord first buf) as [[[r more] buf']| |];
    try reflexivity.
  cbn [fst snd] in *. destruct more; [|reflexivity].
  apply IH. exact H.
Qed.

(** On [loopingNdef] the loop of [doParse] comes back to the header of the
    second record at every turn: no amount of fuel lets [parse] return. *)
Theorem doParse_loops_on_negative_length :
  forall fuel, NdefCodec.parse fuel (newBuffer loopingNdef) = OutOfFuel.
Proof.
  assert (Hloop : forall fuel records,
             NdefCodec.doParseLoop fuel false records
               (mkBuffer loopingNdef (Some 3)) = OutOfFuel).
  { induction fuel as [|fuel IH]; intros records; [reflexivity|].
    cbn [NdefCodec.doParseLoop]. unfold bind at 1.
    change (NdefCodec.doParseRecord false (mkBuffer loopingNdef (Some 3)))
      with (@Ok (MozNdefRecord * bool * Buffer)
              (mkRecord 0 [] [] [], true, mkBuffer loopingNdef (Some 3))).
    cbn [fst snd]. apply IH. }
  intros [|fuel]; [reflexivity|].
  unfold NdefCodec.parse, NdefCodec.doParse.
  cbn [NdefCodec.doParseLoop]. unfold bind at 1.
  change (NdefCodec.doParseRecord true (newBuffer loopingNdef))
    with (@Ok (MozNdefRecord * bool * Buffer)
            (mkRecord 0 [] [] [], true, mkBuffer loopingNdef (Some 3))).
  cbn [fst snd]. rewrite Hloop. reflexivity.
Qed.


(** * Further properties of the code *)

(** ** Buffer *)

Lemma len_app {A} (l1 l2 : list A) : len (l1 ++ l2) = len l1 + len l2.
Proof. unfold len. rewrite length_app. lia. Qed.

Lemma len_nonneg {A} (l : list A) : 0 <= len l.
Proof. unfold len. lia. Qed.

Lemma to_nat_len {A} (l : list A) : Z.to_nat (len l) = List.length l.
Proof. unfold len. lia. Qed.

Lemma subarray_slice (a : list byte) (i n : Z) :
  0 <= i -> 0 <= n -> i + n <= len a ->
  subarray a (Some i) (Some (i + n))
  = firstn (Z.to_nat n) (skipn (Z.to_nat i) a).
Proof.
  intros Hi Hn Hle. unfold subarray, rel_index.
  destruct (Z.ltb_spec i 0); [lia|].
  destruct (Z.ltb_spec (i + n) 0); [lia|].
  rewrite !Z.min_l by lia. do 2 f_equal. lia.
Qed.

Lemma getOctetArray_in_bounds (a : list byte) (i n : Z) :
  0 <= i -> 0 <= n -> i + n <= len a ->
  getOctetArray (Some n) (mkBuffer a (Some i))
  = Ok (firstn (Z.to_nat n) (skipn (Z.to_nat i) a), mkBuffer a (Some (i + n))).
Proof.
  intros Hi Hn Hle. unfold getOctetArray.
  cbn [offset uint8array num_add num_gt].
  destruct (Z.gtb_spec (i + n) (len a)); [exfalso; lia|].
  rewrite subarray_slice by lia. reflexivity.
Qed.

(** [getOctetArray(n)] and [skip(n)] within the buffer, for a length that
    is not negative: the array returned holds exactly the [n] bytes under
    the cursor and the cursor moves past them; one byte more than the
    buffer has left throws 'Buffer too small'; and [getOctet] does the
    same for one byte. *)
Theorem Buffer_reads :
  forall (a : list byte) (i n : Z),
    0 <= i <= len a -> 0 <= n ->
    (i + n <= len a ->
     getOctetArray (Some n) (mkBuffer a (Some i))
     = Ok (firstn (Z.to_nat n) (skipn (Z.to_nat i) a),
           mkBuffer a (Some (i + n)))
     /\ len (firstn (Z.to_nat n) (skipn (Z.to_nat i) a)) = n
     /\ skip (Some n) (mkBuffer a (Some i))
        = Ok (tt, mkBuffer a (Some (i + n))))
    /\ (len a < i + n ->
        getOctetArray (Some n) (mkBuffer a (Some i)) = Throw BufferTooSmall
        /\ skip (Some n) (mkBuffer a (Some i)) = Throw BufferTooSmall)
    /\ (i < len a ->
        exists b, nth_error a (Z.to_nat i) = Some b
                  /\ getOctet (mkBuffer a (Some i))
                     = Ok (Some b, mkBuffer a (Some (i + 1))))
    /\ (i = len a -> getOctet (mkBuffer a (Some i)) = Throw BufferTooSmall).
Proof.
  intros a i n Hi Hn. split; [|split; [|split]].
  - intros Hle. unfold getOctetArray, skip. cbn [offset uint8array num_add num_gt].
    destruct (Z.gtb_spec (i + n) (len a)); [lia|].
    rewrite subarray_slice by lia. split; [reflexivity|]. split; [|reflexivity].
    unfold len in *. rewrite length_firstn, length_skipn. lia.
  - intros Hgt. unfold getOctetArray, skip. cbn [offset uint8array num_add num_gt].
    destruct (Z.gtb_spec (i + n) (len a)); [|lia]. split; reflexivity.
  - intros Hlt. destruct (nth_error a (Z.to_nat i)) as [b|] eqn:E.
    + exists b. split; [reflexivity|]. apply getOctet_at; [lia|exact E].
    + apply nth_error_None in E. unfold len in *. lia.
  - intros ->. unfold getOctet. cbn [offset uint8array num_eq].
    rewrite Z.eqb_refl. reflexivity.
Qed.

Lemma Buffer_reads_witness :
  getOctetArray (Some 2) (mkBuffer (Uint8Array [1; 2; 3; 4]) (Some 1))
  = Ok (Uint8Array [2; 3], mkBuffer (Uint8Array [1; 2; 3; 4]) (Some 3)).
Proof.
  apply (proj1 (proj1 (Buffer_reads (Uint8Array [1; 2; 3; 4]) 1 2
                         ltac:(unfold len; simpl; lia) ltac:(lia))
                  ltac:(unfold len; simpl; lia))).
Defined.

Lemma at_suffix_getOctet (buf : Buffer) (x : byte) (s : list byte) :
  at_suffix buf (x :: s) ->
  exists buf', getOctet buf = Ok (Some x, buf') /\ at_suffix buf' s.
Proof.
  destruct buf as [a o]. intros (pre & Ha & Ho). cbn in Ha, Ho. subst a o.
  exists (mkBuffer (pre ++ x :: s) (Some (len pre + 1))). split.
  - apply getOctet_at; [apply len_nonneg|].
    rewrite to_nat_len, nth_error_app2, Nat.sub_diag by lia. reflexivity.
  - exists (pre ++ [x]). cbn. rewrite <- app_assoc, len_app. split; reflexivity.
Qed.

Lemma at_suffix_getOctetArray (buf : Buffer) (xs s : list byte) :
  at_suffix buf (xs ++ s) ->
  exists buf', getOctetArray (Some (len xs)) buf = Ok (xs, buf')
               /\ at_suffix buf' s.
Proof.
  destruct buf as [a o]. intros (pre & Ha & Ho). cbn in Ha, Ho. subst a o.
  exists (mkBuffer (pre ++ xs ++ s) (Some (len pre + len xs))). split.
  - pose proof (len_nonneg pre). pose proof (len_nonneg xs).
    pose proof (len_nonneg s).
    rewrite getOctetArray_in_bounds by (rewrite ?len_app; lia).
    rewrite !to_nat_len.
    rewrite skipn_app, skipn_all, Nat.sub_diag. cbn [skipn app].
    rewrite firstn_app, firstn_all, Nat.sub_diag. cbn [firstn].
    rewrite app_nil_r. reflexivity.
  - exists (pre ++ xs). cbn. rewrite <- app_assoc, len_app. split; reflexivity.
Qed.

Lemma at_suffix_skip (buf : Buffer) (xs s : list byte) :
  at_suffix buf (xs ++ s) ->
  exists buf', skip (Some (len xs)) buf = Ok (tt, buf') /\ at_suffix buf' s.
Proof.
  intros H. destruct (at_suffix_getOctetArray buf xs s H) as (buf' & Hg & Hs).
  exists buf'. split; [|exact Hs].
  unfold getOctetArray in Hg. unfold skip.
  destruct (num_gt _ _); [discriminate Hg|]. inversion Hg. reflexivity.
Qed.

Lemma at_suffix_end (buf : Buffer) :
  at_suffix buf [] -> offset buf = Some (len (uint8array buf)).
Proof.
  intros (pre & Ha & Ho). rewrite Ho, Ha, app_nil_r. reflexivity.
Qed.

Lemma at_suffix_not_end (buf : Buffer) (x : byte) (s : list byte) :
  at_suffix buf (x :: s) ->
  num_eq (offset buf) (Some (len (uint8array buf))) = false.
Proof.
  intros (pre & Ha & Ho). rewrite Ho, Ha, len_app. cbn [num_eq].
  apply Z.eqb_neq. unfold len. cbn [List.length]. lia.
Qed.

Lemma at_suffix_newBuffer (a : list byte) : at_suffix (newBuffer a) a.
Proof. exists []. split; reflexivity. Qed.

(** ** NdefCodec: the layout of a record *)

Lemma headerOctet_flags (mb me sr il : bool) (t : Z) :
  0 <= t <= 7 ->
  let o := Some (headerOctet mb me sr il t) in
  NdefCodec.flag o NdefConsts.MB = mb
  /\ NdefCodec.flag o NdefConsts.ME = me
  /\ NdefCodec.flag o NdefConsts.CF = false
  /\ NdefCodec.flag o NdefConsts.SR = sr
  /\ NdefCodec.flag o NdefConsts.IL = il
  /\ Z.land (octet_int o) NdefConsts.TNF = t.
Proof.
  intros Ht.
  assert (Hc : t = 0 \/ t = 1 \/ t = 2 \/ t = 3 \/ t = 4 \/ t = 5 \/ t = 6
               \/ t = 7) by lia.
  destruct mb, me, sr, il;
    repeat (destruct Hc as [->|Hc]; [vm_compute; repeat split; reflexivity|]);
    subst t; vm_compute; repeat split; reflexivity.
Qed.

Lemma octet_num_u8 (n : Z) :
  0 <= n < 256 -> octet_num (Some (ToUint8 (Some n))) = Some n.
Proof.
  intros Hn. cbn [octet_num option_map]. rewrite b2z_ToUint8.
  rewrite Z.mod_small by lia. reflexivity.
Qed.

Lemma octet_int_u8 (n : Z) : octet_int (Some (ToUint8 (Some n))) = n mod 256.
Proof. cbn [octet_int]. apply b2z_ToUint8. Qed.

(** One turn of the accumulation of a payload length. *)
Lemma shift_step (p b : Z) :
  0 <= p < 2 ^ 23 -> 0 <= b < 256 ->
  Z.lor (ToInt32 (Z.shiftl (ToInt32 p) 8)) b = p * 256 + b.
Proof.
  intros Hp Hb.
  assert (H1 : ToInt32 p = p) by (unfold ToInt32; rewrite Z.mod_small; lia).
  rewrite H1.
  assert (Hs : Z.shiftl p 8 = p * 256)
    by (rewrite Z.shiftl_mul_pow2 by lia; reflexivity).
  assert (H2 : ToInt32 (Z.shiftl p 8) = Z.shiftl p 8)
    by (rewrite Hs; unfold ToInt32; rewrite Z.mod_small; lia).
  rewrite H2.
  rewrite <- Z.lxor_lor by (apply land_shiftl8; exact Hb).
  rewrite <- Z.add_nocarry_lxor by (apply land_shiftl8; exact Hb).
  rewrite Hs. reflexivity.
Qed.

Lemma be32_value (n : Z) :
  0 <= n < 2 ^ 31 ->
  let b3 := (n / 2 ^ 24) mod 256 in
  let b2 := (n / 2 ^ 16) mod 256 in
  let b1 := (n / 2 ^ 8) mod 256 in
  let b0 := n mod 256 in
  Z.lor (ToInt32 (Z.shiftl (ToInt32
    (Z.lor (ToInt32 (Z.shiftl (ToInt32
      (Z.lor (ToInt32 (Z.shiftl (ToInt32 b3) 8)) b2)) 8)) b1)) 8)) b0 = n.
Proof.
  intros Hn b3 b2 b1 b0.
  assert (H24 : 0 <= n / 2 ^ 24 < 128)
    by (split; [apply Z.div_pos; lia|apply Z.div_lt_upper_bound; lia]).
  assert (H16 : 0 <= n / 2 ^ 16 < 2 ^ 15)
    by (split; [apply Z.div_pos; lia|apply Z.div_lt_upper_bound; lia]).
  assert (H8 : 0 <= n / 2 ^ 8 < 2 ^ 23)
    by (split; [apply Z.div_pos; lia|apply Z.div_lt_upper_bound; lia]).
  assert (E3 : b3 = n / 2 ^ 24) by (apply Z.mod_small; lia).
  assert (E2 : n / 2 ^ 16 = n / 2 ^ 24 * 256 + b2).
  { subst b2. replace (n / 2 ^ 24) with (n / 2 ^ 16 / 256)
      by (rewrite Z.div_div by lia; reflexivity).
    pose proof (Z.div_mod (n / 2 ^ 16) 256 ltac:(lia)). lia. }
  assert (E1 : n / 2 ^ 8 = n / 2 ^ 16 * 256 + b1).
  { subst b1. replace (n / 2 ^ 16) with (n / 2 ^ 8 / 256)
      by (rewrite Z.div_div by lia; reflexivity).
    pose proof (Z.div_mod (n / 2 ^ 8) 256 ltac:(lia)). lia. }
  assert (E0 : n = n / 2 ^ 8 * 256 + b0).
  { subst b0. change (2 ^ 8) with 256.
    pose proof (Z.div_mod n 256 ltac:(lia)). lia. }
  assert (R2 : 0 <= b2 < 256) by (apply Z.mod_pos_bound; lia).
  assert (R1 : 0 <= b1 < 256) by (apply Z.mod_pos_bound; lia).
  assert (R0 : 0 <= b0 < 256) by (apply Z.mod_pos_bound; lia).
  rewrite E3.
  rewrite (shift_step (n / 2 ^ 24) b2) by lia. rewrite <- E2.
  rewrite (shift_step (n / 2 ^ 16) b1) by lia. rewrite <- E1.
  rewrite (shift_step (n / 2 ^ 8) b0) by lia. rewrite <- E0. reflexivity.
Qed.

Lemma at_suffix_shiftOctet (buf : Buffer) (p : Z) (x : byte) (s : list byte) :
  at_suffix buf (x :: s) ->
  exists buf',
    NdefCodec.shiftOctet p buf
    = Ok (Z.lor (ToInt32 (Z.shiftl (ToInt32 p) 8)) (b2z x), buf')
    /\ at_suffix buf' s.
Proof.
  intros H. destruct (at_suffix_getOctet buf x s H) as (buf' & Hg & Hs).
  exists buf'. split; [|exact Hs].
  unfold NdefCodec.shiftOctet, bind. rewrite Hg. reflexivity.
Qed.

Lemma len_zero_nil {A} (l : list A) : len l <= 0 -> l = [].
Proof. destruct l; [reflexivity|]. unfold len. cbn [List.length]. lia. Qed.

(** A record laid out after its header octet is read back as it is. *)
Lemma parseNdefRecord_layout (mb me : bool) (r : MozNdefRecord)
    (buf : Buffer) (s : list byte) :
  fitsLayout r ->
  at_suffix buf (tl (recordBytes mb me r) ++ s) ->
  exists buf',
    NdefCodec.parseNdefRecord
      (Some (headerOctet mb me (isShort r) (hasId r) (tnf r))) buf
    = Ok (r, buf')
    /\ at_suffix buf' s.
Proof.
  intros (Ht & Hty & Hid & Hpl) Hat.
  unfold recordBytes in Hat. cbn [app tl] in Hat.
  destruct (headerOctet_flags mb me (isShort r) (hasId r) (tnf r) Ht)
    as (_ & _ & _ & Hsr & Hil & Htnf).
  pose proof (len_nonneg (type r)) as Nt.
  pose proof (len_nonneg (id r)) as Ni.
  pose proof (len_nonneg (payload r)) as Np.
  unfold NdefCodec.parseNdefRecord. rewrite Htnf, Hsr, Hil.
  destruct (at_suffix_getOctet _ _ _ Hat) as (b1 & G1 & S1).
  unfold bind at 1. rewrite G1. clear Hat G1.
  assert (Hlen : exists b2,
             at_suffix b2
               ((if hasId r then [ToUint8 (Some (len (id r)))] else [])
                ++ type r ++ id r ++ payload r ++ s)
             /\ forall B (k : num -> M B),
                 (payloadLen <- getOctet ;;
                  payloadLen <-
                    (if negb (isShort r) then
                       p <- NdefCodec.shiftOctet (octet_int payloadLen) ;;
                       p <- NdefCodec.shiftOctet p ;;
                       p <- NdefCodec.shiftOctet p ;;
                       ret (Some p)
                     else ret (octet_num payloadLen)) ;;
                  k payloadLen) b1
                 = k (Some (len (payload r))) b2).
  { unfold isShort in *. destruct (Z.ltb_spec (len (payload r)) 256).
    - cbn [app negb] in S1 |- *.
      destruct (at_suffix_getOctet _ _ _ S1) as (b2 & G2 & S2).
      exists b2. split; [repeat rewrite <- app_assoc in S2; exact S2|].
      intros B k. unfold bind at 1. rewrite G2.
      unfold bind, ret. rewrite octet_num_u8 by lia. reflexivity.
    - unfold be32, Uint8Array in S1. cbn [map app negb] in S1 |- *.
      destruct (at_suffix_getOctet _ _ _ S1) as (c0 & G2 & S2).
      destruct (at_suffix_shiftOctet c0
                  (octet_int (Some (ToUint8
                     (num_of_Z (len (payload r) / 2 ^ 24))))) _ _ S2)
        as (c1 & G3 & S3).
      match type of G3 with
      | NdefCodec.shiftOctet _ _ = Ok (?q, _) =>
          destruct (at_suffix_shiftOctet c1 q _ _ S3) as (c2 & G4 & S4)
      end.
      match type of G4 with
      | NdefCodec.shiftOctet _ _ = Ok (?q, _) =>
          destruct (at_suffix_shiftOctet c2 q _ _ S4) as (c3 & G5 & S5)
      end.
      exists c3. split; [repeat rewrite <- app_assoc in S5; exact S5|].
      intros B k. unfold bind at 1. rewrite G2.
      unfold bind. rewrite G3, G4, G5. unfold ret.
      do 2 f_equal. unfold num_of_Z. rewrite octet_int_u8, !b2z_ToUint8.
      apply be32_value. lia. }
  destruct Hlen as (b2 & S2 & G2).
  rewrite G2. clear G2 S1.
  assert (Hidl : exists b3,
             at_suffix b3 (type r ++ id r ++ payload r ++ s)
             /\ (if hasId r then o <- getOctet ;; ret (octet_num o)
                 else ret (Some 0)) b2
                = Ok (Some (len (id r)), b3)).
  { unfold hasId in *. destruct (Z.ltb_spec 0 (len (id r))).
    - cbn [app] in S2.
      destruct (at_suffix_getOctet _ _ _ S2) as (b3 & G3 & S3).
      exists b3. split; [exact S3|]. unfold bind. rewrite G3. unfold ret.
      rewrite octet_num_u8 by lia. reflexivity.
    - exists b2. cbn [app] in S2. split; [exact S2|]. unfold ret.
      replace (len (id r)) with 0 by lia. reflexivity. }
  destruct Hidl as (b3 & S3 & G3).
  unfold bind at 1. rewrite G3. clear G3 S2.
  rewrite octet_num_u8 by lia.
  destruct (at_suffix_getOctetArray _ _ _ S3) as (b4 & G4 & S4).
  unfold bind at 1. rewrite G4.
  destruct (at_suffix_getOctetArray _ _ _ S4) as (b5 & G5 & S5).
  unfold bind at 1. rewrite G5.
  destruct (at_suffix_getOctetArray _ _ _ S5) as (b6 & G6 & S6).
  unfold bind at 1. rewrite G6.
  exists b6. split; [|exact S6]. unfold ret. destruct r; reflexivity.
Qed.

Lemma recordBytes_cons (mb me : bool) (r : MozNdefRecord) :
  recordBytes mb me r
  = headerOctet mb me (isShort r) (hasId r) (tnf r)
    :: tl (recordBytes mb me r).
Proof. reflexivity. Qed.

Lemma doParseRecord_layout (first me : bool) (r : MozNdefRecord)
    (buf : Buffer) (s : list byte) :
  fitsLayout r ->
  at_suffix buf (recordBytes first me r ++ s) ->
  exists buf',
    NdefCodec.doParseRecord first buf = Ok ((r, negb me), buf')
    /\ at_suffix buf' s.
Proof.
  intros Hfit Hat. rewrite recordBytes_cons in Hat. cbn [app] in Hat.
  destruct (at_suffix_getOctet _ _ _ Hat) as (b1 & G1 & S1).
  destruct (parseNdefRecord_layout first me r b1 s Hfit S1)
    as (b2 & G2 & S2).
  destruct Hfit as (Ht & _).
  destruct (headerOctet_flags first me (isShort r) (hasId r) (tnf r) Ht)
    as (Hmb & Hme & Hcf & _).
  exists b2. split; [|exact S2].
  unfold NdefCodec.doParseRecord, bind at 1. rewrite G1, Hmb, Hme, Hcf.
  destruct first; cbn [andb negb]; unfold bind; rewrite G2; reflexivity.
Qed.

Lemma doParseLoop_layout (rs : list MozNdefRecord) :
  forall first records buf s extra,
    rs <> [] ->
    Forall fitsLayout rs ->
    at_suffix buf (messageBytes first rs ++ s) ->
    exists buf',
      NdefCodec.doParseLoop (List.length rs + extra) first records buf
      = Ok (records ++ rs, buf')
      /\ at_suffix buf' s.
Proof.
  induction rs as [|r rest IH]; intros first records buf s extra Hne Hall Hat;
    [contradiction|].
  inversion Hall as [|? ? Hr Hrest]; subst.
  cbn [List.length Nat.add NdefCodec.doParseLoop].
  destruct rest as [|r' rest'].
  - cbn [messageBytes] in Hat.
    destruct (doParseRecord_layout first true r buf s Hr Hat)
      as (b1 & G1 & S1).
    exists b1. split; [|exact S1].
    unfold bind. rewrite G1. reflexivity.
  - change (messageBytes first (r :: r' :: rest'))
      with (recordBytes first false r ++ messageBytes false (r' :: rest'))
      in Hat.
    rewrite <- app_assoc in Hat.
    destruct (doParseRecord_layout first false r buf _ Hr Hat)
      as (b1 & G1 & S1).
    destruct (IH false (records ++ [r]) b1 s extra ltac:(discriminate)
                Hrest S1) as (b2 & G2 & S2).
    exists b2. split; [|exact S2].
    unfold bind at 1. rewrite G1. cbn [fst snd negb].
    rewrite G2, <- app_assoc. reflexivity.
Qed.

(** Decoding what the layout holds.  A non-empty sequence of records, each
    with a TNF of 0 to 7, a type and an id shorter than 256 bytes and a
    payload shorter than 2^31 bytes, laid out one after the other with MB
    on the first and ME on the last, is parsed back as the same records,
    whatever follows the last record in the buffer; a payload of 256 bytes
    or more is read from its four length octets. *)
Theorem NdefCodec_parse_layout :
  forall (rs : list MozNdefRecord) (trailing : list byte) (extra : nat),
    rs <> [] ->
    Forall fitsLayout rs ->
    NdefCodec.parse (List.length rs + extra)
      (newBuffer (messageBytes true rs ++ trailing))
    = Ok (Some rs).
Proof.
  intros rs trailing extra Hne Hall.
  destruct (doParseLoop_layout rs true [] _ trailing extra Hne Hall
              (at_suffix_newBuffer _)) as (b & G & _).
  unfold NdefCodec.parse, NdefCodec.doParse. rewrite G. reflexivity.
Qed.

Lemma NdefCodec_parse_layout_witness :
  NdefCodec.parse 2
    (newBuffer
       (messageBytes true
          [mkRecord 1 (NdefUtils.fromUTF8 "cr") [] (Uint8Array [1; 2]);
           mkRecord 2 (NdefUtils.fromUTF8 "a/b") (Uint8Array [48])
             (repeat x2a 300)] ++ []))
  = Ok (Some [mkRecord 1 (NdefUtils.fromUTF8 "cr") [] (Uint8Array [1; 2]);
              mkRecord 2 (NdefUtils.fromUTF8 "a/b") (Uint8Array [48])
                (repeat x2a 300)]).
Proof.
  apply (NdefCodec_parse_layout
           [mkRecord 1 (NdefUtils.fromUTF8 "cr") [] (Uint8Array [1; 2]);
            mkRecord 2 (NdefUtils.fromUTF8 "a/b") (Uint8Array [48])
              (repeat x2a 300)] [] 0).
  - discriminate.
  - repeat constructor; vm_compute; congruence.
Defined.

(** ** NdefCodec: what a parse returns *)

Lemma tnf_range (o : jsoctet) :
  0 <= Z.land (octet_int o) NdefConsts.TNF <= 7.
Proof.
  change NdefConsts.TNF with (Z.ones 3).
  assert (H : 0 <= octet_int o)
    by (destruct o as [b|]; cbn; [apply b2z_range|lia]).
  rewrite Z.land_ones by lia.
  pose proof (Z.mod_pos_bound (octet_int o) (2 ^ 3) ltac:(lia)). lia.
Qed.

Lemma parseNdefRecord_tnf (o : jsoctet) (buf buf' : Buffer)
    (r : MozNdefRecord) :
  NdefCodec.parseNdefRecord o buf = Ok (r, buf') -> 0 <= tnf r <= 7.
Proof.
  unfold NdefCodec.parseNdefRecord. cbv zeta. unfold bind, ret.
  repeat match goal with
         | |- context [match ?m ?b with _ => _ end] =>
             destruct (m b) as [[? ?]| |]; try discriminate
         | |- context [if ?c then _ else _] => destruct c
         end;
    intros H; inversion H; subst; apply tnf_range.
Qed.

Lemma doParseRecord_tnf (first : bool) (buf buf' : Buffer)
    (r : MozNdefRecord) (more : bool) :
  NdefCodec.doParseRecord first buf = Ok ((r, more), buf') ->
  0 <= tnf r <= 7.
Proof.
  unfold NdefCodec.doParseRecord, bind at 1.
  destruct (getOctet buf) as [[o b1]| |]; try discriminate.
  destruct (first && _); [discriminate|].
  destruct (negb first && _); [discriminate|].
  destruct (NdefCodec.flag o NdefConsts.CF); [discriminate|].
  unfold bind.
  destruct (NdefCodec.parseNdefRecord o b1) as [[r' b2]| |] eqn:E;
    try discriminate.
  intros H. inversion H; subst. exact (parseNdefRecord_tnf _ _ _ _ E).
Qed.

Lemma doParseLoop_result (fuel : nat) : forall first records buf rs buf',
  NdefCodec.doParseLoop fuel first records buf = Ok (rs, buf') ->
  exists r new,
    rs = records ++ r :: new
    /\ Forall (fun x => 0 <= tnf x <= 7) (r :: new).
Proof.
  induction fuel as [|fuel IH]; intros first records buf rs buf' H;
    [discriminate H|].
  cbn [NdefCodec.doParseLoop] in H. unfold bind at 1 in H.
  destruct (NdefCodec.doParseRecord first buf) as [[[r more] b1]| |] eqn:E;
    try discriminate H.
  pose proof (doParseRecord_tnf _ _ _ _ _ E) as Ht.
  cbn [fst snd] in H. destruct more.
  - destruct (IH _ _ _ _ _ H) as (r' & new & -> & Hall).
    exists r, (r' :: new). rewrite <- app_assoc. split; [reflexivity|].
    constructor; assumption.
  - inversion H; subst. exists r, []. split; [reflexivity|].
    constructor; [assumption|constructor].
Qed.

(** What [NdefCodec.parse] returns, when it is not null, is never an empty
    array, and every record in it has a TNF of 0 to 7. *)
Theorem NdefCodec_parse_records :
  forall (fuel : nat) (buffer : Buffer) (records : list MozNdefRecord),
    NdefCodec.parse fuel buffer = Ok (Some records) ->
    records <> [] /\ Forall (fun r => 0 <= tnf r <= 7) records.
Proof.
  intros fuel buffer records H. unfold NdefCodec.parse, NdefCodec.doParse in H.
  destruct (NdefCodec.doParseLoop fuel true [] buffer) as [[rs b]| |] eqn:E;
    try discriminate H.
  inversion H; subst rs.
  destruct (doParseLoop_result _ _ _ _ _ _ E) as (r & new & -> & Hall).
  split; [discriminate|exact Hall].
Qed.

Lemma NdefCodec_parse_records_witness :
  [mkRecord 1 (Uint8Array [99; 114]) [] (Uint8Array [1; 2])] <> []
  /\ Forall (fun r => 0 <= tnf r <= 7)
       [mkRecord 1 (Uint8Array [99; 114]) [] (Uint8Array [1; 2])].
Proof.
  apply (NdefCodec_parse_records 1
           (newBuffer (Uint8Array [0xD1; 2; 2; 99; 114; 1; 2]))).
  reflexivity.
Defined.

(** ** NdefUtils *)

(** [equalArrays] is true exactly for two arrays of the same bytes. *)
Theorem NdefUtils_equalArrays_spec :
  forall a1 a2 : list byte,
    (NdefUtils.equalArrays a1 a2 = true <-> a1 = a2)
    /\ (NdefUtils.equalArrays a1 a2 = false <-> a1 <> a2).
Proof.
  intros a1 a2. pose proof (equalArrays_eq a1 a2) as H.
  split; [exact H|].
  destruct (NdefUtils.equalArrays a1 a2); split; intros H1;
    try discriminate; try reflexivity.
  - exfalso. apply H1. apply H. reflexivity.
  - intros E. apply H in E. discriminate E.
Qed.

(** ** Looking up the carrier data record *)

Lemma findNdefRecordWithId_ok (id0 : list byte) (ndef : list MozNdefRecord)
    (r : MozNdefRecord) :
  NdefHandoverCodec.findNdefRecordWithId id0 ndef = Ok r ->
  exists before after,
    ndef = before ++ r :: after
    /\ id r = id0
    /\ Forall (fun x => id x <> id0) before.
Proof.
  induction ndef as [|x ndef IH]; intros H; simpl in H; [discriminate H|].
  destruct (NdefUtils.equalArrays id0 (id x)) eqn:E.
  - inversion H; subst. apply equalArrays_eq in E.
    exists [], ndef. split; [reflexivity|]. split; [congruence|constructor].
  - destruct (IH H) as (before & after & -> & Hid & Hall).
    exists (x :: before), after. split; [reflexivity|]. split; [exact Hid|].
    constructor; [|exact Hall].
    intros Hx. rewrite <- Hx, (proj2 (equalArrays_eq _ _) eq_refl) in E.
    discriminate E.
Qed.

Lemma findNdefRecordWithId_none (id0 : list byte) (ndef : list MozNdefRecord) :
  Forall (fun x => id x <> id0) ndef ->
  NdefHandoverCodec.findNdefRecordWithId id0 ndef
  = Throw (Str "Could not find record with id").
Proof.
  induction 1 as [|x ndef Hx _ IH]; simpl; [reflexivity|].
  destruct (NdefUtils.equalArrays id0 (id x)) eqn:E; [|exact IH].
  apply equalArrays_eq in E. congruence.
Qed.

(** [findNdefRecordWithId] returns the first record of the message whose
    id is the one looked for, and throws when no record has it. *)
Theorem findNdefRecordWithId_first_match :
  forall (id0 : list byte) (ndef : list MozNdefRecord),
    (forall r,
        NdefHandoverCodec.findNdefRecordWithId id0 ndef = Ok r <->
        exists before after,
          ndef = before ++ r :: after
          /\ id r = id0
          /\ Forall (fun x => id x <> id0) before)
    /\ (NdefHandoverCodec.findNdefRecordWithId id0 ndef
        = Throw (Str "Could not find record with id")
        <-> Forall (fun x => id x <> id0) ndef).
Proof.
  intros id0 ndef. split.
  - intros r. split; [apply findNdefRecordWithId_ok|].
    intros (before & after & -> & Hid & Hall).
    induction Hall as [|x before Hx _ IH]; simpl.
    + rewrite <- Hid, (proj2 (equalArrays_eq _ _) eq_refl). reflexivity.
    + destruct (NdefUtils.equalArrays id0 (id x)) eqn:E; [|exact IH].
      apply equalArrays_eq in E. congruence.
  - split; [|apply findNdefRecordWithId_none].
    intros H. apply Forall_forall. intros x Hin Hx.
    induction ndef as [|y ndef IH]; [contradiction|]. simpl in H.
    destruct (NdefUtils.equalArrays id0 (id y)) eqn:E; [discriminate H|].
    destruct Hin as [->|Hin]; [|exact (IH H Hin)].
    rewrite <- Hx, (proj2 (equalArrays_eq _ _) eq_refl) in E. discriminate E.
Qed.

Lemma searchAC_some (acs : list AlternativeCarrier) (r : MozNdefRecord) :
  NdefHandoverCodec.searchAC acs = Some r ->
  exists before a after,
    acs = before ++ a :: after
    /\ cdr a = r /\ isBluetooth a
    /\ Forall (fun x => ~ isBluetooth x) before.
Proof.
  induction acs as [|x acs IH]; intros H; simpl in H; [discriminate H|].
  destruct (tnf (cdr x) =? NdefConsts.tnf_mime_media) eqn:E1.
  - destruct (String.eqb (NdefUtils.toUTF8 (type (cdr x)))
                NdefHandoverCodec.BluetoothMime) eqn:E2.
    + cbn [andb] in H. inversion H; subst.
      exists [], x, acs. split; [reflexivity|]. split; [reflexivity|].
      split; [|constructor]. split.
      * apply Z.eqb_eq. exact E1.
      * apply toUTF8_eqb. exact E2.
    + cbn [andb] in H.
      destruct (IH H) as (before & a & after & -> & Hc & Hb & Hall).
      exists (x :: before), a, after. split; [reflexivity|].
      split; [exact Hc|]. split; [exact Hb|]. constructor; [|exact Hall].
      intros [_ Hty].
      pose proof (proj2 (toUTF8_eqb (type (cdr x))
                           NdefHandoverCodec.BluetoothMime) Hty) as Hq.
      congruence.
  - cbn [andb] in H.
    destruct (IH H) as (before & a & after & -> & Hc & Hb & Hall).
    exists (x :: before), a, after. split; [reflexivity|].
    split; [exact Hc|]. split; [exact Hb|]. constructor; [|exact Hall].
    intros [Ht _]. apply Z.eqb_eq in Ht. rewrite Ht in E1. discriminate E1.
Qed.

(** [searchForBluetoothAC] returns the carrier data record of the first
    alternative carrier whose record is mime-media with the Bluetooth OOB
    type, and null exactly when no carrier is. *)
Theorem searchForBluetoothAC_first_match :
  forall (h : Handover),
    (forall r,
        NdefHandoverCodec.searchForBluetoothAC h = Some r ->
        exists before a after,
          ac h = before ++ a :: after
          /\ cdr a = r
          /\ tnf r = NdefConsts.tnf_mime_media
          /\ type r = NdefUtils.fromUTF8 "application/vnd.bluetooth.ep.oob"
          /\ Forall (fun x => ~ isBluetooth x) before)
    /\ (NdefHandoverCodec.searchForBluetoothAC h = None
        <-> Forall (fun x => ~ isBluetooth x) (ac h)).
Proof.
  intros h. unfold NdefHandoverCodec.searchForBluetoothAC. split.
  - intros r H.
    destruct (searchAC_some _ _ H) as (before & a & after & E & Hc & Hb & Hall).
    exists before, a, after. destruct Hb as [Ht Hty]. subst r.
    repeat split; assumption.
  - split; [|apply searchAC_none].
    intros H. apply Forall_forall. intros x Hin Hb.
    induction (ac h) as [|y acs IH]; [contradiction|]. simpl in H.
    destruct Hb as [Ht Hty].
    destruct Hin as [<-|Hin].
    + rewrite Ht, Z.eqb_refl in H. cbn [andb] in H.
      pose proof (proj2 (toUTF8_eqb (type (cdr y))
                           NdefHandoverCodec.BluetoothMime) Hty) as Hq.
      rewrite Hq in H. discriminate H.
    + destruct ((tnf (cdr y) =? NdefConsts.tnf_mime_media)
                && String.eqb (NdefUtils.toUTF8 (type (cdr y)))
                     NdefHandoverCodec.BluetoothMime);
        [discriminate H|exact (IH H Hin)].
Qed.

Lemma searchForBluetoothAC_witness :
  exists before a after,
    [mkAC 1 (mkRecord 1 [] [] []);
     mkAC 2 (mkRecord 2 BluetoothMimeType [] [])]
    = before ++ a :: after
    /\ cdr a = mkRecord 2 BluetoothMimeType [] []
    /\ tnf (mkRecord 2 BluetoothMimeType [] []) = NdefConsts.tnf_mime_media
    /\ type (mkRecord 2 BluetoothMimeType [] [])
       = NdefUtils.fromUTF8 "application/vnd.bluetooth.ep.oob"
    /\ Forall (fun x => ~ isBluetooth x) before.
Proof.
  apply (proj1 (searchForBluetoothAC_first_match
                  (mkHandover "Hs" 1 2 None
                     [mkAC 1 (mkRecord 1 [] [] []);
                      mkAC 2 (mkRecord 2 BluetoothMimeType [] [])]))
           (mkRecord 2 BluetoothMimeType [] [])).
  reflexivity.
Defined.

(** ** What a handover parse accepts *)

Lemma parseAC_ok :
  forall (ac : list byte) (ndef : list MozNdefRecord)
         (a : AlternativeCarrier),
    NdefHandoverCodec.parseAC ac ndef = Ok a ->
    exists flags n reference rest before after,
      ac = flags :: n :: reference ++ rest
      /\ len reference = b2z n
      /\ cps a = b2z flags mod 4
      /\ ndef = before ++ cdr a :: after
      /\ id (cdr a) = reference
      /\ Forall (fun r => id r <> reference) before.
Proof.
  intros ac ndef a H.
  unfold NdefHandoverCodec.parseAC, rbind, onBuffer, newBuffer in H.
  destruct ac as [|flags [|n rest0]].
  - discriminate H.
  - discriminate H.
  - unfold bind at 1 in H.
    rewrite (getOctet_at _ 0 flags) in H by (reflexivity || lia).
    unfold bind at 1 in H.
    rewrite (getOctet_at _ (0 + 1) n) in H by (reflexivity || lia).
    unfold bind at 1 in H. cbn [octet_num option_map] in H.
    pose proof (b2z_range n) as Hn.
    destruct (Z.leb_spec (0 + 1 + 1 + b2z n) (len (flags :: n :: rest0)))
      as [Hle|Hgt].
    + rewrite getOctetArray_in_bounds in H by lia.
      unfold ret in H. cbn [fst snd octet_int] in H.
      change (Z.to_nat (0 + 1 + 1)) with 2%nat in H. cbn [skipn] in H.
      destruct (NdefHandoverCodec.findNdefRecordWithId
                  (firstn (Z.to_nat (b2z n)) rest0) ndef) as [r| |] eqn:Ef;
        try discriminate H.
      inversion H; subst a. cbn [cps cdr].
      destruct (findNdefRecordWithId_ok _ _ _ Ef)
        as (before & after & Hnd & Hid & Hall).
      exists flags, n, (firstn (Z.to_nat (b2z n)) rest0),
        (skipn (Z.to_nat (b2z n)) rest0), before, after.
      rewrite firstn_skipn. split; [reflexivity|]. split.
      { unfold len in *. rewrite length_firstn. cbn [List.length] in Hle.
        lia. }
      split.
      { change 3 with (Z.ones 2). rewrite Z.land_ones by lia. reflexivity. }
      repeat split; assumption.
    + unfold getOctetArray in H. cbn [offset uint8array num_add num_gt] in H.
      destruct (Z.gtb_spec (0 + 1 + 1 + b2z n) (len (flags :: n :: rest0)));
        [discriminate H|exfalso; lia].
Qed.

(** [parseAC]: the payload of an 'ac' record is a flags octet, of which the
    two low bits are the carrier power state, the length of the carrier
    data reference, and the reference; the carrier data record is a record
    of the message whose id is the reference, the first such. *)
Theorem parseAC_reads_reference :
  forall (ac : list byte) (ndef : list MozNdefRecord)
         (a : AlternativeCarrier),
    NdefHandoverCodec.parseAC ac ndef = Ok a ->
    exists flags n reference rest before after,
      ac = flags :: n :: reference ++ rest
      /\ len reference = b2z n
      /\ cps a = b2z flags mod 4
      /\ ndef = before ++ cdr a :: after
      /\ id (cdr a) = reference
      /\ Forall (fun r => id r <> reference) before.
Proof. exact parseAC_ok. Qed.

Lemma parseAC_reads_reference_witness :
  exists flags n reference rest before after,
    Uint8Array [0x0D; 1; 0x30; 0] = flags :: n :: reference ++ rest
    /\ len reference = b2z n
    /\ 1 = b2z flags mod 4
    /\ [mkRecord 1 [] [] []; mkRecord 2 [] (Uint8Array [0x30]) []]
       = before ++ mkRecord 2 [] (Uint8Array [0x30]) [] :: after
    /\ Uint8Array [0x30] = reference
    /\ Forall (fun r => id r <> reference) before.
Proof.
  apply (parseAC_reads_reference (Uint8Array [0x0D; 1; 0x30; 0])
           [mkRecord 1 [] [] []; mkRecord 2 [] (Uint8Array [0x30]) []]
           (mkAC 1 (mkRecord 2 [] (Uint8Array [0x30]) []))).
  reflexivity.
Defined.

Lemma parseAcRecordsLoop_carriers ndef rest : forall acc acs,
  NdefHandoverCodec.parseAcRecordsLoop acc ndef rest = Ok acs ->
  exists new,
    acs = acc ++ new
    /\ List.length new = List.length rest
    /\ Forall (fun a => 0 <= cps a <= 3 /\ In (cdr a) ndef) new.
Proof.
  induction rest as [|record rest IH]; intros acc acs H; simpl in H.
  - inversion H; subst. exists []. rewrite app_nil_r.
    split; [reflexivity|]. split; [reflexivity|constructor].
  - destruct (NdefUtils.equalArrays (type record)
                NdefConsts.rtd_alternative_carrier); [|discriminate H].
    unfold rbind in H.
    destruct (NdefHandoverCodec.parseAC (payload record) ndef)
      as [a|e|] eqn:Ea; try discriminate H.
    destruct (IH _ _ H) as (new & -> & Hlen & Hall).
    exists (a :: new). rewrite <- app_assoc. split; [reflexivity|].
    split; [simpl; lia|]. constructor; [|exact Hall].
    destruct (parseAC_ok _ _ _ Ea)
      as (flags & n & reference & rest' & before & after
          & _ & _ & Hc & Hnd & _ & _).
    split.
    + rewrite Hc. pose proof (Z.mod_pos_bound (b2z flags) 4 ltac:(lia)). lia.
    + rewrite Hnd. apply in_or_app. right. left. reflexivity.
Qed.

(** What [NdefHandoverCodec.parse] accepts.  A result that is not null
    comes from a message whose first record is well-known with a payload
    that starts with the version octet (major version in its high nibble,
    minor in its low one), and is either 'Hs', and the result has no
    collision value, or 'Hr', and then the first nested record has type
    'cr' and a payload of two octets, which most significant first are the
    collision value, below 2^16.  Every alternative carrier has a power
    state of 0 to 3 and a carrier data record that is a record of the
    message. *)
Theorem NdefHandoverCodec_parse_accepts :
  forall (fuel : nat) (ndefMsg : list MozNdefRecord) (h : Handover),
    NdefHandoverCodec.parse fuel ndefMsg = Ok (Some h) ->
    exists record others version body embedded,
      ndefMsg = record :: others
      /\ payload record = version :: body
      /\ tnf record = NdefConsts.tnf_well_known
      /\ majorVersion h = b2z version / 16
      /\ minorVersion h = b2z version mod 16
      /\ NdefCodec.parse fuel (mkBuffer (payload record) (Some 1))
         = Ok (Some embedded)
      /\ ((h_type h = "Hs"
           /\ type record = NdefUtils.fromUTF8 "Hs"
           /\ cr h = None
           /\ List.length (ac h) = List.length embedded)
          \/ (h_type h = "Hr"
              /\ type record = NdefUtils.fromUTF8 "Hr"
              /\ exists crr nested b0 b1,
                  embedded = crr :: nested
                  /\ type crr = NdefUtils.fromUTF8 "cr"
                  /\ payload crr = [b0; b1]
                  /\ cr h = Some (b2z b0 * 256 + b2z b1)
                  /\ List.length (ac h) = List.length nested))
      /\ Forall (fun a => 0 <= cps a <= 3 /\ In (cdr a) ndefMsg) (ac h).
Proof.
  intros fuel ndefMsg h H. unfold NdefHandoverCodec.parse in H.
  destruct (NdefHandoverCodec.doParse fuel ndefMsg) as [h'| |] eqn:Hd;
    try discriminate H.
  inversion H; subst h'. clear H.
  unfold NdefHandoverCodec.doParse in Hd.
  destruct ndefMsg as [|record others]; [discriminate Hd|].
  cbn [nth_error] in Hd.
  destruct (payload record) as [|version body] eqn:Hp; [discriminate Hd|].
  unfold newBuffer in Hd.
  rewrite (getOctet_at _ 0 version) in Hd by (reflexivity || lia).
  unfold rbind at 1 in Hd. change (0 + 1) with 1 in Hd.
  destruct (NdefCodec.parse fuel (mkBuffer (version :: body) (Some 1)))
    as [[embedded|]| |] eqn:He; try discriminate Hd.
  destruct (tnf record =? NdefConsts.tnf_well_known) eqn:Et;
    [|discriminate Hd]. cbn [negb] in Hd. apply Z.eqb_eq in Et.
  pose proof (b2z_range version) as Hv.
  assert (Hmaj : Z.shiftr (ToUint32 (octet_int (Some version))) 4
                 = b2z version / 16).
  { cbn [octet_int]. unfold ToUint32. rewrite Z.mod_small by lia.
    rewrite Z.shiftr_div_pow2 by lia. reflexivity. }
  assert (Hmin : Z.land (octet_int (Some version)) 0x0f = b2z version mod 16).
  { cbn [octet_int]. change 0x0f with (Z.ones 4).
    rewrite Z.land_ones by lia. reflexivity. }
  exists record, others, version, body, embedded. rewrite Hp.
  split; [reflexivity|]. split; [reflexivity|]. split; [exact Et|].
  destruct (NdefUtils.equalArrays (type record)
              NdefConsts.rtd_handover_select) eqn:Es.
  - apply equalArrays_eq in Es.
    unfold NdefHandoverCodec.parseAcRecords, rbind in Hd. cbn [skipn] in Hd.
    destruct (NdefHandoverCodec.parseAcRecordsLoop [] (record :: others)
                embedded) as [acs| |] eqn:Ea; try discriminate Hd.
    injection Hd as Hh. subst h. cbn [majorVersion minorVersion h_type cr ac].
    destruct (parseAcRecordsLoop_carriers _ _ _ _ Ea)
      as (new & Hacs & Hlen & Hall). cbn [app] in Hacs. subst new.
    split; [exact Hmaj|]. split; [exact Hmin|]. split; [exact He|].
    split; [|exact Hall]. left. auto.
  - destruct (NdefUtils.equalArrays (type record)
                NdefConsts.rtd_handover_request) eqn:Er; [|discriminate Hd].
    apply equalArrays_eq in Er.
    destruct embedded as [|crr nested]; [discriminate Hd|].
    cbn [nth_error] in Hd.
    destruct (NdefUtils.equalArrays (type crr)
                NdefConsts.rtd_collision_resolution) eqn:Ec;
      [|discriminate Hd]. cbn [negb] in Hd. apply equalArrays_eq in Ec.
    destruct (len (payload crr) =? 2) eqn:El; [|discriminate Hd].
    cbn [negb] in Hd. apply Z.eqb_eq in El.
    destruct (payload crr) as [|b0 [|b1 [|b2 l]]] eqn:Hc;
      try (unfold len in El; cbn [List.length] in El; lia).
    unfold NdefHandoverCodec.parseAcRecords, rbind in Hd. cbn [skipn] in Hd.
    destruct (NdefHandoverCodec.parseAcRecordsLoop [] (record :: others)
                nested) as [acs| |] eqn:Ea; try discriminate Hd.
    injection Hd as Hh. subst h. cbn [majorVersion minorVersion h_type cr ac].
    destruct (parseAcRecordsLoop_carriers _ _ _ _ Ea)
      as (new & Hacs & Hlen & Hall). cbn [app] in Hacs. subst new.
    split; [exact Hmaj|]. split; [exact Hmin|]. split; [exact He|].
    split; [|exact Hall]. right. split; [reflexivity|]. split; [exact Er|].
    exists crr, nested, b0, b1.
    split; [reflexivity|]. split; [exact Ec|]. split; [exact Hc|].
    split; [|exact Hlen]. f_equal.
    change (index [b0; b1] (num_of_Z 0)) with (Some b0).
    change (index [b0; b1] (num_of_Z 1)) with (Some b1).
    cbn [octet_int].
    pose proof (b2z_range b0). pose proof (b2z_range b1).
    rewrite <- (shift_step (b2z b0) (b2z b1)) by lia.
    replace (ToInt32 (b2z b0)) with (b2z b0)
      by (unfold ToInt32; rewrite Z.mod_small; lia).
    reflexivity.
Qed.

Lemma NdefHandoverCodec_parse_accepts_witness :
  exists record others version body embedded,
    goodSelect = record :: others
    /\ payload record = version :: body
    /\ tnf record = NdefConsts.tnf_well_known
    /\ 1 = b2z version / 16
    /\ 2 = b2z version mod 16
    /\ NdefCodec.parse 1 (mkBuffer (payload record) (Some 1))
       = Ok (Some embedded)
    /\ (("Hs" = "Hs"
         /\ type record = NdefUtils.fromUTF8 "Hs"
         /\ @None Z = None
         /\ 1%nat = List.length embedded)
        \/ ("Hs" = "Hr"
            /\ type record = NdefUtils.fromUTF8 "Hr"
            /\ exists crr nested b0 b1,
                embedded = crr :: nested
                /\ type crr = NdefUtils.fromUTF8 "cr"
                /\ payload crr = [b0; b1]
                /\ @None Z = Some (b2z b0 * 256 + b2z b1)
                /\ 1%nat = List.length nested))
    /\ Forall (fun a => 0 <= cps a <= 3 /\ In (cdr a) goodSelect)
         [mkAC 1 (mkRecord 2 BluetoothMimeType (Uint8Array [0x30])
                    (Uint8Array [8; 0; 0xFF; 0xEE; 0xDD; 0xCC; 0xBB; 0xAA]))].
Proof.
  apply (NdefHandoverCodec_parse_accepts 1 goodSelect
           (mkHandover "Hs" 1 2 None
              [mkAC 1 (mkRecord 2 BluetoothMimeType (Uint8Array [0x30])
                         (Uint8Array [8; 0; 0xFF; 0xEE; 0xDD; 0xCC; 0xBB;
                                      0xAA]))])).
  reflexivity.
Defined.

(** ** The OOB data of the Bluetooth carrier *)

Lemma oobValue_array (name : option string) (buf buf' : Buffer)
    (v : option string) :
  NdefHandoverCodec.oobValue name buf = Ok (v, buf') ->
  uint8array buf' = uint8array buf.
Proof.
  unfold NdefHandoverCodec.oobValue, bind, getOctet, getOctetArray, skip, ret.
  repeat match goal with
         | |- context [if ?c then _ else _] => destruct c
         end;
    intros H; inversion H; reflexivity.
Qed.

Lemma oobValue_layout (name : option string) (buf : Buffer)
    (e : byte * list byte) (s : list byte) :
  len (snd e) <= 254 ->
  at_suffix buf (oobBytes e ++ s) ->
  exists buf',
    NdefHandoverCodec.oobValue name buf
    = Ok (if (b2z (fst e) =? 8) || (b2z (fst e) =? 9)
          then Some (NdefUtils.toUTF8 (snd e)) else name, buf')
    /\ at_suffix buf' s.
Proof.
  destruct e as [t v]. cbn [fst snd]. intros Hlen Hat.
  unfold oobBytes in Hat. cbn [fst snd app] in Hat.
  pose proof (len_nonneg v) as Hv.
  destruct (at_suffix_getOctet _ _ _ Hat) as (b1 & G1 & S1).
  destruct (at_suffix_getOctet _ _ _ S1) as (b2 & G2 & S2).
  unfold NdefHandoverCodec.oobValue, bind at 1. rewrite G1.
  unfold bind at 1. rewrite G2.
  rewrite octet_num_u8 by lia. cbn [num_add NdefHandoverCodec.isCase].
  replace (1 + len v + -1) with (len v) by lia.
  destruct ((b2z t =? 8) || (b2z t =? 9)).
  - destruct (at_suffix_getOctetArray _ _ _ S2) as (b3 & G3 & S3).
    exists b3. unfold bind. rewrite G3. split; [reflexivity|exact S3].
  - destruct (at_suffix_skip _ _ _ S2) as (b3 & G3 & S3).
    exists b3. unfold bind. rewrite G3. split; [reflexivity|exact S3].
Qed.

Lemma oobLoop_layout (els : list (byte * list byte)) :
  forall (fuel : nat) (name : option string) (buf : Buffer),
    Forall (fun e => len (snd e) <= 254) els ->
    at_suffix buf (flat_map oobBytes els) ->
    (List.length els <= fuel)%nat ->
    exists buf',
      NdefHandoverCodec.oobLoop fuel (len (uint8array buf)) name buf
      = Ok (lastLocalName name els, buf').
Proof.
  induction els as [|e rest IH]; intros fuel name buf Hall Hat Hf.
  - cbn [flat_map] in Hat. exists buf.
    destruct fuel; cbn [NdefHandoverCodec.oobLoop];
      rewrite (at_suffix_end _ Hat); cbn [num_eq]; rewrite Z.eqb_refl;
      reflexivity.
  - inversion Hall as [|? ? He Hrest]; subst.
    cbn [flat_map] in Hat.
    destruct fuel as [|fuel]; [cbn [List.length] in Hf; lia|].
    cbn [NdefHandoverCodec.oobLoop].
    assert (Hne : num_eq (offset buf) (Some (len (uint8array buf))) = false).
    { unfold oobBytes in Hat. cbn [app] in Hat.
      exact (at_suffix_not_end _ _ _ Hat). }
    rewrite Hne. cbn [negb].
    destruct (oobValue_layout name buf e _ He Hat) as (b1 & G1 & S1).
    unfold bind at 1. rewrite G1.
    rewrite <- (oobValue_array _ _ _ _ G1).
    cbn [lastLocalName].
    apply IH; [exact Hrest|exact S1|cbn [List.length] in Hf; lia].
Qed.

(** Reading the OOB data.  After the two length octets and the six address
    octets come the OOB values, each a length octet that counts the type
    octet, the type and the value.  A payload laid out so (values of at
    most 254 bytes) is read as the address and, for the local name, the
    value of the last OOB value of type 0x08 or 0x09; values of other types
    are passed over, and without a name value there is no local name. *)
Theorem parseBluetoothSSP_local_name :
  forall t ty i (l0 l1 b0 b1 b2 b3 b4 b5 : byte)
         (els : list (byte * list byte)),
    Forall (fun e => len (snd e) <= 254) els ->
    NdefHandoverCodec.parseBluetoothSSP
      (mkRecord t ty i
         ([l0; l1; b0; b1; b2; b3; b4; b5] ++ flat_map oobBytes els))
    = Ok (mkSSP (address_of_octets b0 b1 b2 b3 b4 b5)
            (lastLocalName None els)).
Proof.
  intros t ty i l0 l1 b0 b1 b2 b3 b4 b5 els Hall.
  unfold NdefHandoverCodec.parseBluetoothSSP, onBuffer, newBuffer.
  cbn [payload app].
  set (a := l0 :: l1 :: b0 :: b1 :: b2 :: b3 :: b4 :: b5
            :: flat_map oobBytes els).
  unfold bind at 1.
  rewrite (getOctet_at a 0 l0) by (reflexivity || lia).
  unfold bind at 1.
  rewrite (getOctet_at a (0 + 1) l1) by (reflexivity || lia).
  unfold bind at 1.
  rewrite (macOctet_at a (0 + 1 + 1) b0) by (reflexivity || lia).
  unfold bind at 1.
  rewrite (macOctet_at a (0 + 1 + 1 + 1) b1) by (reflexivity || lia).
  unfold bind at 1.
  rewrite (macOctet_at a (0 + 1 + 1 + 1 + 1) b2) by (reflexivity || lia).
  unfold bind at 1.
  rewrite (macOctet_at a (0 + 1 + 1 + 1 + 1 + 1) b3) by (reflexivity || lia).
  unfold bind at 1.
  rewrite (macOctet_at a (0 + 1 + 1 + 1 + 1 + 1 + 1) b4)
    by (reflexivity || lia).
  unfold bind at 1.
  rewrite (macOctet_at a (0 + 1 + 1 + 1 + 1 + 1 + 1 + 1) b5)
    by (reflexivity || lia).
  destruct (oobLoop_layout els (List.length a) None
              (mkBuffer a (Some (0 + 1 + 1 + 1 + 1 + 1 + 1 + 1 + 1))) Hall)
    as (b' & G).
  - exists [l0; l1; b0; b1; b2; b3; b4; b5]. split; reflexivity.
  - subst a. cbn [List.length].
    assert (List.length els <= List.length (flat_map oobBytes els))%nat.
    { clear. induction els as [|e rest IH]; cbn [flat_map List.length];
        [lia|]. rewrite length_app. unfold oobBytes at 1.
      cbn [List.length]. lia. }
    lia.
  - cbn [uint8array] in G. unfold bind. rewrite G. reflexivity.
Qed.

Lemma parseBluetoothSSP_local_name_witness :
  NdefHandoverCodec.parseBluetoothSSP
    (mkRecord 2 BluetoothMimeType []
       ([x0f; x00; x01; x02; x03; x04; x05; x06]
        ++ flat_map oobBytes
             [(x0d, Uint8Array [0x5a; 0x02; 0x0c]);
              (x09, NdefUtils.fromUTF8 "dev")]))
  = Ok (mkSSP "06:05:04:03:02:01" (Some "dev")).
Proof.
  apply (parseBluetoothSSP_local_name 2 BluetoothMimeType []
           x0f x00 x01 x02 x03 x04 x05 x06
           [(x0d, Uint8Array [0x5a; 0x02; 0x0c]);
            (x09, NdefUtils.fromUTF8 "dev")]).
  repeat constructor; vm_compute; congruence.
Defined.

Lemma throwsOnly_oobLoop (fuel : nat) : forall n name,
  throwsOnly BufferTooSmall (NdefHandoverCodec.oobLoop fuel n name).
Proof.
  induction fuel as [|fuel IH]; intros n name buf e;
    cbn [NdefHandoverCodec.oobLoop];
    destruct (negb (num_eq (offset buf) (Some n))); try discriminate.
  apply throwsOnly_bind; [|intros a; apply IH].
  unfold NdefHandoverCodec.oobValue. throws_only.
Qed.

(** How [parseBluetoothSSP] fails.  A carrier data record with fewer than 8
    bytes of payload always throws 'Buffer too small'; whatever the
    payload, nothing else is ever thrown; and a result comes only from a
    payload of 8 bytes or more, with the address made of bytes 2 to 7. *)
Theorem parseBluetoothSSP_failures :
  forall (cdr : MozNdefRecord),
    (len (payload cdr) < 8 ->
     NdefHandoverCodec.parseBluetoothSSP cdr = Throw BufferTooSmall)
    /\ (forall e, NdefHandoverCodec.parseBluetoothSSP cdr = Throw e ->
                  e = BufferTooSmall)
    /\ (forall ssp, NdefHandoverCodec.parseBluetoothSSP cdr = Ok ssp ->
          exists l0 l1 b0 b1 b2 b3 b4 b5 rest,
            payload cdr = [l0; l1; b0; b1; b2; b3; b4; b5] ++ rest
            /\ mac ssp = address_of_octets b0 b1 b2 b3 b4 b5).
Proof.
  intros [t ty i p]. cbn [payload].
  destruct p as [|l0 [|l1 [|b0 [|b1 [|b2 [|b3 [|b4 [|b5 rest]]]]]]]].
  1-8: split; [intros _; reflexivity|];
       split; [intros e H; inversion H; reflexivity|];
       intros ssp H; discriminate H.
  assert (Hrun : exists n name,
             NdefHandoverCodec.parseBluetoothSSP
               (mkRecord t ty i
                  (l0 :: l1 :: b0 :: b1 :: b2 :: b3 :: b4 :: b5 :: rest))
             = match NdefHandoverCodec.oobLoop n
                       (len (l0 :: l1 :: b0 :: b1 :: b2 :: b3 :: b4 :: b5
                             :: rest)) name
                       (mkBuffer (l0 :: l1 :: b0 :: b1 :: b2 :: b3 :: b4
                                  :: b5 :: rest)
                          (Some (0 + 1 + 1 + 1 + 1 + 1 + 1 + 1 + 1))) with
               | Ok (v, _) =>
                   Ok (mkSSP (address_of_octets b0 b1 b2 b3 b4 b5) v)
               | Throw e => Throw e
               | OutOfFuel => OutOfFuel
               end).
  { exists (List.length
              (l0 :: l1 :: b0 :: b1 :: b2 :: b3 :: b4 :: b5 :: rest)), None.
    unfold NdefHandoverCodec.parseBluetoothSSP, onBuffer, newBuffer.
    cbn [payload].
    set (a := l0 :: l1 :: b0 :: b1 :: b2 :: b3 :: b4 :: b5 :: rest).
    unfold bind at 1.
    rewrite (getOctet_at a 0 l0) by (reflexivity || lia).
    unfold bind at 1.
    rewrite (getOctet_at a (0 + 1) l1) by (reflexivity || lia).
    unfold bind at 1.
    rewrite (macOctet_at a (0 + 1 + 1) b0) by (reflexivity || lia).
    unfold bind at 1.
    rewrite (macOctet_at a (0 + 1 + 1 + 1) b1) by (reflexivity || lia).
    unfold bind at 1.
    rewrite (macOctet_at a (0 + 1 + 1 + 1 + 1) b2) by (reflexivity || lia).
    unfold bind at 1.
    rewrite (macOctet_at a (0 + 1 + 1 + 1 + 1 + 1) b3)
      by (reflexivity || lia).
    unfold bind at 1.
    rewrite (macOctet_at a (0 + 1 + 1 + 1 + 1 + 1 + 1) b4)
      by (reflexivity || lia).
    unfold bind at 1.
    rewrite (macOctet_at a (0 + 1 + 1 + 1 + 1 + 1 + 1 + 1) b5)
      by (reflexivity || lia).
    unfold bind.
    destruct (NdefHandoverCodec.oobLoop _ _ _ _) as [[v b']| |];
      reflexivity. }
  destruct Hrun as (n & name & Hrun). rewrite Hrun.
  split.
  { intros Hlt. exfalso. unfold len in Hlt. cbn [List.length] in Hlt. lia. }
  destruct (NdefHandoverCodec.oobLoop n _ name _) as [[v b']|e'|] eqn:El.
  - split; [intros e H; discriminate H|].
    intros ssp H. inversion H; subst ssp.
    exists l0, l1, b0, b1, b2, b3, b4, b5, rest. split; reflexivity.
  - split; [|intros ssp H; discriminate H].
    intros e H. inversion H; subst e'.
    exact (throwsOnly_oobLoop _ _ _ _ _ El).
  - split; [intros e H; discriminate H|intros ssp H; discriminate H].
Qed.

Lemma parseBluetoothSSP_failures_witness :
  NdefHandoverCodec.parseBluetoothSSP
    (mkRecord 2 BluetoothMimeType [] (Uint8Array [8; 0; 1; 2; 3]))
  = Throw BufferTooSmall.
Proof.
  apply (proj1 (parseBluetoothSSP_failures
                  (mkRecord 2 BluetoothMimeType []
                     (Uint8Array [8; 0; 1; 2; 3])))).
  vm_compute. reflexivity.
Defined.

(** ** C10: an OOB value of length 0 in the payload *)














(** ** What the encoders write is read back *)

Lemma parse_select_template (fuel : nat) (c m0 m1 m2 m3 m4 m5 : byte) :
  NdefHandoverCodec.doParse (S fuel)
    [mkRecord 1 NdefConsts.rtd_handover_select (Uint8Array [])
       [x12; xd1; x02; x04; x61; x63; c; x01; x30; x00];
     mkRecord 2 BluetoothMimeType (Uint8Array [0x30])
       [x08; x00; m0; m1; m2; m3; m4; m5]]
  = Ok (mkHandover "Hs" 1 2 None
          [mkAC (Z.land (b2z c) 3)
             (mkRecord 2 BluetoothMimeType (Uint8Array [0x30])
                [x08; x00; m0; m1; m2; m3; m4; m5])]).
Proof. reflexivity. Qed.

Lemma power_state_read_back (cps : Z) :
  Z.land (b2z (ToUint8 (Some cps))) 3 = cps mod 4.
Proof.
  rewrite b2z_ToUint8. change 3 with (Z.ones 2).
  rewrite Z.land_ones by lia. change (2 ^ 2) with 4.
  change 256 with (4 * 64). rewrite Z.rem_mul_r by lia.
  rewrite Z.mul_comm, Z.mod_add by lia. apply Z.mod_mod. lia.
Qed.

Lemma canonicalAddress_groups (groups : list (ascii * ascii)) :
  List.length groups = 6%nat ->
  Forall (fun g => isUpperHex (fst g) = true /\ isUpperHex (snd g) = true)
    groups ->
  canonicalAddress (address_of groups) = address_of groups.
Proof.
  intros Hlen Hall.
  destruct groups as [|[a1 a2] [|[b1 b2] [|[c1 c2] [|[d1 d2] [|[e1 e2]
    [|[f1 f2] [|]]]]]]]; try discriminate Hlen. clear Hlen.
  repeat match goal with
         | H : Forall _ (_ :: _) |- _ => inversion H; subst; clear H
         | H : Forall _ [] |- _ => clear H
         | H : _ /\ _ |- _ => destruct H
         end.
  cbn [fst snd] in *.
  unfold canonicalAddress.
  assert (Hsplit : JSString.split
                     (address_of [(a1, a2); (b1, b2); (c1, c2); (d1, d2);
                                  (e1, e2); (f1, f2)])
                   = [String a1 (String a2 EmptyString);
                      String b1 (String b2 EmptyString);
                      String c1 (String c2 EmptyString);
                      String d1 (String d2 EmptyString);
                      String e1 (String e2 EmptyString);
                      String f1 (String f2 EmptyString)]).
  { cbn [address_of map fst snd String.concat String.append].
    rewrite !split_group by assumption.
    rewrite split_last_group by assumption. reflexivity. }
  rewrite Hsplit. cbn [map].
  rewrite !group_round_trip by assumption. reflexivity.
Qed.

(** A Handover Select read back.  For every address that splits into six
    groups and every carrier power state, the message of
    [encodeHandoverSelect] is parsed as an 'Hs' of version 1.2 without
    collision value, with one alternative carrier whose power state is the
    one given modulo 4 and whose carrier data record is the second record
    of the message; [getBluetoothMAC] reads from it the address as the
    encoder stored it, each group as two uppercase hex digits.  For groups
    of two uppercase hex digits that is the address given. *)
Theorem select_round_trip :
  forall (mac : string) (cps : Z) (fuel : nat),
    List.length (JSString.split mac) = 6%nat ->
    exists hs cdr,
      NdefHandoverCodec.encodeHandoverSelect mac cps = Some [hs; cdr]
      /\ NdefHandoverCodec.parse (1 + fuel) [hs; cdr]
         = Ok (Some (mkHandover "Hs" 1 2 None [mkAC (cps mod 4) cdr]))
      /\ HandoverManager.getBluetoothMAC (1 + fuel) [hs; cdr]
         = Ok (Some (canonicalAddress mac))
      /\ forall groups,
          List.length groups = 6%nat ->
          Forall (fun g => isUpperHex (fst g) = true
                           /\ isUpperHex (snd g) = true) groups ->
          mac = address_of groups ->
          canonicalAddress mac = mac.
Proof.
  intros mac cps fuel Hlen.
  assert (Hcanon : forall groups,
             List.length groups = 6%nat ->
             Forall (fun g => isUpperHex (fst g) = true
                              /\ isUpperHex (snd g) = true) groups ->
             mac = address_of groups ->
             canonicalAddress mac = mac).
  { intros groups Hg Hall ->. apply canonicalAddress_groups; assumption. }
  unfold canonicalAddress in *.
  unfold NdefHandoverCodec.encodeHandoverSelect, len.
  destruct (JSString.split mac) as [|g0 [|g1 [|g2 [|g3 [|g4 [|g5 [|]]]]]]];
    try discriminate Hlen.
  cbn [List.length Z.of_nat]. cbn [map].
  set (m0 := ToUint8 (JSString.parseInt16 g0)).
  set (m1 := ToUint8 (JSString.parseInt16 g1)).
  set (m2 := ToUint8 (JSString.parseInt16 g2)).
  set (m3 := ToUint8 (JSString.parseInt16 g3)).
  set (m4 := ToUint8 (JSString.parseInt16 g4)).
  set (m5 := ToUint8 (JSString.parseInt16 g5)).
  set (cdr := mkRecord 2 BluetoothMimeType (Uint8Array [0x30])
                [x08; x00; m5; m4; m3; m2; m1; m0]).
  set (hs := mkRecord 1 NdefConsts.rtd_handover_select (Uint8Array [])
               [x12; xd1; x02; x04; x61; x63; ToUint8 (Some cps); x01; x30;
                x00]).
  assert (Hp : NdefHandoverCodec.doParse (1 + fuel) [hs; cdr]
               = Ok (mkHandover "Hs" 1 2 None [mkAC (cps mod 4) cdr])).
  { subst hs cdr. cbn [Nat.add]. rewrite parse_select_template.
    rewrite power_state_read_back. reflexivity. }
  exists hs, cdr. split; [reflexivity|].
  split; [unfold NdefHandoverCodec.parse; rewrite Hp; reflexivity|].
  split; [|exact Hcanon].
  unfold HandoverManager.getBluetoothMAC, NdefHandoverCodec.parse.
  rewrite Hp. unfold rbind at 1.
  change (NdefHandoverCodec.searchForBluetoothAC _) with (Some cdr).
  cbv iota. subst cdr. rewrite parseBluetoothSSP_address. reflexivity.
Qed.

Lemma select_round_trip_witness :
  exists hs cdr,
    NdefHandoverCodec.encodeHandoverSelect "a:1B:c:0d:E:ff" 6 = Some [hs; cdr]
    /\ NdefHandoverCodec.parse 1 [hs; cdr]
       = Ok (Some (mkHandover "Hs" 1 2 None [mkAC (6 mod 4) cdr]))
    /\ HandoverManager.getBluetoothMAC 1 [hs; cdr]
       = Ok (Some (canonicalAddress "a:1B:c:0d:E:ff"))
    /\ forall groups,
        List.length groups = 6%nat ->
        Forall (fun g => isUpperHex (fst g) = true
                         /\ isUpperHex (snd g) = true) groups ->
        "a:1B:c:0d:E:ff" = address_of groups ->
        canonicalAddress "a:1B:c:0d:E:ff" = "a:1B:c:0d:E:ff".
Proof.
  apply (select_round_trip "a:1B:c:0d:E:ff" 6 0). reflexivity.
Defined.

Example canonicalAddress_example :
  canonicalAddress "a:1B:c:0d:E:ff" = "0A:1B:0C:0D:0E:FF".
Proof. reflexivity. Qed.

(** A Handover Request read back, for any address of six groups: an 'Hr'
    with one alternative carrier, the power state modulo 4, and the
    address as the encoder stored it. *)
Theorem request_read_back :
  forall (mac : string) (cps rnd : Z) (fuel : nat),
    List.length (JSString.split mac) = 6%nat ->
    exists hr cdr h,
      NdefHandoverCodec.encodeHandoverRequest mac cps rnd = Some [hr; cdr]
      /\ NdefHandoverCodec.parse (2 + fuel) [hr; cdr] = Ok (Some h)
      /\ h_type h = "Hr"
      /\ ac h = [mkAC (cps mod 4) cdr]
      /\ HandoverManager.getBluetoothMAC (2 + fuel) [hr; cdr]
         = Ok (Some (canonicalAddress mac)).
Proof.
  intros mac cps rnd fuel Hlen.
  unfold canonicalAddress.
  unfold NdefHandoverCodec.encodeHandoverRequest, len.
  destruct (JSString.split mac) as [|g0 [|g1 [|g2 [|g3 [|g4 [|g5 [|]]]]]]];
    try discriminate Hlen.
  cbn [List.length Z.of_nat]. cbn [map].
  set (msb := ToUint8 (Some (Z.shiftr (ToUint32 rnd) 8))).
  set (lsb := ToUint8 (Some (Z.land (ToInt32 rnd) 0xff))).
  set (m0 := ToUint8 (JSString.parseInt16 g0)).
  set (m1 := ToUint8 (JSString.parseInt16 g1)).
  set (m2 := ToUint8 (JSString.parseInt16 g2)).
  set (m3 := ToUint8 (JSString.parseInt16 g3)).
  set (m4 := ToUint8 (JSString.parseInt16 g4)).
  set (m5 := ToUint8 (JSString.parseInt16 g5)).
  set (cdr := mkRecord 2 BluetoothMimeType (Uint8Array [98])
                [x08; x00; m5; m4; m3; m2; m1; m0]).
  set (hr := mkRecord 1 (Uint8Array [72; 114]) (Uint8Array [])
               [x12; x91; x02; x02; x63; x72; msb; lsb; x51; x02; x04;
                x61; x63; ToUint8 (Some cps); x01; x62; x00]).
  assert (Hp : NdefHandoverCodec.doParse (2 + fuel) [hr; cdr]
               = Ok (mkHandover "Hr" 1 2
                       (Some (Z.lor (ToInt32 (Z.shiftl (b2z msb) 8))
                                (b2z lsb)))
                       [mkAC (cps mod 4) cdr])).
  { subst hr cdr. cbn [Nat.add]. rewrite parse_request_template.
    rewrite power_state_read_back. reflexivity. }
  exists hr, cdr. eexists. split; [reflexivity|].
  split; [unfold NdefHandoverCodec.parse; rewrite Hp; reflexivity|].
  split; [reflexivity|]. split; [reflexivity|].
  unfold HandoverManager.getBluetoothMAC, NdefHandoverCodec.parse.
  rewrite Hp. unfold rbind at 1.
  change (NdefHandoverCodec.searchForBluetoothAC _) with (Some cdr).
  cbv iota. subst cdr. rewrite parseBluetoothSSP_address. reflexivity.
Qed.

Lemma request_read_back_witness :
  exists hr cdr h,
    NdefHandoverCodec.encodeHandoverRequest "ZZ:1:2:3:4:5" 2 7 = Some [hr; cdr]
    /\ NdefHandoverCodec.parse 2 [hr; cdr] = Ok (Some h)
    /\ h_type h = "Hr"
    /\ ac h = [mkAC (2 mod 4) cdr]
    /\ HandoverManager.getBluetoothMAC 2 [hr; cdr]
       = Ok (Some (canonicalAddress "ZZ:1:2:3:4:5")).
Proof.
  apply (request_read_back "ZZ:1:2:3:4:5" 2 7 0). reflexivity.
Defined.

(** ** The manager: handovers from start to end *)

(** A negotiated handover that succeeds.  With Bluetooth enabled and the
    adapter known, [handleFileTransfer] records the request and sends a
    Handover Request carrying the adapter's address, power state 1 and the
    random number; the Handover Select that answers it, whatever message
    [getBluetoothMAC] reads an address from, starts the pairing with that
    address and marks a handover in progress; the pairing's success sends
    the blob to that address; and [transferComplete(true)] unpairs,
    reports status 0 for the request once, and leaves the manager idle. *)
Theorem negotiated_handover :
  forall (env : Env) (fuel : nat) (ndef : list MozNdefRecord) (mac : string)
         (session : Session) (blob : Blob) (requestId : RequestId)
         (adapter : Adapter) queue notified calls,
    enabled env = true ->
    HandoverManager.getBluetoothMAC fuel ndef = Ok (Some mac) ->
    let request :=
      mkSendFileRequest session blob requestId
        (DispatchSendFileStatus 0) (DispatchSendFileStatus 1) in
    let idle := mkState (Some adapter) queue None None notified calls in
    let sent :=
      mkState (Some adapter) queue (Some request) None notified (S calls) in
    let paired :=
      mkState (Some adapter) queue (Some request) (Some mac) notified
        (S calls) in
    HandoverManager.handleFileTransfer env fuel session blob requestId idle
    = Done tt sent
        [GetNFCPeer session;
         SendNDEF session
           (NdefHandoverCodec.encodeHandoverRequest (address adapter) 1
              (random env calls))
           HrSent HrFailed]
    /\ HandoverManager.handleHandoverSelect env fuel ndef sent
       = Done tt paired [Pair mac (Some SendBlob) (Some FailTransfer)]
    /\ HandoverManager.isHandoverInProgress paired = true
    /\ HandoverManager.callCallback SendBlob paired
       = Done tt paired [SendFile (Some mac) blob]
    /\ HandoverManager.transferComplete true paired
       = Done tt
           (mkState (Some adapter) queue None None notified (S calls))
           [Unpair mac; DispatchEvent 0 requestId session].
Proof.
  intros env fuel ndef mac session blob requestId adapter queue notified
    calls He Hmac. cbv zeta.
  split.
  { unfold HandoverManager.handleFileTransfer, HandoverManager.doAction.
    rewrite He. cbn [negb HandoverManager.apply].
    unfold HandoverManager.initiateFileTransfer. rewrite He. reflexivity. }
  split.
  { unfold HandoverManager.handleHandoverSelect, hbind at 1, lift.
    rewrite Hmac. cbn [sendFileRequest get hbind].
    unfold HandoverManager.doAction. rewrite He. reflexivity. }
  repeat split.
Qed.

Lemma negotiated_handover_witness :
  HandoverManager.handleHandoverSelect bluetoothOn 1 goodSelect
    (mkState (Some adapter0) []
       (Some (mkSendFileRequest 7 8 9 (DispatchSendFileStatus 0)
                (DispatchSendFileStatus 1))) None false 1)
  = Done tt
      (mkState (Some adapter0) []
         (Some (mkSendFileRequest 7 8 9 (DispatchSendFileStatus 0)
                  (DispatchSendFileStatus 1)))
         (Some "AA:BB:CC:DD:EE:FF") false 1)
      [Pair "AA:BB:CC:DD:EE:FF" (Some SendBlob) (Some FailTransfer)].
Proof.
  apply (proj1 (proj2 (negotiated_handover bluetoothOn 1 goodSelect
                         "AA:BB:CC:DD:EE:FF" 7 8 9 adapter0 [] false 0
                         eq_refl eq_refl))).
Defined.

(** The two ways an outgoing transfer fails before the file is sent.  When
    sending the Handover Request fails, and when the pairing fails, the
    status 1 is reported for the request exactly once and the request is
    forgotten (after a failed pairing the remote address too, without
    unpairing); a [transferComplete] that comes after reports nothing
    more. *)
Theorem outgoing_transfer_failures :
  forall (session : Session) (blob : Blob) (requestId : RequestId)
         (mac : string) adapter queue notified calls,
    let request :=
      mkSendFileRequest session blob requestId
        (DispatchSendFileStatus 0) (DispatchSendFileStatus 1) in
    let idle := mkState adapter queue None None notified calls in
    HandoverManager.callCallback HrFailed
      (mkState adapter queue (Some request) None notified calls)
    = Done tt idle [DispatchEvent 1 requestId session]
    /\ HandoverManager.callCallback FailTransfer
         (mkState adapter queue (Some request) (Some mac) notified calls)
       = Done tt idle [DispatchEvent 1 requestId session]
    /\ forall succeeded,
        HandoverManager.transferComplete succeeded idle = Done tt idle [].
Proof.
  intros. cbv zeta. split; [reflexivity|]. split; [reflexivity|].
  intros succeeded. destruct adapter; reflexivity.
Qed.

(** An incoming Handover Request.  Whether called at once or from the
    queue, [doHandoverRequest] on a message from which [getBluetoothMAC]
    reads an address keeps that address as the remote one (a handover is
    then in progress) and answers with the Handover Select of the adapter's
    own address, power state 1 when Bluetooth is enabled and 2 when not.
    When the answer is sent the pairing is asked for, without callbacks;
    when sending fails the remote address is forgotten.  From a message
    without a Bluetooth address nothing is done. *)
Theorem incoming_request :
  forall (env : Env) (fuel : nat) (ndef : list MozNdefRecord)
         (session : Session) (adapter : Adapter) queue request remote
         notified calls,
    let st := mkState (Some adapter) queue request remote notified calls in
    (forall mac,
        HandoverManager.getBluetoothMAC fuel ndef = Ok (Some mac) ->
        let st' :=
          mkState (Some adapter) queue request (Some mac) notified calls in
        HandoverManager.doHandoverRequest env fuel ndef session st
        = Done tt st'
            [GetNFCPeer session;
             SendNDEF session
               (NdefHandoverCodec.encodeHandoverSelect (address adapter)
                  (if enabled env then 1 else 2))
               (HsSent mac) HsFailed]
        /\ HandoverManager.isHandoverInProgress st' = true
        /\ HandoverManager.callCallback (HsSent mac) st'
           = Done tt st' [Pair mac None None]
        /\ HandoverManager.callCallback HsFailed st'
           = Done tt
               (mkState (Some adapter) queue request None notified calls)
               [])
    /\ (HandoverManager.getBluetoothMAC fuel ndef = Ok None ->
        HandoverManager.doHandoverRequest env fuel ndef session st
        = Done tt st []).
Proof.
  intros. cbv zeta. split.
  - intros mac Hmac. split; [|repeat split].
    unfold HandoverManager.doHandoverRequest, hbind at 1, lift.
    rewrite Hmac. reflexivity.
  - intros Hmac.
    unfold HandoverManager.doHandoverRequest, hbind at 1, lift.
    rewrite Hmac. reflexivity.
Qed.

Lemma incoming_request_witness :
  HandoverManager.doHandoverRequest bluetoothOff 1 goodSelect 7
    (mkState (Some adapter0) [] None None false 0)
  = Done tt
      (mkState (Some adapter0) [] None (Some "AA:BB:CC:DD:EE:FF") false 0)
      [GetNFCPeer 7;
       SendNDEF 7
         (NdefHandoverCodec.encodeHandoverSelect "11:22:33:44:55:66" 2)
         (HsSent "AA:BB:CC:DD:EE:FF") HsFailed].
Proof.
  apply (proj1 (proj1 (incoming_request bluetoothOff 1 goodSelect 7 adapter0
                         [] None None false 0)
                  "AA:BB:CC:DD:EE:FF" eq_refl)).
Defined.

(** A static handover.  With no send-file request pending, a Handover
    Select with a Bluetooth address only asks for the pairing, with the
    two logging callbacks: the manager's state is not touched, so no
    handover is in progress afterwards; without an adapter nothing is
    asked for.  With Bluetooth disabled the pairing is queued instead. *)
Theorem static_handover :
  forall (env : Env) (fuel : nat) (ndef : list MozNdefRecord) (mac : string)
         adapter queue remote notified calls,
    HandoverManager.getBluetoothMAC fuel ndef = Ok (Some mac) ->
    let st := mkState adapter queue None remote notified calls in
    (enabled env = true ->
     HandoverManager.handleHandoverSelect env fuel ndef st
     = Done tt st
         (match adapter with
          | Some _ => [Pair mac (Some PairingSucceeded) (Some PairingFailed)]
          | None => []
          end))
    /\ (enabled env = false ->
        HandoverManager.handleHandoverSelect env fuel ndef st
        = Done tt
            (mkState adapter
               (queue ++ [call_doPairing mac PairingSucceeded PairingFailed])
               None remote true calls)
            (if notified then [] else [SettingsSetBluetoothEnabled])).
Proof.
  intros env fuel ndef mac adapter queue remote notified calls Hmac.
  cbv zeta. split; intros He;
    unfold HandoverManager.handleHandoverSelect, hbind at 1, lift;
    rewrite Hmac; cbn [sendFileRequest get hbind];
    unfold HandoverManager.doAction; rewrite He.
  - destruct adapter; reflexivity.
  - destruct notified; reflexivity.
Qed.

Lemma static_handover_witness :
  HandoverManager.handleHandoverSelect bluetoothOn 1 goodSelect
    (mkState (Some adapter0) [] None None false 0)
  = Done tt (mkState (Some adapter0) [] None None false 0)
      [Pair "AA:BB:CC:DD:EE:FF" (Some PairingSucceeded) (Some PairingFailed)].
Proof.
  apply (proj1 (static_handover bluetoothOn 1 goodSelect "AA:BB:CC:DD:EE:FF"
                  (Some adapter0) [] None false 0 eq_refl) eq_refl).
Defined.

(** Bluetooth enabled but no adapter yet.  [bluetooth.enabled] can be true
    before 'adapteradded' has given the manager its adapter.  Then an
    incoming Handover Request with a Bluetooth address, and a file
    transfer, both end in a TypeError on [self.defaultAdapter.address]:
    nothing is sent, but the remote address, respectively the send-file
    request, stays set. *)
Theorem enabled_without_adapter :
  forall (env : Env) (fuel : nat) (ndef : list MozNdefRecord) (mac : string)
         (session : Session) (blob : Blob) (requestId : RequestId)
         queue request remote notified calls,
    enabled env = true ->
    HandoverManager.getBluetoothMAC fuel ndef = Ok (Some mac) ->
    let st := mkState None queue request remote notified calls in
    HandoverManager.handleHandoverRequest env fuel ndef session st
    = Raised TypeError
        (mkState None queue request (Some mac) notified calls)
        [GetNFCPeer session]
    /\ HandoverManager.handleFileTransfer env fuel session blob requestId st
       = Raised TypeError
           (mkState None queue
              (Some (mkSendFileRequest session blob requestId
                       (DispatchSendFileStatus 0) (DispatchSendFileStatus 1)))
              remote notified (S calls))
           [GetNFCPeer session].
Proof.
  intros env fuel ndef mac session blob requestId queue request remote
    notified calls He Hmac. cbv zeta. split.
  - unfold HandoverManager.handleHandoverRequest, HandoverManager.doAction.
    rewrite He. cbn [negb HandoverManager.apply].
    unfold HandoverManager.doHandoverRequest, hbind at 1, lift.
    rewrite Hmac. reflexivity.
  - unfold HandoverManager.handleFileTransfer, HandoverManager.doAction.
    rewrite He. reflexivity.
Qed.

Lemma enabled_without_adapter_witness :
  HandoverManager.handleHandoverRequest bluetoothOn 1 goodSelect 7
    initialState
  = Raised TypeError
      (mkState None [] None (Some "AA:BB:CC:DD:EE:FF") false 0)
      [GetNFCPeer 7].
Proof.
  apply (proj1 (enabled_without_adapter bluetoothOn 1 goodSelect
                  "AA:BB:CC:DD:EE:FF" 7 0 0 [] None None false 0
                  eq_refl eq_refl)).
Defined.

(** ** NdefCodec: when a parse ends *)

Lemma advances_bind {A B} (m : M A) (f : A -> M B) (k1 k2 : Z)
    (P : A -> Prop) (Q : B -> Prop) :
  0 <= k1 ->
  advances m k1 P -> (forall v, P v -> advances (f v) k2 Q) ->
  advances (bind m f) (k1 + k2) Q.
Proof.
  intros Hk Hm Hf a i Hi. unfold bind. specialize (Hm a i Hi).
  destruct (m (mkBuffer a (Some i))) as [[v b1]| |]; [|exact I|exact Hm].
  destruct Hm as (i1 & -> & Hi1 & Hv).
  specialize (Hf v Hv a i1 ltac:(lia)).
  destruct (f v (mkBuffer a (Some i1))) as [[w b2]| |]; [|exact I|exact Hf].
  destruct Hf as (i2 & -> & Hi2 & Hw).
  exists i2. split; [reflexivity|]. split; [lia|exact Hw].
Qed.

Lemma advances_weaken {A} (m : M A) (k k' : Z) (P P' : A -> Prop) :
  advances m k P -> k' <= k -> (forall v, P v -> P' v) -> advances m k' P'.
Proof.
  intros Hm Hk HP a i Hi. specialize (Hm a i Hi).
  destruct (m (mkBuffer a (Some i))) as [[v b1]| |]; [|exact I|exact Hm].
  destruct Hm as (i1 & -> & Hi1 & Hv).
  exists i1. split; [reflexivity|]. split; [lia|auto].
Qed.

Lemma advances_ret {A} (v : A) (P : A -> Prop) : P v -> advances (ret v) 0 P.
Proof.
  intros Hv a i Hi. cbn. exists i. split; [reflexivity|]. split; [lia|exact Hv].
Qed.

Lemma advances_getOctet :
  advances getOctet 1 (fun o => exists b, o = Some b).
Proof.
  intros a i Hi. unfold getOctet. cbn [offset uint8array num_eq num_add].
  destruct (Z.eqb_spec i (len a)); [exact I|].
  exists (i + 1). split; [reflexivity|]. split; [lia|].
  cbn [index]. destruct (Z.ltb_spec i 0); [lia|].
  destruct (nth_error a (Z.to_nat i)) as [b|] eqn:E; [eauto|].
  apply nth_error_None in E. unfold len in *. lia.
Qed.

Lemma advances_getOctetArray (n : Z) :
  0 <= n -> advances (getOctetArray (Some n)) 0 (fun _ => True).
Proof.
  intros Hn a i Hi. unfold getOctetArray.
  cbn [offset uint8array num_gt num_add].
  destruct (Z.gtb_spec (i + n) (len a)); [exact I|].
  exists (i + n). split; [reflexivity|]. split; [lia|exact I].
Qed.

Lemma advances_parseNdefRecord (o : jsoctet) :
  NdefCodec.flag o NdefConsts.SR = true ->
  advances (NdefCodec.parseNdefRecord o) 2 (fun _ => True).
Proof.
  intros Hsr. unfold NdefCodec.parseNdefRecord. cbv zeta. rewrite Hsr.
  cbn [negb].
  change 2 with (1 + (1 + (0 + (0 + (0 + (0 + (0 + 0))))))).
  eapply advances_bind; [lia|apply advances_getOctet|].
  intros typeLen (tl & ->).
  eapply advances_bind; [lia|apply advances_getOctet|].
  intros payloadLen (pl & ->).
  eapply advances_bind; [lia| |].
  { apply (advances_ret _ (fun v => exists n, v = Some n /\ 0 <= n)).
    exists (b2z pl). split; [reflexivity|apply b2z_range]. }
  intros ? (plen & -> & Hpl).
  eapply (advances_bind _ _ 0 _ (fun v => exists n, v = Some n /\ 0 <= n));
    [lia| |].
  { destruct (NdefCodec.flag o NdefConsts.IL).
    - apply (advances_weaken _ (1 + 0) 0
               (fun v => exists n, v = Some n /\ 0 <= n)); [|lia|auto].
      eapply advances_bind; [lia|apply advances_getOctet|].
      intros ? (b & ->). apply advances_ret.
      exists (b2z b). split; [reflexivity|apply b2z_range].
    - apply advances_ret. exists 0. split; [reflexivity|lia]. }
  intros ? (idlen & -> & Hil).
  eapply advances_bind;
    [lia|apply advances_getOctetArray; apply b2z_range|intros ty _].
  eapply advances_bind;
    [lia|apply advances_getOctetArray; exact Hil|intros i _].
  eapply advances_bind;
    [lia|apply advances_getOctetArray; exact Hpl|intros p _].
  apply advances_ret. exact I.
Qed.

Lemma advances_doParseRecord (first : bool) (a : list byte) (i : Z) :
  0 <= i <= len a ->
  (forall o buf', getOctet (mkBuffer a (Some i)) = Ok (o, buf') ->
                  NdefCodec.flag o NdefConsts.SR = true) ->
  match NdefCodec.doParseRecord first (mkBuffer a (Some i)) with
  | Ok (_, buf') =>
      exists i', buf' = mkBuffer a (Some i') /\ i + 3 <= i' <= len a
  | Throw _ => True
  | OutOfFuel => False
  end.
Proof.
  intros Hi Hsr. unfold NdefCodec.doParseRecord, bind at 1.
  pose proof (advances_getOctet a i Hi) as Hg.
  destruct (getOctet (mkBuffer a (Some i))) as [[o b1]| |] eqn:Eg;
    [|exact I|exact Hg].
  destruct Hg as (i1 & -> & Hi1 & _).
  specialize (Hsr o _ eq_refl).
  destruct (first && _); [exact I|].
  destruct (negb first && _); [exact I|].
  destruct (NdefCodec.flag o NdefConsts.CF); [exact I|].
  pose proof (advances_parseNdefRecord o Hsr a i1 ltac:(lia)) as Hp.
  unfold bind.
  destruct (NdefCodec.parseNdefRecord o (mkBuffer a (Some i1)))
    as [[r b2]| |]; [|exact I|exact Hp].
  destruct Hp as (i2 & -> & Hi2 & _).
  exists i2. split; [reflexivity|lia].
Qed.

Lemma doParseLoop_short_ends (a : list byte) :
  forall fuel first records i,
    0 <= i <= len a ->
    (forall first' o,
        headerRead (mkBuffer a (Some i)) first first' o ->
        NdefCodec.flag o NdefConsts.SR = true) ->
    (Z.to_nat (len a - i) < fuel)%nat ->
    NdefCodec.doParseLoop fuel first records (mkBuffer a (Some i))
    <> OutOfFuel.
Proof.
  induction fuel as [|fuel IH]; intros first records i Hi Hsr Hf; [lia|].
  cbn [NdefCodec.doParseLoop]. unfold bind at 1.
  assert (Hh : forall o buf',
             getOctet (mkBuffer a (Some i)) = Ok (o, buf') ->
             NdefCodec.flag o NdefConsts.SR = true).
  { intros o buf' Hg. apply (Hsr first o). eapply read_here. exact Hg. }
  pose proof (advances_doParseRecord first a i Hi Hh) as Hr.
  destruct (NdefCodec.doParseRecord first (mkBuffer a (Some i)))
    as [[[r more] b1]| |] eqn:Er.
  - destruct Hr as (i1 & -> & Hi1).
    cbn [fst snd]. destruct more; [|discriminate].
    apply IH; [lia| |lia].
    intros first' o Hd. apply (Hsr first' o).
    eapply read_later; [exact Er|exact Hd].
  - discriminate.
  - contradiction.
Qed.

(** With short records only, a parse ends.  When every record header that
    the loop of [doParse] comes to has SR set, the cursor moves forward by
    three bytes or more at every record, and [parse] returns the records
    or null within as many turns as the buffer has bytes left, plus one. *)
Theorem NdefCodec_parse_short_records_ends :
  forall (a : list byte) (i : Z) (fuel : nat),
    0 <= i <= len a ->
    (forall first o,
        headerRead (mkBuffer a (Some i)) true first o ->
        NdefCodec.flag o NdefConsts.SR = true) ->
    (Z.to_nat (len a - i) < fuel)%nat ->
    NdefCodec.parse fuel (mkBuffer a (Some i)) <> OutOfFuel.
Proof.
  intros a i fuel Hi Hsr Hf. unfold NdefCodec.parse, NdefCodec.doParse.
  pose proof (doParseLoop_short_ends a fuel true [] i Hi Hsr Hf) as H.
  destruct (NdefCodec.doParseLoop fuel true [] (mkBuffer a (Some i)))
    as [[rs b]| |]; [discriminate|discriminate|contradiction].
Qed.

Lemma NdefCodec_parse_short_records_ends_witness :
  NdefCodec.parse 8
    (mkBuffer (Uint8Array [0xD1; 2; 2; 99; 114; 1; 2]) (Some 0))
  <> OutOfFuel.
Proof.
  apply (NdefCodec_parse_short_records_ends
           (Uint8Array [0xD1; 2; 2; 99; 114; 1; 2]) 0 8).
  - unfold len. simpl. lia.
  - intros first o H. inversion H as [? ? ? ? Hg|? ? ? ? ? ? Hr _]; subst.
    + vm_compute in Hg. inversion Hg. reflexivity.
    + vm_compute in Hr. discriminate Hr.
  - simpl. lia.
Defined.

Lemma nth_error_middle {A} (pre l post : list A) (k : nat) (x : A) :
  nth_error l k = Some x ->
  nth_error (pre ++ l ++ post) (List.length pre + k) = Some x.
Proof.
  intros H. rewrite nth_error_app2 by lia.
  replace (List.length pre + k - List.length pre)%nat with k by lia.
  rewrite nth_error_app1 by (apply nth_error_Some; congruence). exact H.
Qed.

Lemma doParseLoop_loops_at :
  forall (pre post : list byte) (fuel : nat) (records : list MozNdefRecord),
    NdefCodec.doParseLoop fuel false records
      (mkBuffer (pre ++ [x00; x00; xff; xff; xff; xfa] ++ post)
         (Some (len pre)))
    = OutOfFuel.
Proof.
  intros pre post.
  set (a := pre ++ [x00; x00; xff; xff; xff; xfa] ++ post).
  set (i := len pre).
  assert (Hi : 0 <= i) by apply len_nonneg.
  assert (Hn : forall (k : nat) x,
             nth_error [x00; x00; xff; xff; xff; xfa] k = Some x ->
             nth_error a (Z.to_nat (i + Z.of_nat k)) = Some x).
  { intros k x Hk. subst a i.
    replace (Z.to_nat (len pre + Z.of_nat k)) with (List.length pre + k)%nat
      by (unfold len; lia).
    apply nth_error_middle. exact Hk. }
  assert (Hlen : i + 6 <= len a).
  { subst a i. unfold len. rewrite !length_app. cbn [List.length]. lia. }
  assert (Hrec : exists r,
             NdefCodec.doParseRecord false (mkBuffer a (Some i))
             = Ok ((r, true), mkBuffer a (Some i))).
  { eexists. unfold NdefCodec.doParseRecord, bind at 1.
    rewrite (getOctet_at a i x00 Hi)
      by (replace i with (i + Z.of_nat 0) by lia; apply Hn; reflexivity).
    change (false && _) with false. cbv iota.
    change (negb false && NdefCodec.flag (Some x00) NdefConsts.MB)
      with false.
    change (NdefCodec.flag (Some x00) NdefConsts.CF) with false.
    cbv iota. unfold NdefCodec.parseNdefRecord, NdefCodec.shiftOctet.
    cbv zeta.
    change (negb (NdefCodec.flag (Some x00) NdefConsts.SR)) with true.
    change (NdefCodec.flag (Some x00) NdefConsts.IL) with false.
    cbv iota.
    unfold bind at 1. unfold bind at 1.
    rewrite (getOctet_at a (i + 1) x00)
      by (lia || (replace (i + 1) with (i + Z.of_nat 1) by lia;
                  apply Hn; reflexivity)).
    unfold bind at 1.
    rewrite (getOctet_at a (i + 1 + 1) xff)
      by (lia || (replace (i + 1 + 1) with (i + Z.of_nat 2) by lia;
                  apply Hn; reflexivity)).
    unfold bind at 1. unfold bind at 1. unfold bind at 1.
    rewrite (getOctet_at a (i + 1 + 1 + 1) xff)
      by (lia || (replace (i + 1 + 1 + 1) with (i + Z.of_nat 3) by lia;
                  apply Hn; reflexivity)).
    unfold ret at 1. unfold bind at 1. unfold bind at 1.
    rewrite (getOctet_at a (i + 1 + 1 + 1 + 1) xff)
      by (lia || (replace (i + 1 + 1 + 1 + 1) with (i + Z.of_nat 4) by lia;
                  apply Hn; reflexivity)).
    unfold ret at 1. unfold bind at 1. unfold bind at 1.
    rewrite (getOctet_at a (i + 1 + 1 + 1 + 1 + 1) xfa)
      by (lia || (replace (i + 1 + 1 + 1 + 1 + 1) with (i + Z.of_nat 5)
                    by lia; apply Hn; reflexivity)).
    unfold ret at 1. unfold ret at 1. unfold bind at 1. unfold ret at 1.
    unfold bind at 1.
    change (octet_num (Some x00)) with (Some 0).
    unfold getOctetArray at 1. cbn [offset uint8array num_add num_gt].
    destruct (Z.gtb_spec (i + 1 + 1 + 1 + 1 + 1 + 1 + 0) (len a));
      [exfalso; lia|].
    unfold bind at 1.
    unfold getOctetArray at 1. cbn [offset uint8array num_add num_gt].
    destruct (Z.gtb_spec (i + 1 + 1 + 1 + 1 + 1 + 1 + 0 + 0) (len a));
      [exfalso; lia|].
    unfold bind at 1.
    match goal with
    | |- context [getOctetArray (Some ?v)] => change v with (-6)
    end.
    unfold getOctetArray at 1. cbn [offset uint8array num_add num_gt].
    destruct (Z.gtb_spec (i + 1 + 1 + 1 + 1 + 1 + 1 + 0 + 0 + -6) (len a));
      [exfalso; lia|].
    unfold ret.
    replace (i + 1 + 1 + 1 + 1 + 1 + 1 + 0 + 0 + -6) with i by lia.
    reflexivity. }
  destruct Hrec as (r & Hrec).
  induction fuel as [|fuel IH]; intros records; [reflexivity|].
  cbn [NdefCodec.doParseLoop]. unfold bind at 1. rewrite Hrec.
  cbn [fst snd]. apply IH.
Qed.

Lemma doParseLoop_open_layout (rest : list MozNdefRecord) (post : list byte) :
  forall fuel records buf,
    Forall fitsLayout rest ->
    at_suffix buf (flat_map (recordBytes false false) rest
                   ++ [x00; x00; xff; xff; xff; xfa] ++ post) ->
    NdefCodec.doParseLoop fuel false records buf = OutOfFuel.
Proof.
  induction rest as [|r rest IH]; intros fuel records buf Hall Hat.
  - cbn [flat_map app] in Hat. destruct buf as [a o].
    destruct Hat as (pre & Ha & Ho). cbn in Ha, Ho. subst a o.
    apply (doParseLoop_loops_at pre post).
  - inversion Hall as [|? ? Hr Hrest]; subst.
    destruct fuel as [|fuel]; [reflexivity|].
    cbn [flat_map] in Hat. rewrite <- app_assoc in Hat.
    destruct (doParseRecord_layout false false r buf _ Hr Hat)
      as (b1 & G1 & S1).
    cbn [NdefCodec.doParseLoop]. unfold bind at 1. rewrite G1.
    cbn [fst snd negb]. apply IH; assumption.
Qed.

(** A record that sends the cursor back.  After any records that are not
    the last (ME not set), a record that starts with the six octets
    00 00 FF FF FF FA (no flag, empty type, a payload length that as an
    Int32 is -6) leaves the cursor on its own header when it has been
    read: [parse] then never returns, whatever follows in the buffer and
    however many turns the loop of [doParse] is given. *)
Theorem NdefCodec_parse_never_ends :
  forall (r : MozNdefRecord) (rest : list MozNdefRecord) (post : list byte),
    Forall fitsLayout (r :: rest) ->
    forall fuel,
      NdefCodec.parse fuel
        (newBuffer (recordBytes true false r
                    ++ flat_map (recordBytes false false) rest
                    ++ [x00; x00; xff; xff; xff; xfa] ++ post))
      = OutOfFuel.
Proof.
  intros r rest post Hall fuel.
  inversion Hall as [|? ? Hr Hrest]; subst.
  unfold NdefCodec.parse, NdefCodec.doParse.
  destruct fuel as [|fuel]; [reflexivity|].
  destruct (doParseRecord_layout true false r _
              (flat_map (recordBytes false false) rest
               ++ [x00; x00; xff; xff; xff; xfa] ++ post)
              Hr (at_suffix_newBuffer _))
    as (b1 & G1 & S1).
  cbn [NdefCodec.doParseLoop]. unfold bind at 1. rewrite G1.
  cbn [fst snd negb].
  rewrite (doParseLoop_open_layout rest post fuel _ b1 Hrest S1).
  reflexivity.
Qed.

Lemma NdefCodec_parse_never_ends_witness :
  NdefCodec.parse 1000
    (newBuffer (Uint8Array [0x91; 1; 2; 84; 7; 9;
                            0x10; 0; 1; 5;
                            0; 0; 0xFF; 0xFF; 0xFF; 0xFA; 1; 2; 3]))
  = OutOfFuel.
Proof.
  apply (NdefCodec_parse_never_ends
           (mkRecord 1 (Uint8Array [84]) [] (Uint8Array [7; 9]))
           [mkRecord 0 [] [] (Uint8Array [5])]
           (Uint8Array [1; 2; 3])).
  repeat constructor; unfold len; simpl; lia.
Defined.



(** ** Alternative carriers that cannot be resolved *)

(** How [parseAC] fails: on an 'ac' payload of fewer than two bytes and on
    a reference length that runs past the payload with 'Buffer too small';
    on a reference that is the id of no record of the message with 'Could
    not find record with id'. *)
Theorem parseAC_failures :
  forall (ndef : list MozNdefRecord),
    (forall ac, len ac < 2 ->
       NdefHandoverCodec.parseAC ac ndef = Throw BufferTooSmall)
    /\ (forall flags n rest, len rest < b2z n ->
          NdefHandoverCodec.parseAC (flags :: n :: rest) ndef
          = Throw BufferTooSmall)
    /\ (forall flags n reference rest,
          len reference = b2z n ->
          Forall (fun r => id r <> reference) ndef ->
          NdefHandoverCodec.parseAC (flags :: n :: reference ++ rest) ndef
          = Throw (Str "Could not find record with id")).
Proof.
  intros ndef. split; [|split].
  - intros [|x [|y l]] Hlen; try reflexivity.
    exfalso. unfold len in Hlen. cbn [List.length] in Hlen. lia.
  - intros flags n rest Hlen.
    unfold NdefHandoverCodec.parseAC, rbind, onBuffer, newBuffer.
    unfold bind at 1.
    rewrite (getOctet_at _ 0 flags) by (reflexivity || lia).
    unfold bind at 1.
    rewrite (getOctet_at _ (0 + 1) n) by (reflexivity || lia).
    unfold bind at 1. cbn [octet_num option_map].
    unfold getOctetArray. cbn [offset uint8array num_add num_gt].
    destruct (Z.gtb_spec (0 + 1 + 1 + b2z n) (len (flags :: n :: rest)));
      [reflexivity|].
    exfalso. unfold len in *. cbn [List.length] in *. lia.
  - intros flags n reference rest Hlen Hall.
    unfold NdefHandoverCodec.parseAC, rbind, onBuffer, newBuffer.
    unfold bind at 1.
    rewrite (getOctet_at _ 0 flags) by (reflexivity || lia).
    unfold bind at 1.
    rewrite (getOctet_at _ (0 + 1) n) by (reflexivity || lia).
    unfold bind at 1. cbn [octet_num option_map].
    pose proof (b2z_range n) as Hn.
    rewrite getOctetArray_in_bounds
      by (try lia; unfold len in *; cbn [List.length];
          rewrite length_app; lia).
    unfold ret. cbn [fst snd].
    change (Z.to_nat (0 + 1 + 1)) with 2%nat. cbn [skipn].
    rewrite <- Hlen, to_nat_len, firstn_app, firstn_all, Nat.sub_diag.
    cbn [firstn]. rewrite app_nil_r.
    rewrite (findNdefRecordWithId_none _ _ Hall). reflexivity.
Qed.

Lemma parseAC_failures_witness :
  NdefHandoverCodec.parseAC (x01 :: x01 :: [x31] ++ [x00]) goodSelect
  = Throw (Str "Could not find record with id").
Proof.
  apply (proj2 (proj2 (parseAC_failures goodSelect)) x01 x01 [x31] [x00]).
  - reflexivity.
  - repeat constructor; discriminate.
Defined.

Lemma parseAcRecordsLoop_carrier_fails ndef rest : forall acc r e,
  In r rest ->
  NdefHandoverCodec.parseAC (payload r) ndef = Throw e ->
  exists e', NdefHandoverCodec.parseAcRecordsLoop acc ndef rest = Throw e'.
Proof.
  induction rest as [|record rest IH]; intros acc r e Hin He;
    [contradiction|].
  simpl.
  destruct (NdefUtils.equalArrays (type record)
              NdefConsts.rtd_alternative_carrier); [|eauto].
  unfold rbind.
  destruct (NdefHandoverCodec.parseAC (payload record) ndef)
    as [a|e1|] eqn:Ea.
  - destruct Hin as [->|Hin]; [congruence|]. eapply IH; eassumption.
  - eauto.
  - exfalso. exact (parseAC_returns _ _ Ea).
Qed.

(** A carrier that cannot be resolved makes the message void.  When the
    'ac' payload of a record of the alternative-carrier region makes
    [parseAC] throw (the payload is cut short, or its reference is the id
    of no record of the message), [NdefHandoverCodec.parse] returns null,
    whatever the other carriers are. *)
Theorem unresolved_carrier_rejects :
  forall (fuel : nat) (ndefMsg : list MozNdefRecord) record version buffer
         embedded r e,
    nth_error ndefMsg 0 = Some record ->
    getOctet (newBuffer (payload record)) = Ok (version, buffer) ->
    NdefCodec.parse fuel buffer = Ok (Some embedded) ->
    (type record = NdefConsts.rtd_handover_select /\ In r embedded)
    \/ (type record = NdefConsts.rtd_handover_request
        /\ In r (skipn 1 embedded)) ->
    NdefHandoverCodec.parseAC (payload r) ndefMsg = Throw e ->
    NdefHandoverCodec.parse fuel ndefMsg = Ok None.
Proof.
  intros fuel ndefMsg record version buffer embedded r e Hn Hg Hp Hin He.
  unfold NdefHandoverCodec.parse, NdefHandoverCodec.doParse.
  rewrite Hn, Hg. unfold rbind at 1. rewrite Hp.
  destruct (negb (tnf record =? NdefConsts.tnf_well_known));
    [reflexivity|].
  destruct Hin as [[Hs Hin]|[Hr Hin]].
  - apply equalArrays_eq in Hs. rewrite Hs.
    unfold NdefHandoverCodec.parseAcRecords.
    destruct (parseAcRecordsLoop_carrier_fails ndefMsg (skipn 0 embedded)
                [] r e Hin He) as [e' He'].
    rewrite He'. reflexivity.
  - destruct (NdefUtils.equalArrays (type record)
                NdefConsts.rtd_handover_select) eqn:Es.
    { apply equalArrays_eq in Es. rewrite Hr in Es. discriminate Es. }
    apply equalArrays_eq in Hr. rewrite Hr.
    destruct (nth_error embedded 0) as [crr|]; [|reflexivity].
    destruct (negb (NdefUtils.equalArrays (type crr)
                      NdefConsts.rtd_collision_resolution));
      [reflexivity|].
    destruct (negb (len (payload crr) =? 2)); [reflexivity|].
    unfold NdefHandoverCodec.parseAcRecords.
    destruct (parseAcRecordsLoop_carrier_fails ndefMsg (skipn 1 embedded)
                [] r e Hin He) as [e' He'].
    rewrite He'. reflexivity.
Qed.

Lemma unresolved_carrier_rejects_witness :
  NdefHandoverCodec.parse 1
    [mkRecord 1 NdefConsts.rtd_handover_select []
       (Uint8Array [0x12; 0xD1; 0x02; 0x04; 0x61; 0x63; 1; 0x01; 0x31; 0x00]);
     mkRecord 2 BluetoothMimeType (Uint8Array [0x30])
       (Uint8Array [8; 0; 1; 2; 3; 4; 5; 6])]
  = Ok None.
Proof.
  apply (unresolved_carrier_rejects 1
           [mkRecord 1 NdefConsts.rtd_handover_select []
              (Uint8Array [0x12; 0xD1; 0x02; 0x04; 0x61; 0x63; 1; 0x01;
                           0x31; 0x00]);
            mkRecord 2 BluetoothMimeType (Uint8Array [0x30])
              (Uint8Array [8; 0; 1; 2; 3; 4; 5; 6])]
           (mkRecord 1 NdefConsts.rtd_handover_select []
              (Uint8Array [0x12; 0xD1; 0x02; 0x04; 0x61; 0x63; 1; 0x01;
                           0x31; 0x00]))
           (Some x12)
           (mkBuffer (Uint8Array [0x12; 0xD1; 0x02; 0x04; 0x61; 0x63; 1;
                                  0x01; 0x31; 0x00]) (Some 1))
           [mkRecord 1 NdefConsts.rtd_alternative_carrier []
              (Uint8Array [1; 1; 0x31; 0])]
           (mkRecord 1 NdefConsts.rtd_alternative_carrier []
              (Uint8Array [1; 1; 0x31; 0]))
           (Str "Could not find record with id")).
  - reflexivity.
  - reflexivity.
  - reflexivity.
  - left. split; [reflexivity|]. left. reflexivity.
  - reflexivity.
Defined.
